(** * edu-microservice: event store, saga orchestrator and marketing projector

    A shallow embedding of the write side (order and inventory services),
    the saga orchestrator and the marketing projector, with the properties
    the specification states about them.

    Conventions of the embedding.
    - Python [int] is [Z]; identifiers of type [UUID] are their 128-bit
      integer value, an [N]; monetary amounts (NUMERIC columns fed from a
      Python float) are rationals [Q]; a [datetime] is a number of
      microseconds since the epoch, UTC.
    - A database table is a finite map from its key to its row, except the
      [event_store] table, a heap of rows read back through ORDER BY.
    - A command runs in one transaction: it returns [None] when a statement
      raises (the session is closed without commit, nothing is published).
    - An outbound HTTP call is delivered and handled, refused before it
      reaches the service, answered too late (the service did the work, the
      caller sees a transport error), or answered 500 by a service whose
      handler raised before its commit.
    - The requests of one service interleave at every await; a statement
      reads what is committed when it runs, and what a request wrote shows
      to the others when it commits. *)

From stdpp Require Import base option list sorting gmap strings pretty.
From Stdlib Require Import ZArith QArith Lia.

Local Open Scope string_scope.
Local Open Scope list_scope.
Local Open Scope Z_scope.

Definition UUID := N.
Bind Scope N_scope with UUID.
Definition datetime := Z.
Bind Scope Z_scope with datetime.

(** ** Events (events.py of both services)

    The write side stores a pair [event_type], [event_data]; the pair is the
    tagged union below, one constructor per event class. *)

Inductive event :=
| OrderCreated (order_id : UUID) (customer_name : string) (product_id : UUID)
    (product_name : string) (quantity : Z) (total_price : Q) (timestamp : datetime)
| OrderConfirmed (order_id : UUID) (timestamp : datetime)
| OrderCancelled (order_id : UUID) (reason : string) (timestamp : datetime)
| InventoryReserved (product_id order_id : UUID) (quantity : Z) (timestamp : datetime)
| InventoryReservationFailed (product_id order_id : UUID)
    (quantity_requested quantity_available : Z) (timestamp : datetime)
| InventoryReleased (product_id order_id : UUID) (quantity : Z) (timestamp : datetime).

Definition event_type (e : event) : string :=
  match e with
  | OrderCreated _ _ _ _ _ _ _ => "OrderCreated"
  | OrderConfirmed _ _ => "OrderConfirmed"
  | OrderCancelled _ _ _ => "OrderCancelled"
  | InventoryReserved _ _ _ _ => "InventoryReserved"
  | InventoryReservationFailed _ _ _ _ _ => "InventoryReservationFailed"
  | InventoryReleased _ _ _ _ => "InventoryReleased"
  end.

(** ** event_store.py (the order and the inventory service carry the same file) *)

Module EventStore.

Record row := Row {
  aggregate_id : UUID;
  aggregate_type : string;
  event_data : event;
  version : Z;
  created_at : datetime
}.

(** The table: the rows inserted so far, the latest first. *)
Definition table := list row.

(** Modelled from the spec: the schema of [event_store] is not part of the
    sources; invariant I1 and the docstring of [append_event] give the
    table a UNIQUE constraint on (aggregate_id, version). *)
Definition violates_unique (t : table) (agg_id : UUID) (v : Z) : bool :=
  existsb (fun r => (aggregate_id r =? agg_id)%N && (version r =? v)) t.

(** [append_event]: INSERT at [expected_version + 1]; [None] is the
    integrity error of a duplicate (aggregate_id, version). *)
Definition append_event (t : table) (agg_id : UUID) (agg_type : string)
    (e : event) (expected_version : Z) (now : datetime) : option (table * Z) :=
  let new_version := expected_version + 1 in
  if violates_unique t agg_id new_version then None
  else Some (Row agg_id agg_type e new_version now :: t, new_version).

(** ORDER BY version ASC, as an insertion sort. *)
Fixpoint insert_by_version (x : row) (l : list row) : list row :=
  match l with
  | [] => [x]
  | y :: l' =>
      if version y <=? version x then y :: insert_by_version x l'
      else x :: y :: l'
  end.

Fixpoint order_by_version (l : list row) : list row :=
  match l with
  | [] => []
  | x :: l' => insert_by_version x (order_by_version l')
  end.

Fixpoint where_aggregate (agg_id : UUID) (t : table) : list row :=
  match t with
  | [] => []
  | r :: t' =>
      if (aggregate_id r =? agg_id)%N then r :: where_aggregate agg_id t'
      else where_aggregate agg_id t'
  end.

(** [load_events]: the rows of one aggregate, ascending by version. *)
Definition load_events (t : table) (agg_id : UUID) : list row :=
  order_by_version (where_aggregate agg_id t).

(** [events[-1]["version"] if events else 0], the idiom of the inventory
    commands; [from_events] of both aggregates ends with the same number. *)
Definition last_version (events : list row) : Z :=
  match last events with
  | Some r => version r
  | None => 0
  end.

End EventStore.

(** ** Order service *)

Inductive order_status := UNKNOWN | PENDING | CONFIRMED | CANCELLED.

(** aggregate.py *)
Module OrderAggregate.

Record t := Agg {
  id : option UUID;
  customer_name : string;
  product_id : option UUID;
  product_name : string;
  quantity : Z;
  total_price : Q;
  status : order_status;
  version : Z
}.

Definition init : t := Agg None "" None "" 0 (inject_Z 0) UNKNOWN 0.

Definition set_status (s : order_status) (a : t) : t :=
  Agg (id a) (customer_name a) (product_id a) (product_name a)
      (quantity a) (total_price a) s (version a).

Definition set_version (v : Z) (a : t) : t :=
  Agg (id a) (customer_name a) (product_id a) (product_name a)
      (quantity a) (total_price a) (status a) v.

Definition apply_order_created (a : t) (oid : UUID) (cn : string) (pid : UUID)
    (pn : string) (q : Z) (tp : Q) : t :=
  Agg (Some oid) cn (Some pid) pn q tp PENDING (version a).

Definition apply_order_confirmed (a : t) : t := set_status CONFIRMED a.

Definition apply_order_cancelled (a : t) : t := set_status CANCELLED a.

(** Dispatch on the event type; a type without handler is skipped. *)
Definition apply_event (a : t) (e : event) : t :=
  match e with
  | OrderCreated oid cn pid pn q tp _ => apply_order_created a oid cn pid pn q tp
  | OrderConfirmed _ _ => apply_order_confirmed a
  | OrderCancelled _ _ _ => apply_order_cancelled a
  | _ => a
  end.

Definition replay (a : t) (events : list EventStore.row) : t :=
  fold_left (fun agg r =>
               set_version (EventStore.version r)
                 (apply_event agg (EventStore.event_data r)))
            events a.

Definition from_events (events : list EventStore.row) : t := replay init events.

End OrderAggregate.

(** A message on the Redis bus: the channel and the JSON document. *)
Inductive saga_status := EXECUTING | COMPLETED | FAILED.

Record SagaStep := Step {
  step : Z;
  action : string;
  step_status : saga_status;
  step_timestamp : datetime;
  error : option string
}.

Inductive message :=
| DomainEvent (e : event)
| SagaEvent (saga_event_type : string) (order_id : UUID) (saga_log : list SagaStep).

Definition published := (string * message)%type.

(** commands.py of the order service *)
Module OrderCommands.

Record order_row := OrderRow {
  customer_name : string;
  product_id : UUID;
  product_name : string;
  quantity : Z;
  total_price : Q;
  status : order_status;
  created_at : datetime;
  updated_at : datetime
}.

(** Modelled from the spec: the schema of [orders_read_model] is not part
    of the sources; the table holds one row per order id, its primary key.
    The session is the pair of tables of the order database. *)
Record db := Db {
  event_store : EventStore.table;
  orders_read_model : gmap UUID order_row
}.

Definition update_status (s : order_status) (now : datetime) (r : order_row) : order_row :=
  OrderRow (customer_name r) (product_id r) (product_name r) (quantity r)
           (total_price r) s (created_at r) now.

Definition create_order (session : db) (now : datetime) (order_id : UUID)
    (cn : string) (pid : UUID) (pn : string) (q : Z) (tp : Q)
    : option (db * published * OrderAggregate.t) :=
  let event_data := OrderCreated order_id cn pid pn q tp now in
  '(es, version) ← EventStore.append_event (event_store session) order_id "Order"
                     event_data 0 now;
  rm ← match orders_read_model session !! order_id with
       | Some _ => None
       | None => Some (<[order_id := OrderRow cn pid pn q tp PENDING now now]>
                         (orders_read_model session))
       end;
  let agg := OrderAggregate.apply_order_created OrderAggregate.init order_id cn pid pn q tp in
  Some (Db es rm, ("order_events", DomainEvent event_data),
        OrderAggregate.set_version version agg).

Definition confirm_order (session : db) (now : datetime) (order_id : UUID)
    : option (db * published * OrderAggregate.t) :=
  let events := EventStore.load_events (event_store session) order_id in
  let agg := OrderAggregate.from_events events in
  let event_data := OrderConfirmed order_id now in
  '(es, version) ← EventStore.append_event (event_store session) order_id "Order"
                     event_data (OrderAggregate.version agg) now;
  let rm := alter (update_status CONFIRMED now) order_id (orders_read_model session) in
  Some (Db es rm, ("order_events", DomainEvent event_data),
        OrderAggregate.set_version version (OrderAggregate.apply_order_confirmed agg)).

Definition cancel_order (session : db) (now : datetime) (order_id : UUID)
    (reason : string) : option (db * published * OrderAggregate.t) :=
  let events := EventStore.load_events (event_store session) order_id in
  let agg := OrderAggregate.from_events events in
  let event_data := OrderCancelled order_id reason now in
  '(es, version) ← EventStore.append_event (event_store session) order_id "Order"
                     event_data (OrderAggregate.version agg) now;
  let rm := alter (update_status CANCELLED now) order_id (orders_read_model session) in
  Some (Db es rm, ("order_events", DomainEvent event_data),
        OrderAggregate.set_version version (OrderAggregate.apply_order_cancelled agg)).

End OrderCommands.

(** ** Inventory service *)

(** aggregate.py *)
Module InventoryAggregate.

Record t := Agg {
  id : option UUID;
  product_name : string;
  quantity : Z;
  reserved : Z;
  version : Z
}.

Definition init : t := Agg None "" 0 0 0.

Definition available (a : t) : Z := quantity a - reserved a.

Definition apply_inventory_reserved (a : t) (q : Z) : t :=
  Agg (id a) (product_name a) (quantity a) (reserved a + q) (version a).

Definition apply_inventory_released (a : t) (q : Z) : t :=
  Agg (id a) (product_name a) (quantity a) (reserved a - q) (version a).

Definition apply_event (a : t) (e : event) : t :=
  match e with
  | InventoryReserved _ _ q _ => apply_inventory_reserved a q
  | InventoryReleased _ _ q _ => apply_inventory_released a q
  | _ => a
  end.

Definition from_events (events : list EventStore.row) : t :=
  fold_left (fun agg r =>
               let agg' := apply_event agg (EventStore.event_data r) in
               Agg (id agg') (product_name agg') (quantity agg') (reserved agg')
                   (EventStore.version r))
            events init.

End InventoryAggregate.

(** commands.py of the inventory service *)
Module InventoryCommands.

Record inventory_row := InventoryRow {
  product_name : string;
  quantity : Z;
  reserved : Z;
  price : Q;
  updated_at : datetime
}.

(** The column [available] that the queries read. *)
Definition available (r : inventory_row) : Z := quantity r - reserved r.

(** Modelled from the spec: the schema of [inventory_read_model] is not part
    of the sources; the table holds one row per product id and carries no
    constraint on [reserved]. The session is the pair of tables of the
    inventory database. *)
Record db := Db {
  event_store : EventStore.table;
  inventory_read_model : gmap UUID inventory_row
}.

Record result := Result {
  success : bool;
  reason : option string
}.

Definition add_reserved (q : Z) (now : datetime) (r : inventory_row) : inventory_row :=
  InventoryRow (product_name r) (quantity r) (reserved r + q) (price r) now.

Definition sub_reserved (q : Z) (now : datetime) (r : inventory_row) : inventory_row :=
  InventoryRow (product_name r) (quantity r) (reserved r - q) (price r) now.

Definition reserve_inventory (session : db) (now : datetime)
    (product_id order_id : UUID) (qty : Z)
    : option (db * list published * result) :=
  match inventory_read_model session !! product_id with
  | None => Some (session, [], Result false (Some "Product not found"))
  | Some row =>
      let available := quantity row - reserved row in
      if available <? qty then
        let event_data := InventoryReservationFailed product_id order_id qty available now in
        let events := EventStore.load_events (event_store session) product_id in
        let current_version := EventStore.last_version events in
        '(es, _) ← EventStore.append_event (event_store session) product_id "Inventory"
                     event_data current_version now;
        Some (Db es (inventory_read_model session),
              [("inventory_events", DomainEvent event_data)],
              Result false
                (Some ("Insufficient stock: requested=" +:+ pretty qty
                       +:+ ", available=" +:+ pretty available)))
      else
        let event_data := InventoryReserved product_id order_id qty now in
        let events := EventStore.load_events (event_store session) product_id in
        let current_version := EventStore.last_version events in
        '(es, _) ← EventStore.append_event (event_store session) product_id "Inventory"
                     event_data current_version now;
        let rm := alter (add_reserved qty now) product_id (inventory_read_model session) in
        Some (Db es rm, [("inventory_events", DomainEvent event_data)],
              Result true None)
  end.

Definition release_inventory (session : db) (now : datetime)
    (product_id order_id : UUID) (qty : Z)
    : option (db * list published * result) :=
  let event_data := InventoryReleased product_id order_id qty now in
  let events := EventStore.load_events (event_store session) product_id in
  let current_version := EventStore.last_version events in
  '(es, _) ← EventStore.append_event (event_store session) product_id "Inventory"
               event_data current_version now;
  let rm := alter (sub_reserved qty now) product_id (inventory_read_model session) in
  Some (Db es rm, [("inventory_events", DomainEvent event_data)], Result true None).

End InventoryCommands.

(** ** The deployed services (main.py of each) and the saga orchestrator *)

(** The state the orchestrator acts on: the two databases, the bus and the
    wall clock that [datetime.now] reads. The clock stands still while one
    request is served; no property below depends on a time stamp. *)
Record world := World {
  order_db : OrderCommands.db;
  inventory_db : InventoryCommands.db;
  redis : list published;
  clock : datetime
}.

Record response := Response {
  status_code : Z;
  text : string
}.

(** An endpoint: the handler runs, commits and publishes, or raises and
    answers 500 with the transaction rolled back. Of the JSON body of an
    answer the model keeps the detail text. *)
Definition endpoint := world -> world * response.

Module OrderService.

Definition commit (w : world) (r : option (OrderCommands.db * published * OrderAggregate.t))
    : world * response :=
  match r with
  | Some (db', msg, agg) =>
      (World db' (inventory_db w) (redis w ++ [msg]) (clock w), Response 200 "OK")
  | None => (w, Response 500 "Internal Server Error")
  end.

Definition cmd_create_order (order_id : UUID) (cn : string) (pid : UUID)
    (pn : string) (q : Z) (tp : Q) : endpoint :=
  fun w => commit w (OrderCommands.create_order (order_db w) (clock w) order_id cn pid pn q tp).

Definition cmd_confirm_order (order_id : UUID) : endpoint :=
  fun w => commit w (OrderCommands.confirm_order (order_db w) (clock w) order_id).

Definition cmd_cancel_order (order_id : UUID) (reason : string) : endpoint :=
  fun w => commit w (OrderCommands.cancel_order (order_db w) (clock w) order_id reason).

End OrderService.

Module InventoryService.

(** [cmd_reserve]: an unsuccessful result is answered 409 with the reason
    as detail, after the command committed what it wrote. *)
Definition cmd_reserve (product_id order_id : UUID) (qty : Z) : endpoint :=
  fun w =>
    match InventoryCommands.reserve_inventory (inventory_db w) (clock w)
            product_id order_id qty with
    | Some (db', msgs, res) =>
        let w' := World (order_db w) db' (redis w ++ msgs) (clock w) in
        if InventoryCommands.success res then (w', Response 200 "OK")
        else (w', Response 409 (default "" (InventoryCommands.reason res)))
    | None => (w, Response 500 "Internal Server Error")
    end.

Definition cmd_release (product_id order_id : UUID) (qty : Z) : endpoint :=
  fun w =>
    match InventoryCommands.release_inventory (inventory_db w) (clock w)
            product_id order_id qty with
    | Some (db', msgs, res) =>
        (World (order_db w) db' (redis w ++ msgs) (clock w), Response 200 "OK")
    | None => (w, Response 500 "Internal Server Error")
    end.

End InventoryService.

(** The inventory service under load: [reserve_inventory] and
    [release_inventory] of commands.py as coroutines that the event loop
    resumes one await at a time, so that the statements of two requests
    interleave.

    Modelled from the spec: the isolation level of the database is not part
    of the sources. After section 5 of the specification a statement reads
    what is committed when it runs, and the rows a request inserted or
    updated show to the others when it commits; the INSERT of
    [append_event], the UPDATE of the read model and the commit are
    therefore one step, in which the UNIQUE constraint is checked against
    what is committed and the UPDATE adds to the committed value. The
    publish that follows the commit is left out: the bus is not part of
    this model. *)
Module InventoryRequests.
Import InventoryCommands.

Inductive request :=
| Reserve (product_id order_id : UUID) (quantity : Z)
| Release (product_id order_id : UUID) (quantity : Z).

(** A request suspended at an await, with the local variables its
    coroutine holds, or answered by [cmd_reserve] or [cmd_release]: 200,
    409 with the reason of an unsuccessful result, or 500 when a statement
    raised. *)
Inductive coroutine :=
| ReserveSelect (product_id order_id : UUID) (qty : Z) (now : datetime)
| ReserveLoad (product_id order_id : UUID) (qty : Z) (now : datetime) (available : Z)
| ReserveAppend (product_id order_id : UUID) (qty : Z) (now : datetime) (available : Z)
    (current_version : Z)
| ReleaseLoad (product_id order_id : UUID) (qty : Z) (now : datetime)
| ReleaseAppend (product_id order_id : UUID) (qty : Z) (now : datetime)
    (current_version : Z)
| Answered (r : response).

(** The request arrives at [now]: [reserve_inventory] stops at the SELECT
    on the read model, [release_inventory] at [load_events]. *)
Definition start (now : datetime) (r : request) : coroutine :=
  match r with
  | Reserve product_id order_id qty => ReserveSelect product_id order_id qty now
  | Release product_id order_id qty => ReleaseLoad product_id order_id qty now
  end.

(** The event loop resumes a coroutine at [time]: the statement it was
    suspended at runs against the committed database [session], and the
    coroutine goes on to its next await or to its answer. *)
Definition resume (time : datetime) (session : db) (c : coroutine) : db * coroutine :=
  match c with
  | ReserveSelect product_id order_id qty now =>
      match inventory_read_model session !! product_id with
      | None => (session, Answered (Response 409 "Product not found"))
      | Some row =>
          (session, ReserveLoad product_id order_id qty now (quantity row - reserved row))
      end
  | ReserveLoad product_id order_id qty now available =>
      let events := EventStore.load_events (event_store session) product_id in
      (session,
       ReserveAppend product_id order_id qty now available (EventStore.last_version events))
  | ReserveAppend product_id order_id qty now available current_version =>
      if available <? qty then
        let event_data :=
          InventoryReservationFailed product_id order_id qty available now in
        match EventStore.append_event (event_store session) product_id "Inventory"
                event_data current_version time with
        | Some (es, _) =>
            (Db es (inventory_read_model session),
             Answered (Response 409
                         ("Insufficient stock: requested=" +:+ pretty qty
                          +:+ ", available=" +:+ pretty available)))
        | None => (session, Answered (Response 500 "Internal Server Error"))
        end
      else
        let event_data := InventoryReserved product_id order_id qty now in
        match EventStore.append_event (event_store session) product_id "Inventory"
                event_data current_version time with
        | Some (es, _) =>
            (Db es (alter (add_reserved qty now) product_id (inventory_read_model session)),
             Answered (Response 200 "OK"))
        | None => (session, Answered (Response 500 "Internal Server Error"))
        end
  | ReleaseLoad product_id order_id qty now =>
      let events := EventStore.load_events (event_store session) product_id in
      (session, ReleaseAppend product_id order_id qty now (EventStore.last_version events))
  | ReleaseAppend product_id order_id qty now current_version =>
      let event_data := InventoryReleased product_id order_id qty now in
      match EventStore.append_event (event_store session) product_id "Inventory"
              event_data current_version time with
      | Some (es, _) =>
          (Db es (alter (sub_reserved qty now) product_id (inventory_read_model session)),
           Answered (Response 200 "OK"))
      | None => (session, Answered (Response 500 "Internal Server Error"))
      end
  | Answered r => (session, Answered r)
  end.

Definition answered (c : coroutine) : bool :=
  match c with
  | Answered _ => true
  | _ => false
  end.

(** The service: the committed database and the requests that arrived, in
    the order of their arrival. *)
Record state := State {
  database : db;
  coroutines : list coroutine
}.

(** What the event loop does next: it accepts a request, or resumes the
    [i]-th one. *)
Inductive action :=
| Arrive (now : datetime) (r : request)
| Resume (time : datetime) (i : nat).

Definition step (st : state) (a : action) : state :=
  match a with
  | Arrive now r => State (database st) (coroutines st ++ [start now r])
  | Resume time i =>
      match coroutines st !! i with
      | Some c =>
          let '(session, c') := resume time (database st) c in
          State session (<[i := c']> (coroutines st))
      | None => st
      end
  end.

Definition run (st : state) (schedule : list action) : state :=
  fold_left step schedule st.

(** No request is in progress. *)
Definition idle (st : state) : bool := forallb answered (coroutines st).

End InventoryRequests.

(** orchestrator.py *)
Module OrderSagaOrchestrator.

(** What happens to one [client.post]. [Delivered]: the request reaches the
    service, the handler runs to its end and the answer arrives.
    [ConnectError]: the request never reaches the service. [ReadTimeout]:
    the service handles the request, the answer does not arrive within the
    30 s timeout. Both are [httpx.HTTPError], raised by [post].
    [InternalServerError]: the request reaches the service and a statement
    of the handler raises before the commit, because the database fails or
    because a request served in between took the version the handler had
    loaded; the session is closed without commit, nothing is published and
    the answer, which arrives, is 500. *)
Inductive outcome := Delivered | ConnectError | ReadTimeout | InternalServerError.

(** The network during one execution, one outcome per step. *)
Record network := Network {
  step1 : outcome;
  step2 : outcome;
  step3 : outcome
}.

Definition transport_message (o : outcome) : string :=
  match o with
  | Delivered => ""
  | ConnectError => "All connection attempts failed"
  | ReadTimeout => "The read operation timed out"
  | InternalServerError => ""
  end.

(** [await client.post(...)]: a response, or the message of the transport
    error raised. *)
Definition post (o : outcome) (h : endpoint) (w : world) : world * (response + string) :=
  match o with
  | Delivered => let '(w', r) := h w in (w', inl r)
  | ConnectError => (w, inr (transport_message o))
  | ReadTimeout => let '(w', _) := h w in (w', inr (transport_message o))
  | InternalServerError => (w, inl (Response 500 "Internal Server Error"))
  end.

(** [resp.raise_for_status()] raises unless the status is 2xx. *)
Definition is_success (r : response) : bool :=
  (200 <=? status_code r) && (status_code r <=? 299).

Definition status_error_message (r : response) : string :=
  "HTTP status error " +:+ pretty (status_code r).

Record result := Result {
  success : bool;
  saga_log : list SagaStep
}.

(** [saga_log[-1]["status"] = s], with [saga_log[-1]["error"] = e] when an
    error is recorded. *)
Fixpoint set_last (s : saga_status) (e : option string) (log : list SagaStep)
    : list SagaStep :=
  match log with
  | [] => []
  | [x] => [Step (step x) (action x) s (step_timestamp x)
                 (match e with Some _ => e | None => error x end)]
  | x :: log' => x :: set_last s e log'
  end.

Definition _publish_saga_event (w : world) (ty : string) (order_id : UUID)
    (log : list SagaStep) : world :=
  World (order_db w) (inventory_db w)
        (redis w ++ [("saga_events", SagaEvent ty order_id log)]) (clock w).

(** The compensation of a failed step 2, written twice in the source (once
    per except clause) with a different cancel reason. *)
Definition compensate (net : network) (w : world) (order_id : UUID)
    (reason : string) (log : list SagaStep) : world * result :=
  let log := log ++ [Step 3 "CancelOrder (COMPENSATING)" EXECUTING (clock w) None] in
  let '(w, r) := post (step3 net) (OrderService.cmd_cancel_order order_id reason) w in
  let log := match r with
             | inl _ => set_last COMPLETED None log
             | inr _ => set_last FAILED None log
             end in
  (_publish_saga_event w "SagaCompensated" order_id log, Result false log).

Definition execute (net : network) (w : world) (order_id : UUID) (cn : string)
    (product_id : UUID) (pn : string) (qty : Z) (tp : Q) : world * result :=
  let now := clock w in
  (* Step 1 *)
  let log := [Step 1 "CreateOrder" EXECUTING now None] in
  let '(w, r) := post (step1 net)
                   (OrderService.cmd_create_order order_id cn product_id pn qty tp) w in
  let failed1 (msg : string) :=
    let log := set_last FAILED (Some msg) log in
    (_publish_saga_event w "SagaFailed" order_id log, Result false log) in
  match r with
  | inr msg => failed1 msg
  | inl resp =>
    if negb (is_success resp) then failed1 (status_error_message resp) else
    let log := set_last COMPLETED None log in
    (* Step 2 *)
    let log := log ++ [Step 2 "ReserveInventory" EXECUTING (clock w) None] in
    let '(w, r) := post (step2 net)
                     (InventoryService.cmd_reserve product_id order_id qty) w in
    match r with
    | inr msg =>
        let log := set_last FAILED (Some msg) log in
        compensate net w order_id ("Inventory service error: " +:+ msg) log
    | inl resp =>
      if negb (is_success resp) then
        let log := set_last FAILED (Some (text resp)) log in
        compensate net w order_id "Inventory reservation failed" log
      else
      let log := set_last COMPLETED None log in
      (* Step 3 *)
      let log := log ++ [Step 3 "ConfirmOrder" EXECUTING (clock w) None] in
      let '(w, r) := post (step3 net) (OrderService.cmd_confirm_order order_id) w in
      let log := match r with
                 | inl _ => set_last COMPLETED None log
                 | inr msg => set_last FAILED (Some msg) log
                 end in
      (_publish_saga_event w "SagaCompleted" order_id log, Result true log)
    end
  end.

End OrderSagaOrchestrator.

(** ** Marketing service *)

(** projections.py *)
Module Projections.

(** The [data] dictionary of a message: a key the handlers read is present
    with a value of the right shape, or [None] (absent or ill-formed), in
    which case the read raises. [timestamp] is the result of
    [datetime.fromisoformat]. *)
Record payload := Payload {
  order_id : option UUID;
  customer_name : option string;
  product_id : option UUID;
  product_name : option string;
  quantity : option Z;
  total_price : option Q;
  timestamp : option datetime
}.

Record snapshot_row := SnapshotRow {
  s_customer_name : string;
  s_product_id : UUID;
  s_product_name : string;
  s_quantity : Z;
  s_total_price : Q;
  s_status : order_status;
  s_order_date : Z;
  s_created_at : datetime;
  s_updated_at : datetime
}.

Record customer_row := CustomerRow {
  c_total_orders : Z;
  c_confirmed_orders : Z;
  c_cancelled_orders : Z;
  c_total_revenue : Q;
  c_avg_order_value : Q;
  c_first_order_at : datetime;
  c_last_order_at : datetime;
  c_updated_at : datetime
}.

Record product_row := ProductRow {
  p_product_name : string;
  p_total_units_ordered : Z;
  p_confirmed_units : Z;
  p_total_order_count : Z;
  p_confirmed_order_count : Z;
  p_total_revenue : Q;
  p_unique_customers : Z;
  p_updated_at : datetime
}.

Record daily_row := DailyRow {
  d_total_orders : Z;
  d_confirmed_orders : Z;
  d_cancelled_orders : Z;
  d_total_revenue : Q;
  d_avg_order_value : Q;
  d_updated_at : datetime
}.

(** Modelled from the spec: the schema of the marketing database is not
    part of the sources; each table is keyed as the ON CONFLICT clauses
    and section 3 of the specification say, and a counter that an INSERT
    does not name starts at 0. *)
Record db := Db {
  marketing_order_snapshot : gmap UUID snapshot_row;
  customer_summary : gmap string customer_row;
  product_popularity : gmap UUID product_row;
  product_customer_map : gset (UUID * string);
  daily_sales_summary : gmap Z daily_row
}.

(** [timestamp.date()], the day number of a UTC time. *)
Definition date (ts : datetime) : Z := ts `div` 86400000000.

Definition average (revenue : Q) (orders : Z) : Q := Qdiv revenue (inject_Z orders).

(** INSERT ... ON CONFLICT (key) DO NOTHING *)
Definition insert_do_nothing `{Countable K} {V} (k : K) (v : V) (m : gmap K V) : gmap K V :=
  match m !! k with
  | Some _ => m
  | None => <[k := v]> m
  end.

(** INSERT ... ON CONFLICT (key) DO UPDATE SET ... *)
Definition upsert `{Countable K} {V} (k : K) (v : V) (f : V -> V) (m : gmap K V) : gmap K V :=
  match m !! k with
  | Some old => <[k := f old]> m
  | None => <[k := v]> m
  end.

Definition count_customers (pid : UUID) (s : gset (UUID * string)) : Z :=
  Z.of_nat (length (filter (fun p => p.1 = pid) (elements s))).

Definition _project_order_created (session : db) (data : payload) : option db :=
  ts ← timestamp data;
  let order_date := date ts in
  oid ← order_id data;
  cn ← customer_name data;
  pid ← product_id data;
  pn ← product_name data;
  qty ← quantity data;
  price ← total_price data;
  (* 1. order snapshot *)
  let snap := insert_do_nothing oid
                (SnapshotRow cn pid pn qty price PENDING order_date ts ts)
                (marketing_order_snapshot session) in
  (* 2. customer summary *)
  let cust := upsert cn (CustomerRow 1 0 0 price price ts ts ts)
                (fun r => CustomerRow (c_total_orders r + 1) (c_confirmed_orders r)
                            (c_cancelled_orders r) (Qplus (c_total_revenue r) price)
                            (average (Qplus (c_total_revenue r) price) (c_total_orders r + 1))
                            (c_first_order_at r) ts ts)
                (customer_summary session) in
  (* 3. product popularity *)
  let prod := upsert pid (ProductRow pn qty 0 1 0 price 0 ts)
                (fun r => ProductRow (p_product_name r) (p_total_units_ordered r + qty)
                            (p_confirmed_units r) (p_total_order_count r + 1)
                            (p_confirmed_order_count r) (Qplus (p_total_revenue r) price)
                            (p_unique_customers r) ts)
                (product_popularity session) in
  (* 4. unique customers per product *)
  let pcm := {[ (pid, cn) ]} ∪ product_customer_map session in
  let prod := alter (fun r => ProductRow (p_product_name r) (p_total_units_ordered r)
                                (p_confirmed_units r) (p_total_order_count r)
                                (p_confirmed_order_count r) (p_total_revenue r)
                                (count_customers pid pcm) (p_updated_at r))
                pid prod in
  (* 5. daily sales summary *)
  let daily := upsert order_date (DailyRow 1 0 0 price price ts)
                 (fun r => DailyRow (d_total_orders r + 1) (d_confirmed_orders r)
                             (d_cancelled_orders r) (Qplus (d_total_revenue r) price)
                             (average (Qplus (d_total_revenue r) price) (d_total_orders r + 1))
                             ts)
                 (daily_sales_summary session) in
  Some (Db snap cust prod pcm daily).

Definition set_snapshot_status (s : order_status) (ts : datetime) (r : snapshot_row)
    : snapshot_row :=
  SnapshotRow (s_customer_name r) (s_product_id r) (s_product_name r) (s_quantity r)
              (s_total_price r) s (s_order_date r) (s_created_at r) ts.

Definition _project_order_confirmed (session : db) (data : payload) : option db :=
  ts ← timestamp data;
  oid ← order_id data;
  match marketing_order_snapshot session !! oid with
  | None => Some session
  | Some order =>
      let snap := alter (set_snapshot_status CONFIRMED ts) oid
                    (marketing_order_snapshot session) in
      let cust := alter (fun r => CustomerRow (c_total_orders r) (c_confirmed_orders r + 1)
                                    (c_cancelled_orders r) (c_total_revenue r)
                                    (c_avg_order_value r) (c_first_order_at r)
                                    (c_last_order_at r) ts)
                    (s_customer_name order) (customer_summary session) in
      let prod := alter (fun r => ProductRow (p_product_name r) (p_total_units_ordered r)
                                    (p_confirmed_units r + s_quantity order)
                                    (p_total_order_count r) (p_confirmed_order_count r + 1)
                                    (p_total_revenue r) (p_unique_customers r) ts)
                    (s_product_id order) (product_popularity session) in
      let daily := alter (fun r => DailyRow (d_total_orders r) (d_confirmed_orders r + 1)
                                     (d_cancelled_orders r) (d_total_revenue r)
                                     (d_avg_order_value r) ts)
                     (s_order_date order) (daily_sales_summary session) in
      Some (Db snap cust prod (product_customer_map session) daily)
  end.

Definition _project_order_cancelled (session : db) (data : payload) : option db :=
  ts ← timestamp data;
  oid ← order_id data;
  match marketing_order_snapshot session !! oid with
  | None => Some session
  | Some order =>
      let snap := alter (set_snapshot_status CANCELLED ts) oid
                    (marketing_order_snapshot session) in
      let cust := alter (fun r => CustomerRow (c_total_orders r) (c_confirmed_orders r)
                                    (c_cancelled_orders r + 1) (c_total_revenue r)
                                    (c_avg_order_value r) (c_first_order_at r)
                                    (c_last_order_at r) ts)
                    (s_customer_name order) (customer_summary session) in
      let daily := alter (fun r => DailyRow (d_total_orders r) (d_confirmed_orders r)
                                     (d_cancelled_orders r + 1) (d_total_revenue r)
                                     (d_avg_order_value r) ts)
                     (s_order_date order) (daily_sales_summary session) in
      Some (Db snap cust (product_popularity session) (product_customer_map session) daily)
  end.

(** [handle_event]: the handler of the event type, then commit; no handler,
    no write. [None]: the handler raised. *)
Definition handle_event (session : db) (event_type : string) (data : payload)
    : option db :=
  if String.eqb event_type "OrderCreated" then _project_order_created session data
  else if String.eqb event_type "OrderConfirmed" then _project_order_confirmed session data
  else if String.eqb event_type "OrderCancelled" then _project_order_cancelled session data
  else Some session.

End Projections.

(** subscriber.py *)
Module Subscriber.

(** The JSON document of a message, [None] when [json.loads] raises. A
    document without a ["data"] key reads as the empty dictionary. *)
Record envelope := Envelope {
  event_type : option string;
  data : Projections.payload
}.

(** One turn of the loop: [get_message] timed out (or returned something
    that is not a message), or returned a message. *)
Inductive polled :=
| NoMessage
| Message (doc : option envelope).

(** The body of the try block. [None]: an exception reached the
    [except Exception] clause; the session is closed uncommitted. An event
    without type finds no handler. *)
Definition process (database : Projections.db) (doc : option envelope)
    : option Projections.db :=
  e ← doc;
  match event_type e with
  | Some ty => Projections.handle_event database ty (data e)
  | None => Some database
  end.

(** [run_subscriber] until the shutdown event is set, along the results of
    the successive [get_message] calls. *)
Fixpoint run_subscriber (database : Projections.db) (polls : list polled)
    : Projections.db :=
  match polls with
  | [] => database
  | NoMessage :: polls' => run_subscriber database polls'
  | Message doc :: polls' =>
      match process database doc with
      | Some database' => run_subscriber database' polls'
      | None => run_subscriber database polls'
      end
  end.

End Subscriber.

(** * Vocabulary of the properties *)

Section Vocabulary.
Import EventStore.

(** The order of ORDER BY version ASC. *)
Definition by_version (a b : row) : Prop := version a <= version b.

(** The state of the order database after a status command. *)
Definition after_status_command (session : OrderCommands.db) (now : datetime)
    (oid : UUID) (e : event) (s : order_status) : OrderCommands.db :=
  OrderCommands.Db
    (Row oid "Order" e
         (last_version (load_events (OrderCommands.event_store session) oid) + 1) now
       :: OrderCommands.event_store session)
    (alter (OrderCommands.update_status s now) oid
           (OrderCommands.orders_read_model session)).

(** A status command on [session] commits: it publishes [e], leaves the
    stream of the order as [events] and returns an aggregate in status [s]. *)
Definition commits_with (r : option (OrderCommands.db * published * OrderAggregate.t))
    (oid : UUID) (e : event) (events : list row) (s : order_status) : Prop :=
  exists session' agg,
    r = Some (session', ("order_events", DomainEvent e), agg)
    /\ load_events (OrderCommands.event_store session') oid = events
    /\ OrderAggregate.status agg = s
    /\ OrderAggregate.version agg = last_version events.

(** What an observer reads of an order and of a product. *)
Definition order_aggregate (w : world) (oid : UUID) : OrderAggregate.t :=
  OrderAggregate.from_events (load_events (OrderCommands.event_store (order_db w)) oid).

Definition read_model_status (w : world) (oid : UUID) : option order_status :=
  OrderCommands.status <$> OrderCommands.orders_read_model (order_db w) !! oid.

Definition reserved_of (w : world) (pid : UUID) : option Z :=
  InventoryCommands.reserved
    <$> InventoryCommands.inventory_read_model (inventory_db w) !! pid.

(** The saga events among the messages published. *)
Definition saga_events (msgs : list published) : list message :=
  omap (fun m => match m.2 with
                 | SagaEvent _ _ _ => Some m.2
                 | DomainEvent _ => None
                 end) msgs.

(** A log entry without its time stamp and error text. *)
Definition shape (log : list SagaStep) : list (Z * string * saga_status) :=
  (fun s => (step s, action s, step_status s)) <$> log.

(** A step is completed when the call returns and, for the two steps that
    check it, the status is 2xx. *)
Definition completed (r : response + string) : bool :=
  match r with
  | inl resp => OrderSagaOrchestrator.is_success resp
  | inr _ => false
  end.

Definition returned (r : response + string) : bool :=
  match r with
  | inl _ => true
  | inr _ => false
  end.

Definition status_of_call (b : bool) : saga_status := if b then COMPLETED else FAILED.

(** The call raises [httpx.HTTPError]: no answer came back. *)
Definition raises (o : OrderSagaOrchestrator.outcome) : bool :=
  match o with
  | OrderSagaOrchestrator.ConnectError | OrderSagaOrchestrator.ReadTimeout => true
  | OrderSagaOrchestrator.Delivered | OrderSagaOrchestrator.InternalServerError => false
  end.

(** The service carried the request out: its handler ran to the end and
    committed, whether or not the answer arrived. *)
Definition carried_out (o : OrderSagaOrchestrator.outcome) : bool :=
  match o with
  | OrderSagaOrchestrator.Delivered | OrderSagaOrchestrator.ReadTimeout => true
  | OrderSagaOrchestrator.ConnectError | OrderSagaOrchestrator.InternalServerError => false
  end.

(** P4 as the specification words it, at one execution. *)
Definition successful_saga_confirms (net : OrderSagaOrchestrator.network) (w : world)
    (oid : UUID) (cn : string) (pid : UUID) (pn : string) (qty : Z) (tp : Q) : Prop :=
  let run := OrderSagaOrchestrator.execute net w oid cn pid pn qty tp in
  OrderSagaOrchestrator.success run.2 = true ->
  OrderAggregate.status (order_aggregate run.1 oid) = CONFIRMED
  /\ exists r, reserved_of w pid = Some r /\ reserved_of run.1 pid = Some (r + qty).

(** The execution took a compensation path: its log records step 2 as
    failed. *)
Definition compensation_path (res : OrderSagaOrchestrator.result) : Prop :=
  (2, "ReserveInventory", FAILED) ∈ shape (OrderSagaOrchestrator.saga_log res).

(** P5 as the specification words it, at one execution. *)
Definition compensated_saga_cancels (net : OrderSagaOrchestrator.network) (w : world)
    (oid : UUID) (cn : string) (pid : UUID) (pn : string) (qty : Z) (tp : Q) : Prop :=
  let run := OrderSagaOrchestrator.execute net w oid cn pid pn qty tp in
  compensation_path run.2 ->
  OrderAggregate.status (order_aggregate run.1 oid) = CANCELLED
  /\ reserved_of run.1 pid = reserved_of w pid.

(** From [w] to [w'] the bus gained [msgs]. *)
Definition published_between (w w' : world) (msgs : list published) : Prop :=
  redis w' = redis w ++ msgs.

(** The reason the compensation gives for the cancel: the first except
    clause of step 2 caught an error status, the second a transport
    error. *)
Definition cancel_reason (r : response + string) : string :=
  match r with
  | inl _ => "Inventory reservation failed"
  | inr msg => "Inventory service error: " +:+ msg
  end.

(** How an execution that began in [w] ends: after its last call left the
    world [w_calls] it publishes one saga event of type [ty], the only saga
    event published since [w], which carries the log returned; it returns
    [ok] and a log that has the [steps]. *)
Definition ends_with (run : world * OrderSagaOrchestrator.result) (w w_calls : world)
    (ty : string) (oid : UUID) (ok : bool) (steps : list (Z * string * saga_status))
    : Prop :=
  let log := OrderSagaOrchestrator.saga_log run.2 in
  run.1 = OrderSagaOrchestrator._publish_saga_event w_calls ty oid log
  /\ (exists msgs,
        published_between w run.1 msgs /\ saga_events msgs = [SagaEvent ty oid log])
  /\ OrderSagaOrchestrator.success run.2 = ok
  /\ shape log = steps.

(** From [w] to [w'] nothing was published on the saga channel. *)
Definition no_saga_event_between (w w' : world) : Prop :=
  exists msgs, published_between w w' msgs /\ saga_events msgs = [].

(** The execution attempted step 3 of the forward path. *)
Definition confirm_attempted (res : OrderSagaOrchestrator.result) : Prop :=
  exists s, (3, "ConfirmOrder", s) ∈ shape (OrderSagaOrchestrator.saga_log res).

(** The open question on step 3 as the specification words it, at one
    execution whose ConfirmOrder did not go through. *)
Definition failed_confirm_leaves_pending (net : OrderSagaOrchestrator.network) (w : world)
    (oid : UUID) (cn : string) (pid : UUID) (pn : string) (qty : Z) (tp : Q) : Prop :=
  let run := OrderSagaOrchestrator.execute net w oid cn pid pn qty tp in
  confirm_attempted run.2 ->
  OrderSagaOrchestrator.step3 net <> OrderSagaOrchestrator.Delivered ->
  (3, "ConfirmOrder", FAILED) ∈ shape (OrderSagaOrchestrator.saga_log run.2)
  /\ (exists msgs,
        published_between w run.1 msgs
        /\ saga_events msgs
           = [SagaEvent "SagaCompleted" oid (OrderSagaOrchestrator.saga_log run.2)])
  /\ OrderSagaOrchestrator.success run.2 = true
  /\ read_model_status run.1 oid = Some PENDING
  /\ exists r, reserved_of w pid = Some r /\ reserved_of run.1 pid = Some (r + qty).

(** The commands a client can send to the two services, and a history of
    them, each at its time on the clock. A history serves its commands one
    after the other; [InventoryRequests] has the requests of the inventory
    service overlap. *)
Inductive command :=
| CreateOrder (order_id : UUID) (customer_name : string) (product_id : UUID)
    (product_name : string) (quantity : Z) (total_price : Q)
| ConfirmOrder (order_id : UUID)
| CancelOrder (order_id : UUID) (reason : string)
| ReserveInventory (product_id order_id : UUID) (quantity : Z)
| ReleaseInventory (product_id order_id : UUID) (quantity : Z).

Definition endpoint_of (c : command) : endpoint :=
  match c with
  | CreateOrder oid cn pid pn q tp => OrderService.cmd_create_order oid cn pid pn q tp
  | ConfirmOrder oid => OrderService.cmd_confirm_order oid
  | CancelOrder oid reason => OrderService.cmd_cancel_order oid reason
  | ReserveInventory pid oid q => InventoryService.cmd_reserve pid oid q
  | ReleaseInventory pid oid q => InventoryService.cmd_release pid oid q
  end.

Definition at_time (now : datetime) (w : world) : world :=
  World (order_db w) (inventory_db w) (redis w) now.

Definition run_command (w : world) (c : datetime * command) : world :=
  (endpoint_of c.2 (at_time c.1 w)).1.

Definition run_commands (w : world) (cs : list (datetime * command)) : world :=
  fold_left run_command cs w.

(** Invariant I3 on the inventory read model. *)
Definition within_stock (row : InventoryCommands.inventory_row) : Prop :=
  0 <= InventoryCommands.reserved row <= InventoryCommands.quantity row.

Definition I3 (w : world) : Prop :=
  map_Forall (fun _ row => within_stock row)
    (InventoryCommands.inventory_read_model (inventory_db w)).

(** I3 as the specification words it, along one history. *)
Definition I3_at_all_times (w : world) (cs : list (datetime * command)) : Prop :=
  I3 w -> I3 (run_commands w cs).

(** I3 on the inventory database: [I3 w] is [stock_within (inventory_db w)]. *)
Definition stock_within (session : InventoryCommands.db) : Prop :=
  map_Forall (fun _ row => within_stock row)
    (InventoryCommands.inventory_read_model session).

(** A condition on every request of a schedule, at the state of the service
    in which the request arrives. *)
Fixpoint on_arrival (ok : InventoryRequests.state -> InventoryRequests.request -> Prop)
    (st : InventoryRequests.state) (schedule : list InventoryRequests.action) : Prop :=
  match schedule with
  | [] => True
  | a :: schedule' =>
      match a with
      | InventoryRequests.Arrive _ r => ok st r
      | InventoryRequests.Resume _ _ => True
      end
      /\ on_arrival ok (InventoryRequests.step st a) schedule'
  end.

(** The requests do not overlap: each arrives when every request before it
    has been answered. *)
Definition one_at_a_time (st : InventoryRequests.state)
    (schedule : list InventoryRequests.action) : Prop :=
  on_arrival (fun st _ => InventoryRequests.idle st = true) st schedule.

(** The callers the specification calls honest: a reservation asks for a
    quantity that is not negative, a release gives back a quantity that is
    not negative and not more than what the product has reserved when the
    request arrives. *)
Definition honest_request (session : InventoryCommands.db)
    (r : InventoryRequests.request) : Prop :=
  match r with
  | InventoryRequests.Reserve _ _ q => 0 <= q
  | InventoryRequests.Release pid _ q =>
      0 <= q
      /\ forall row,
           InventoryCommands.inventory_read_model session !! pid = Some row ->
           q <= InventoryCommands.reserved row
  end.

Definition honest_arrivals (st : InventoryRequests.state)
    (schedule : list InventoryRequests.action) : Prop :=
  on_arrival (fun st r => honest_request (InventoryRequests.database st) r) st schedule.

(** Invariant I2: the versions loaded for an aggregate are 1, 2, ..., N. *)
Definition contiguous (t : table) : Prop :=
  forall agg_id,
    version <$> load_events t agg_id
    = seqZ 1 (Z.of_nat (length (load_events t agg_id))).

Definition I2 (w : world) : Prop :=
  contiguous (OrderCommands.event_store (order_db w))
  /\ contiguous (InventoryCommands.event_store (inventory_db w)).

(** The optimistic protocol under interleaving: a writer loads the version
    of an aggregate (or, as CreateOrder does, takes 0 without loading), other
    writers run, and later it appends at the version it holds; a duplicate
    fails and the writer gives up. *)
Record writer := Writer {
  writer_aggregate : UUID;
  writer_loaded : Z
}.

Inductive writers_step : table * list writer -> table * list writer -> Prop :=
| writer_loads t ws a :
    writers_step (t, ws) (t, Writer a (last_version (load_events t a)) :: ws)
| writer_creates t ws a :
    writers_step (t, ws) (t, Writer a 0 :: ws)
| writer_appends t ws1 ws2 a v ty e now :
    writers_step (t, ws1 ++ Writer a v :: ws2)
      (from_option fst t (append_event t a ty e v now), ws1 ++ ws2).

End Vocabulary.

(** The scenarios of section 8: product 7 with 10 units on hand and none
    reserved, no order yet; order 1 of customer alice. *)
Definition stock_10 : world :=
  World (OrderCommands.Db [] ∅)
        (InventoryCommands.Db []
           {[ 7%N := InventoryCommands.InventoryRow "widget" 10 0 (5 # 1) 0 ]})
        [] 1000.

Definition all_delivered : OrderSagaOrchestrator.network :=
  OrderSagaOrchestrator.Network OrderSagaOrchestrator.Delivered
    OrderSagaOrchestrator.Delivered OrderSagaOrchestrator.Delivered.

Definition third_call_refused : OrderSagaOrchestrator.network :=
  OrderSagaOrchestrator.Network OrderSagaOrchestrator.Delivered
    OrderSagaOrchestrator.Delivered OrderSagaOrchestrator.ConnectError.

Definition third_call_late : OrderSagaOrchestrator.network :=
  OrderSagaOrchestrator.Network OrderSagaOrchestrator.Delivered
    OrderSagaOrchestrator.Delivered OrderSagaOrchestrator.ReadTimeout.

Definition reserve_late : OrderSagaOrchestrator.network :=
  OrderSagaOrchestrator.Network OrderSagaOrchestrator.Delivered
    OrderSagaOrchestrator.ReadTimeout OrderSagaOrchestrator.Delivered.

Definition third_call_raises_in_service : OrderSagaOrchestrator.network :=
  OrderSagaOrchestrator.Network OrderSagaOrchestrator.Delivered
    OrderSagaOrchestrator.Delivered OrderSagaOrchestrator.InternalServerError.

(** An order database without order 1, one where order 1 was cancelled and
    one where it was confirmed. *)
Definition order_db_absent : OrderCommands.db := OrderCommands.Db [] ∅.

Definition order_db_cancelled : OrderCommands.db :=
  OrderCommands.Db
    [EventStore.Row 1 "Order" (OrderCancelled 1 "Inventory reservation failed" 20) 2 20;
     EventStore.Row 1 "Order" (OrderCreated 1 "alice" 7 "widget" 3 (15 # 1) 10) 1 10]
    {[ 1%N := OrderCommands.OrderRow "alice" 7 "widget" 3 (15 # 1) CANCELLED 10 20 ]}.

Definition order_db_confirmed : OrderCommands.db :=
  OrderCommands.Db
    [EventStore.Row 1 "Order" (OrderConfirmed 1 20) 2 20;
     EventStore.Row 1 "Order" (OrderCreated 1 "alice" 7 "widget" 3 (15 # 1) 10) 1 10]
    {[ 1%N := OrderCommands.OrderRow "alice" 7 "widget" 3 (15 # 1) CONFIRMED 10 20 ]}.

(** Two requests served one after the other: a reservation of the whole
    stock of product 7, then a release of 4 units. *)
Definition reserve_then_release : list InventoryRequests.action :=
  [InventoryRequests.Arrive 2000 (InventoryRequests.Reserve 7 1 10);
   InventoryRequests.Resume 2000 0; InventoryRequests.Resume 2000 0;
   InventoryRequests.Resume 2000 0;
   InventoryRequests.Arrive 3000 (InventoryRequests.Release 7 1 4);
   InventoryRequests.Resume 3000 1; InventoryRequests.Resume 3000 1].

(** A history with a duplicate CreateOrder and a rejected reservation. *)
Definition busy_day : list (datetime * command) :=
  [(2000, CreateOrder 1 "alice" 7 "widget" 3 (15 # 1));
   (2100, ReserveInventory 7 1 3);
   (2200, ConfirmOrder 1);
   (2300, CreateOrder 1 "alice" 7 "widget" 3 (15 # 1));
   (2400, ReserveInventory 7 2 30);
   (2500, CancelOrder 1 "changed my mind");
   (2600, ReleaseInventory 7 1 3)].

(** The marketing database before any event, the events of order 1 and the
    database after the first projection of its OrderCreated. *)
Definition empty_marketing : Projections.db := Projections.Db ∅ ∅ ∅ ∅ ∅.

Definition order_1_created : Projections.payload :=
  Projections.Payload (Some 1%N) (Some "alice") (Some 7%N) (Some "widget") (Some 3)
    (Some (15 # 1)) (Some 1000).

Definition order_1_confirmed : Projections.payload :=
  Projections.Payload (Some 1%N) None None None None None (Some 2000).

Definition projected_once : Projections.db :=
  default empty_marketing
    (Projections.handle_event empty_marketing "OrderCreated" order_1_created).

(** * The read side and the remaining vocabulary *)

(** ORDER BY as an insertion sort: [before y x] says that a row [y] already
    placed stays in front of the row [x] being placed. *)
Section OrderBy.
Context {A : Type} (before : A -> A -> bool).

Fixpoint insert_ordered (x : A) (l : list A) : list A :=
  match l with
  | [] => [x]
  | y :: l' => if before y x then y :: insert_ordered x l' else x :: y :: l'
  end.

Fixpoint order_by (l : list A) : list A :=
  match l with
  | [] => []
  | x :: l' => insert_ordered x (order_by l')
  end.

End OrderBy.

(** [load_all_events] of event_store.py: every row, ORDER BY created_at ASC,
    version ASC. *)
Definition earlier_event (y x : EventStore.row) : bool :=
  (EventStore.created_at y <? EventStore.created_at x)
  || ((EventStore.created_at y =? EventStore.created_at x)
      && (EventStore.version y <=? EventStore.version x)).

Definition load_all_events (t : EventStore.table) : list EventStore.row :=
  order_by earlier_event t.

(** queries.py of the order service *)
Module OrderQueries.

(** The dictionary a query returns for one row. *)
Record order_view := OrderView {
  id : UUID;
  customer_name : string;
  product_id : UUID;
  product_name : string;
  quantity : Z;
  total_price : Q;
  status : order_status;
  created_at : datetime;
  updated_at : datetime
}.

Definition view (oid : UUID) (r : OrderCommands.order_row) : order_view :=
  OrderView oid (OrderCommands.customer_name r) (OrderCommands.product_id r)
    (OrderCommands.product_name r) (OrderCommands.quantity r)
    (OrderCommands.total_price r) (OrderCommands.status r)
    (OrderCommands.created_at r) (OrderCommands.updated_at r).

Definition get_order (session : OrderCommands.db) (order_id : UUID) : option order_view :=
  view order_id <$> OrderCommands.orders_read_model session !! order_id.

(** ORDER BY created_at DESC *)
Definition newer_order (y x : order_view) : bool := created_at x <=? created_at y.

Definition list_orders (session : OrderCommands.db) : list order_view :=
  order_by newer_order
    ((fun kv => view kv.1 kv.2) <$> map_to_list (OrderCommands.orders_read_model session)).

(** GET /queries/orders/{order_id} of main.py: the status code and the body. *)
Definition query_get_order (w : world) (order_id : UUID) : Z * option order_view :=
  match get_order (order_db w) order_id with
  | Some order => (200, Some order)
  | None => (404, None)
  end.

End OrderQueries.

(** queries.py of the marketing service *)
Module MarketingQueries.

Record daily_view := DailyView {
  sale_date : Z;
  total_orders : Z;
  confirmed_orders : Z;
  cancelled_orders : Z;
  total_revenue : Q;
  avg_order_value : Q
}.

Definition view (day : Z) (r : Projections.daily_row) : daily_view :=
  DailyView day (Projections.d_total_orders r) (Projections.d_confirmed_orders r)
    (Projections.d_cancelled_orders r) (Projections.d_total_revenue r)
    (Projections.d_avg_order_value r).

(** ORDER BY sale_date DESC *)
Definition later_day (y x : daily_view) : bool := sale_date x <=? sale_date y.

(** [list_daily_sales]: ORDER BY sale_date DESC LIMIT 30. *)
Definition list_daily_sales (session : Projections.db) : list daily_view :=
  take 30 (order_by later_day
             ((fun kv => view kv.1 kv.2)
                <$> map_to_list (Projections.daily_sales_summary session))).

End MarketingQueries.

(** ORDER BY created_at ASC, version ASC as a relation. *)
Definition by_time_then_version (a b : EventStore.row) : Prop :=
  EventStore.created_at a < EventStore.created_at b
  \/ (EventStore.created_at a = EventStore.created_at b
      /\ EventStore.version a <= EventStore.version b).

(** The read-model row of an order shows what replaying its events gives. *)
Definition row_matches (oid : UUID) (row : OrderCommands.order_row)
    (agg : OrderAggregate.t) : Prop :=
  OrderAggregate.id agg = Some oid
  /\ OrderAggregate.customer_name agg = OrderCommands.customer_name row
  /\ OrderAggregate.product_id agg = Some (OrderCommands.product_id row)
  /\ OrderAggregate.product_name agg = OrderCommands.product_name row
  /\ OrderAggregate.quantity agg = OrderCommands.quantity row
  /\ OrderAggregate.total_price agg = OrderCommands.total_price row
  /\ OrderAggregate.status agg = OrderCommands.status row.

Definition read_model_in_sync (w : world) : Prop :=
  forall oid row,
    OrderCommands.orders_read_model (order_db w) !! oid = Some row ->
    row_matches oid row (order_aggregate w oid).

(** The reserved amount that replaying the events of a product gives. *)
Definition replayed_reserved (w : world) (pid : UUID) : Z :=
  InventoryAggregate.reserved
    (InventoryAggregate.from_events
       (EventStore.load_events (InventoryCommands.event_store (inventory_db w)) pid)).

(** No product has more reserved than it has on hand. *)
Definition not_oversold (session : InventoryCommands.db) : Prop :=
  map_Forall (fun _ row => InventoryCommands.reserved row <= InventoryCommands.quantity row)
    (InventoryCommands.inventory_read_model session).

(** Every release of a schedule gives back a quantity that is not
    negative. *)
Definition releases_not_negative (st : InventoryRequests.state)
    (schedule : list InventoryRequests.action) : Prop :=
  on_arrival (fun _ r => match r with
                         | InventoryRequests.Release _ _ q => 0 <= q
                         | InventoryRequests.Reserve _ _ _ => True
                         end) st schedule.


(** The same two reservations when both have loaded their version before
    either appends. *)
Definition second_loads_early (t1 t2 : datetime) (pid oid1 oid2 : UUID) (q1 q2 : Z)
    : list InventoryRequests.action :=
  [InventoryRequests.Arrive t1 (InventoryRequests.Reserve pid oid1 q1);
   InventoryRequests.Arrive t2 (InventoryRequests.Reserve pid oid2 q2);
   InventoryRequests.Resume t1 0; InventoryRequests.Resume t2 1;
   InventoryRequests.Resume t1 0; InventoryRequests.Resume t2 1;
   InventoryRequests.Resume t1 0; InventoryRequests.Resume t2 1].

(** Product 7 with 5 units on hand and none reserved. *)
Definition stock_5 : InventoryCommands.db :=
  InventoryCommands.Db [] {[ 7%N := InventoryCommands.InventoryRow "widget" 5 0 (5 # 1) 0 ]}.

(** Reservations and releases served one after the other, one reservation
    above the stock, one release that no reservation matches and one
    reservation of a negative quantity. *)
Definition careless_callers : list InventoryRequests.action :=
  [InventoryRequests.Arrive 2000 (InventoryRequests.Reserve 7 1 8);
   InventoryRequests.Resume 2000 0; InventoryRequests.Resume 2000 0;
   InventoryRequests.Resume 2000 0;
   InventoryRequests.Arrive 2100 (InventoryRequests.Reserve 7 2 8);
   InventoryRequests.Resume 2100 1; InventoryRequests.Resume 2100 1;
   InventoryRequests.Resume 2100 1;
   InventoryRequests.Arrive 2200 (InventoryRequests.Release 7 3 20);
   InventoryRequests.Resume 2200 2; InventoryRequests.Resume 2200 2;
   InventoryRequests.Arrive 2300 (InventoryRequests.Reserve 7 4 (-5));
   InventoryRequests.Resume 2300 3; InventoryRequests.Resume 2300 3;
   InventoryRequests.Resume 2300 3].

(** From [w] to [w'] the row of a product changed in its reserved amount
    only, and by as much as the replay of its events changed; a product
    without row stayed without. *)
Definition reserved_tracks_events (w w' : world) (pid : UUID) : Prop :=
  match InventoryCommands.inventory_read_model (inventory_db w) !! pid,
        InventoryCommands.inventory_read_model (inventory_db w') !! pid with
  | Some row, Some row' =>
      InventoryCommands.product_name row' = InventoryCommands.product_name row
      /\ InventoryCommands.quantity row' = InventoryCommands.quantity row
      /\ InventoryCommands.price row' = InventoryCommands.price row
      /\ InventoryCommands.reserved row' - InventoryCommands.reserved row
         = replayed_reserved w' pid - replayed_reserved w pid
  | None, None => True
  | _, _ => False
  end.

(** The order id is unused: no read-model row and no first event. *)
Definition new_order (w : world) (oid : UUID) : Prop :=
  OrderCommands.orders_read_model (order_db w) !! oid = None
  /\ EventStore.violates_unique (OrderCommands.event_store (order_db w)) oid 1 = false.

(** The error text recorded in the log entry of a step. *)
Definition error_of_step (n : nat) (log : list SagaStep) : option string :=
  log !! n ≫= error.

(** What one saga for [qty] units of [pid] may have done to the inventory
    database between [db] and [db']: nothing, or one record of a reservation
    made or refused, with the reserved amount of that product raised by the
    quantity in the first case. *)
Definition at_most_one_reservation (db db' : InventoryCommands.db) (now : datetime)
    (pid oid : UUID) (qty : Z) : Prop :=
  db' = db
  \/ exists row record,
       InventoryCommands.inventory_read_model db !! pid = Some row
       /\ InventoryCommands.event_store db'
          = EventStore.Row pid "Inventory" record
              (EventStore.last_version
                 (EventStore.load_events (InventoryCommands.event_store db) pid) + 1)
              now
            :: InventoryCommands.event_store db
       /\ ((record = InventoryReserved pid oid qty now
            /\ qty <= InventoryCommands.available row
            /\ InventoryCommands.inventory_read_model db'
               = <[pid := InventoryCommands.InventoryRow
                            (InventoryCommands.product_name row)
                            (InventoryCommands.quantity row)
                            (InventoryCommands.reserved row + qty)
                            (InventoryCommands.price row) now]>
                   (InventoryCommands.inventory_read_model db))
           \/ (record = InventoryReservationFailed pid oid qty
                          (InventoryCommands.available row) now
               /\ InventoryCommands.available row < qty
               /\ InventoryCommands.inventory_read_model db'
                  = InventoryCommands.inventory_read_model db)).

(** Every product row counts the customers that the customer map holds
    for the product. *)
Definition unique_customers_counted (db : Projections.db) : Prop :=
  forall pid row,
    Projections.product_popularity db !! pid = Some row ->
    Projections.p_unique_customers row
    = Projections.count_customers pid (Projections.product_customer_map db).

(** The fields of a snapshot row that the projection of OrderCreated
    writes and no later event may change. *)
Definition same_order (a b : Projections.snapshot_row) : Prop :=
  Projections.s_customer_name a = Projections.s_customer_name b
  /\ Projections.s_product_id a = Projections.s_product_id b
  /\ Projections.s_product_name a = Projections.s_product_name b
  /\ Projections.s_quantity a = Projections.s_quantity b
  /\ Projections.s_total_price a = Projections.s_total_price b
  /\ Projections.s_order_date a = Projections.s_order_date b
  /\ Projections.s_created_at a = Projections.s_created_at b.

(** The polls the subscriber passes over: a timeout, a message that is not
    JSON, a document without event type or with a type that has no handler,
    and an event without a readable time stamp, on which every handler
    raises at its first statement. *)
Definition passed_over (p : Subscriber.polled) : Prop :=
  match p with
  | Subscriber.NoMessage => True
  | Subscriber.Message None => True
  | Subscriber.Message (Some e) =>
      match Subscriber.event_type e with
      | None => True
      | Some ty =>
          (ty <> "OrderCreated" /\ ty <> "OrderConfirmed" /\ ty <> "OrderCancelled")
          \/ Projections.timestamp (Subscriber.data e) = None
      end
  end.

(** The sum of a counter over the rows of a table. *)
Definition total `{Countable K} {V} (f : V -> Z) (m : gmap K V) : Z :=
  map_fold (fun _ v acc => f v + acc) 0 m.

(** The three summaries have counted the same number of orders. *)
Definition orders_counted_alike (db : Projections.db) : Prop :=
  total Projections.c_total_orders (Projections.customer_summary db)
  = total Projections.d_total_orders (Projections.daily_sales_summary db)
  /\ total Projections.c_total_orders (Projections.customer_summary db)
     = total Projections.p_total_order_count (Projections.product_popularity db).

(** The OrderCreated events that the subscriber projects along [polls]:
    the messages of that type whose handler committed. *)
Fixpoint orders_projected (database : Projections.db) (polls : list Subscriber.polled)
    : Z :=
  match polls with
  | [] => 0
  | Subscriber.NoMessage :: polls' => orders_projected database polls'
  | Subscriber.Message doc :: polls' =>
      match Subscriber.process database doc with
      | Some database' =>
          (match doc ≫= Subscriber.event_type with
           | Some ty => if String.eqb ty "OrderCreated" then 1 else 0
           | None => 0
           end)
          + orders_projected database' polls'
      | None => orders_projected database polls'
      end
  end.

(** * Properties *)

Section EventStoreFacts.
Import EventStore.

Lemma elem_of_insert_by_version x y l :
  y ∈ insert_by_version x l <-> y = x \/ y ∈ l.
Proof.
  induction l as [|z l IH]; simpl.
  - rewrite list_elem_of_singleton, elem_of_nil. tauto.

  - destruct (version z <=? version x); rewrite !elem_of_cons; [rewrite IH|]; tauto.
Qed.

Lemma insert_by_version_sorted x l :
  StronglySorted by_version l -> StronglySorted by_version (insert_by_version x l).
Proof.
  induction 1 as [|z l Hs IH Hz]; simpl.
  - repeat constructor.
  - destruct (Z.leb_spec (version z) (version x)).
    + constructor; [exact IH|].
      apply Forall_forall. intros y Hy.
      apply elem_of_insert_by_version in Hy as [->|Hy]; [exact H|].
      rewrite Forall_forall in Hz. by apply Hz.
    + constructor; [by constructor|].
      constructor; [unfold by_version; lia|].
      eapply Forall_impl; [exact Hz|]. unfold by_version. intros; simpl in *; lia.
Qed.

Lemma order_by_version_sorted l : StronglySorted by_version (order_by_version l).
Proof.
  induction l; simpl; [constructor|by apply insert_by_version_sorted].
Qed.

Lemma elem_of_order_by_version y l : y ∈ order_by_version l <-> y ∈ l.
Proof.
  induction l as [|x l IH]; simpl; [done|].
  rewrite elem_of_insert_by_version, elem_of_cons, IH. tauto.
Qed.

Lemma elem_of_where_aggregate r a t :
  r ∈ where_aggregate a t <-> r ∈ t /\ aggregate_id r = a.
Proof.
  induction t as [|x t IH]; simpl.
  - split; [by intros ?%elem_of_nil|by intros [?%elem_of_nil _]].
  - destruct (N.eqb_spec (aggregate_id x) a); rewrite ?elem_of_cons, IH;
      intuition congruence.
Qed.

Lemma elem_of_load_events r t a :
  r ∈ load_events t a <-> r ∈ t /\ aggregate_id r = a.
Proof.
  unfold load_events. by rewrite elem_of_order_by_version, elem_of_where_aggregate.
Qed.

Lemma last_version_snoc l r : last_version (l ++ [r]) = version r.
Proof. unfold last_version. by rewrite last_snoc. Qed.

(** The last row of an ascending list carries the greatest version. *)
Lemma sorted_le_last l :
  StronglySorted by_version l -> Forall (fun y => version y <= last_version l) l.
Proof.
  induction 1 as [|z l Hs IH Hz]; [constructor|].
  destruct l as [|z' l'].
  - repeat constructor. unfold last_version; simpl. lia.
  - assert (last_version (z :: z' :: l') = last_version (z' :: l')) as -> by done.
    constructor; [|exact IH].
    inversion IH; subst. inversion Hz; subst. unfold by_version in *. lia.
Qed.

Lemma load_events_le_last t a r :
  r ∈ t -> aggregate_id r = a -> version r <= last_version (load_events t a).
Proof.
  intros Hr Ha.
  pose proof (sorted_le_last _ (order_by_version_sorted (where_aggregate a t))) as H.
  rewrite Forall_forall in H. apply H. by apply elem_of_load_events.
Qed.

Lemma violates_unique_false t a v :
  (forall r, r ∈ t -> aggregate_id r = a -> version r <> v) ->
  violates_unique t a v = false.
Proof.
  intros H. unfold violates_unique.
  apply not_true_is_false. intros Hex.
  apply existsb_exists in Hex as (r & Hin & Hr).
  apply andb_true_iff in Hr as [Ha Hv].
  apply N.eqb_eq in Ha. apply Z.eqb_eq in Hv.
  apply (H r); [by apply list_elem_of_In|done..].
Qed.

Lemma violates_unique_true t a v r :
  r ∈ t -> aggregate_id r = a -> version r = v -> violates_unique t a v = true.
Proof.
  intros Hin Ha Hv. unfold violates_unique. apply existsb_exists.
  exists r. split; [by apply list_elem_of_In|].
  apply andb_true_iff. split; [by apply N.eqb_eq|by apply Z.eqb_eq].
Qed.

(** A writer that appends at the version it has just loaded never hits the
    UNIQUE constraint. *)
Lemma append_event_at_last t a ty e now :
  append_event t a ty e (last_version (load_events t a)) now
  = Some (Row a ty e (last_version (load_events t a) + 1) now :: t,
          last_version (load_events t a) + 1).
Proof.
  unfold append_event. rewrite violates_unique_false; [done|].
  intros r Hr Ha Hv. pose proof (load_events_le_last t a r Hr Ha). lia.
Qed.

Lemma insert_by_version_max x l :
  Forall (fun y => version y <= version x) l -> insert_by_version x l = l ++ [x].
Proof.
  induction 1 as [|y l Hy Hl IH]; simpl; [done|].
  destruct (Z.leb_spec (version y) (version x)); [by rewrite IH|lia].
Qed.

Lemma load_events_cons_same t a ty e v now :
  last_version (load_events t a) <= v ->
  load_events (Row a ty e v now :: t) a = load_events t a ++ [Row a ty e v now].
Proof.
  intros Hv. unfold load_events at 1. simpl. rewrite N.eqb_refl. simpl.
  apply insert_by_version_max.
  pose proof (sorted_le_last _ (order_by_version_sorted (where_aggregate a t))) as H.
  eapply Forall_impl; [exact H|]. simpl. unfold load_events in Hv. intros; lia.
Qed.

Lemma load_events_cons_other t a b ty e v now :
  a <> b -> load_events (Row a ty e v now :: t) b = load_events t b.
Proof.
  intros Hne. unfold load_events. simpl.
  destruct (N.eqb_spec a b); [done|done].
Qed.

End EventStoreFacts.

(** ** The order commands on the event stream *)

Section OrderFacts.
Import EventStore.

Lemma replay_snoc a l r :
  OrderAggregate.replay a (l ++ [r])
  = OrderAggregate.set_version (version r)
      (OrderAggregate.apply_event (OrderAggregate.replay a l) (event_data r)).
Proof. unfold OrderAggregate.replay. by rewrite fold_left_app. Qed.

Lemma from_events_snoc l r :
  OrderAggregate.from_events (l ++ [r])
  = OrderAggregate.set_version (version r)
      (OrderAggregate.apply_event (OrderAggregate.from_events l) (event_data r)).
Proof. apply replay_snoc. Qed.

(** [from_events] leaves the aggregate at the version of the last event. *)
Lemma from_events_version l :
  OrderAggregate.version (OrderAggregate.from_events l) = last_version l.
Proof.
  destruct l as [|x l] using rev_ind; [done|].
  by rewrite from_events_snoc, last_version_snoc.
Qed.

Lemma confirm_order_eq session now oid :
  OrderCommands.confirm_order session now oid
  = Some (after_status_command session now oid (OrderConfirmed oid now) CONFIRMED,
          ("order_events", DomainEvent (OrderConfirmed oid now)),
          OrderAggregate.set_version
            (last_version (load_events (OrderCommands.event_store session) oid) + 1)
            (OrderAggregate.apply_order_confirmed
               (OrderAggregate.from_events
                  (load_events (OrderCommands.event_store session) oid)))).
Proof.
  unfold OrderCommands.confirm_order.
  rewrite from_events_version, append_event_at_last. done.
Qed.

Lemma cancel_order_eq session now oid reason :
  OrderCommands.cancel_order session now oid reason
  = Some (after_status_command session now oid (OrderCancelled oid reason now) CANCELLED,
          ("order_events", DomainEvent (OrderCancelled oid reason now)),
          OrderAggregate.set_version
            (last_version (load_events (OrderCommands.event_store session) oid) + 1)
            (OrderAggregate.apply_order_cancelled
               (OrderAggregate.from_events
                  (load_events (OrderCommands.event_store session) oid)))).
Proof.
  unfold OrderCommands.cancel_order.
  rewrite from_events_version, append_event_at_last. done.
Qed.

Lemma after_status_command_events session now oid e s :
  load_events (OrderCommands.event_store (after_status_command session now oid e s)) oid
  = load_events (OrderCommands.event_store session) oid
      ++ [Row oid "Order" e
            (last_version (load_events (OrderCommands.event_store session) oid) + 1) now].
Proof. unfold after_status_command. simpl. apply load_events_cons_same. lia. Qed.

End OrderFacts.

Section StatusCommands.
Import EventStore.

Lemma confirm_order_commits session now oid :
  commits_with (OrderCommands.confirm_order session now oid) oid (OrderConfirmed oid now)
    (load_events (OrderCommands.event_store session) oid
       ++ [Row oid "Order" (OrderConfirmed oid now)
             (last_version (load_events (OrderCommands.event_store session) oid) + 1) now])
    CONFIRMED.
Proof.
  eexists _, _. split; [apply confirm_order_eq|].
  split; [apply after_status_command_events|].
  split; [done|]. by rewrite last_version_snoc.
Qed.

Lemma cancel_order_commits session now oid reason :
  commits_with (OrderCommands.cancel_order session now oid reason) oid
    (OrderCancelled oid reason now)
    (load_events (OrderCommands.event_store session) oid
       ++ [Row oid "Order" (OrderCancelled oid reason now)
             (last_version (load_events (OrderCommands.event_store session) oid) + 1) now])
    CANCELLED.
Proof.
  eexists _, _. split; [apply cancel_order_eq|].
  split; [apply after_status_command_events|].
  split; [done|]. by rewrite last_version_snoc.
Qed.

End StatusCommands.

(** C10. ConfirmOrder checks neither that the order exists nor its status.
    On an order without events it appends OrderConfirmed at version 1 and
    returns status CONFIRMED; on an order in status CANCELLED it appends
    OrderConfirmed after the events already there and returns status
    CONFIRMED. CancelOrder does the same with OrderCancelled: at version 1 on
    an order without events, and after the confirmation of an order in status
    CONFIRMED. *)
Theorem status_commands_check_no_precondition
    (absent cancelled confirmed : OrderCommands.db) (now : datetime) (oid : UUID)
    (reason : string) :
  let stream session := EventStore.load_events (OrderCommands.event_store session) oid in
  let next session := EventStore.last_version (stream session) + 1 in
  stream absent = [] ->
  OrderAggregate.status (OrderAggregate.from_events (stream cancelled)) = CANCELLED ->
  OrderAggregate.status (OrderAggregate.from_events (stream confirmed)) = CONFIRMED ->
  commits_with (OrderCommands.confirm_order absent now oid) oid (OrderConfirmed oid now)
    [EventStore.Row oid "Order" (OrderConfirmed oid now) 1 now] CONFIRMED
  /\ commits_with (OrderCommands.confirm_order cancelled now oid) oid (OrderConfirmed oid now)
       (stream cancelled
          ++ [EventStore.Row oid "Order" (OrderConfirmed oid now) (next cancelled) now])
       CONFIRMED
  /\ commits_with (OrderCommands.cancel_order absent now oid reason) oid
       (OrderCancelled oid reason now)
       [EventStore.Row oid "Order" (OrderCancelled oid reason now) 1 now] CANCELLED
  /\ commits_with (OrderCommands.cancel_order confirmed now oid reason) oid
       (OrderCancelled oid reason now)
       (stream confirmed
          ++ [EventStore.Row oid "Order" (OrderCancelled oid reason now) (next confirmed) now])
       CANCELLED.
Proof.
  intros stream next Habsent _ _.
  pose proof (confirm_order_commits absent now oid) as H1.
  pose proof (cancel_order_commits absent now oid reason) as H3.
  fold (stream absent) in H1, H3. rewrite Habsent in H1, H3.
  repeat split; [exact H1| |exact H3|].
  - apply confirm_order_commits.
  - apply cancel_order_commits.
Qed.

Lemma status_commands_check_no_precondition_witness :
  commits_with (OrderCommands.confirm_order order_db_absent 30 1) 1 (OrderConfirmed 1 30)
    [EventStore.Row 1 "Order" (OrderConfirmed 1 30) 1 30] CONFIRMED
  /\ commits_with (OrderCommands.confirm_order order_db_cancelled 30 1) 1 (OrderConfirmed 1 30)
       [EventStore.Row 1 "Order" (OrderCreated 1 "alice" 7 "widget" 3 (15 # 1) 10) 1 10;
        EventStore.Row 1 "Order" (OrderCancelled 1 "Inventory reservation failed" 20) 2 20;
        EventStore.Row 1 "Order" (OrderConfirmed 1 30) 3 30]
       CONFIRMED.
Proof.
  destruct (status_commands_check_no_precondition
              order_db_absent order_db_cancelled order_db_confirmed 30 1 "late")
    as (H1 & H2 & _); [reflexivity..|].
  split; [exact H1|exact H2].
Defined.

(** ** The endpoints the orchestrator calls *)

Section Endpoints.
Import EventStore.

Lemma cmd_confirm_order_eq oid w :
  OrderService.cmd_confirm_order oid w
  = (World (after_status_command (order_db w) (clock w) oid
              (OrderConfirmed oid (clock w)) CONFIRMED)
           (inventory_db w)
           (redis w ++ [("order_events", DomainEvent (OrderConfirmed oid (clock w)))])
           (clock w),
     Response 200 "OK").
Proof.
  unfold OrderService.cmd_confirm_order. by rewrite confirm_order_eq.
Qed.

Lemma cmd_cancel_order_eq oid reason w :
  OrderService.cmd_cancel_order oid reason w
  = (World (after_status_command (order_db w) (clock w) oid
              (OrderCancelled oid reason (clock w)) CANCELLED)
           (inventory_db w)
           (redis w ++ [("order_events", DomainEvent (OrderCancelled oid reason (clock w)))])
           (clock w),
     Response 200 "OK").
Proof.
  unfold OrderService.cmd_cancel_order. by rewrite cancel_order_eq.
Qed.

(** CreateOrder answers 500 and leaves the world alone, or answers 200
    after inserting the first event and a PENDING row. *)
Lemma cmd_create_order_cases oid cn pid pn q tp w :
  let e := OrderCreated oid cn pid pn q tp (clock w) in
  OrderService.cmd_create_order oid cn pid pn q tp w
    = (w, Response 500 "Internal Server Error")
  \/ (OrderCommands.orders_read_model (order_db w) !! oid = None
      /\ OrderService.cmd_create_order oid cn pid pn q tp w
         = (World (OrderCommands.Db
                     (Row oid "Order" e 1 (clock w)
                        :: OrderCommands.event_store (order_db w))
                     (<[oid := OrderCommands.OrderRow cn pid pn q tp PENDING
                                 (clock w) (clock w)]>
                        (OrderCommands.orders_read_model (order_db w))))
                  (inventory_db w)
                  (redis w ++ [("order_events", DomainEvent e)])
                  (clock w),
            Response 200 "OK")).
Proof.
  intros e. unfold OrderService.cmd_create_order, OrderCommands.create_order,
    append_event. simpl.
  destruct (violates_unique (OrderCommands.event_store (order_db w)) oid (0 + 1));
    simpl; [by left|].
  destruct (OrderCommands.orders_read_model (order_db w) !! oid) eqn:Hrm; simpl;
    [by left|right; done].
Qed.

(** The three answers of the reserve endpoint. *)
Lemma cmd_reserve_cases pid oid qty w :
  let rm := InventoryCommands.inventory_read_model (inventory_db w) in
  let es := InventoryCommands.event_store (inventory_db w) in
  (rm !! pid = None
   /\ InventoryService.cmd_reserve pid oid qty w = (w, Response 409 "Product not found"))
  \/ (exists row reason,
        rm !! pid = Some row
        /\ InventoryCommands.available row < qty
        /\ let e := InventoryReservationFailed pid oid qty
                      (InventoryCommands.available row) (clock w) in
           InventoryService.cmd_reserve pid oid qty w
           = (World (order_db w)
                    (InventoryCommands.Db
                       (Row pid "Inventory" e (last_version (load_events es pid) + 1)
                            (clock w) :: es)
                       rm)
                    (redis w ++ [("inventory_events", DomainEvent e)])
                    (clock w),
              Response 409 reason))
  \/ (exists row,
        rm !! pid = Some row
        /\ qty <= InventoryCommands.available row
        /\ let e := InventoryReserved pid oid qty (clock w) in
           InventoryService.cmd_reserve pid oid qty w
           = (World (order_db w)
                    (InventoryCommands.Db
                       (Row pid "Inventory" e (last_version (load_events es pid) + 1)
                            (clock w) :: es)
                       (<[pid := InventoryCommands.add_reserved qty (clock w) row]> rm))
                    (redis w ++ [("inventory_events", DomainEvent e)])
                    (clock w),
              Response 200 "OK")).
Proof.
  intros rm es. unfold InventoryService.cmd_reserve, InventoryCommands.reserve_inventory.
  fold rm es.
  destruct (rm !! pid) as [row|] eqn:Hrow.
  - right. unfold InventoryCommands.available.
    destruct (Z.ltb_spec (InventoryCommands.quantity row - InventoryCommands.reserved row) qty);
      rewrite append_event_at_last; simpl.
    + left. by eexists _, _.
    + right. exists row. repeat split; [done|].
      assert (alter (InventoryCommands.add_reserved qty (clock w)) pid rm
              = <[pid := InventoryCommands.add_reserved qty (clock w) row]> rm) as ->;
        [|done].
      apply map_eq. intros k. rewrite lookup_alter.
      destruct (decide (pid = k)) as [->|]; [by rewrite lookup_insert_eq, Hrow|].
      by rewrite lookup_insert_ne.
  - left. split; [done|]. simpl. rewrite app_nil_r. by destruct w.
Qed.

End Endpoints.

(** ** The paths of the orchestrator *)

Section SagaPaths.
Import OrderSagaOrchestrator.

Variables (net : network) (w : world) (oid : UUID) (cn : string) (pid : UUID)
          (pn : string) (qty : Z) (tp : Q).

Let r1 := post (step1 net) (OrderService.cmd_create_order oid cn pid pn qty tp) w.
Let r2 := post (step2 net) (InventoryService.cmd_reserve pid oid qty) r1.1.
Let run := execute net w oid cn pid pn qty tp.

(** [execute] takes one of three paths, told apart by the first two calls;
    each ends by publishing one saga event that carries the log returned. *)
Lemma execute_paths :
  (completed r1.2 = false
   /\ exists log,
        run = (_publish_saga_event r1.1 "SagaFailed" oid log, Result false log)
        /\ shape log = [(1, "CreateOrder", FAILED)])
  \/ (completed r1.2 = true /\ completed r2.2 = false
      /\ exists reason log,
           let r3 := post (step3 net) (OrderService.cmd_cancel_order oid reason) r2.1 in
           run = (_publish_saga_event r3.1 "SagaCompensated" oid log, Result false log)
           /\ shape log = [(1, "CreateOrder", COMPLETED);
                           (2, "ReserveInventory", FAILED);
                           (3, "CancelOrder (COMPENSATING)",
                            status_of_call (returned r3.2))])
  \/ (completed r1.2 = true /\ completed r2.2 = true
      /\ exists log,
           let r3 := post (step3 net) (OrderService.cmd_confirm_order oid) r2.1 in
           run = (_publish_saga_event r3.1 "SagaCompleted" oid log, Result true log)
           /\ shape log = [(1, "CreateOrder", COMPLETED);
                           (2, "ReserveInventory", COMPLETED);
                           (3, "ConfirmOrder", status_of_call (returned r3.2))]).
Proof.
  subst run r2 r1. unfold execute.
  destruct (post (step1 net) _ w) as [w1 [resp1|msg1]]; simpl.
  2: { left. split; [done|]. by eexists. }
  destruct (is_success resp1); simpl.
  2: { left. split; [done|]. by eexists. }
  right.
  destruct (post (step2 net) _ w1) as [w2 [resp2|msg2]]; simpl.
  2: { left. do 2 (split; [done|]).
       exists ("Inventory service error: " +:+ msg2). unfold compensate.
       destruct (post (step3 net) _ w2) as [w3 [resp3|msg3]]; simpl;
         eexists; by split. }
  destruct (is_success resp2); simpl.
  2: { left. do 2 (split; [done|]).
       exists "Inventory reservation failed". unfold compensate.
       destruct (post (step3 net) _ w2) as [w3 [resp3|msg3]]; simpl;
         eexists; by split. }
  right. do 2 (split; [done|]).
  destruct (post (step3 net) _ w2) as [w3 [resp3|msg3]]; simpl; eexists; by split.
Qed.

End SagaPaths.

Section SagaSteps.
Import OrderSagaOrchestrator EventStore.

(** The world after a call is the one the handler left when the service
    carried the request out, and the one before otherwise. *)
Lemma post_world o h w :
  (post o h w).1 = if carried_out o then (h w).1 else w.
Proof. unfold post. destruct o; [by destruct (h w)|done|by destruct (h w)|done]. Qed.

(** An answer comes back unless the call raises. *)
Lemma post_returned o h w : returned (post o h w).2 = negb (raises o).
Proof. unfold post. destruct o; [by destruct (h w)|done|by destruct (h w)|done]. Qed.

Lemma post_completed o h w :
  completed (post o h w).2 = true -> o = Delivered /\ is_success (h w).2 = true.
Proof. unfold post. destruct o; [by destruct (h w)|done|by destruct (h w)|done]. Qed.

(** Step 1 completed: the order service inserted the first event and a
    PENDING row, and nothing else changed. *)
Lemma step1_completed o oid cn pid pn q tp w :
  completed (post o (OrderService.cmd_create_order oid cn pid pn q tp) w).2 = true ->
  let w1 := (post o (OrderService.cmd_create_order oid cn pid pn q tp) w).1 in
  order_db w1
  = OrderCommands.Db
      (Row oid "Order" (OrderCreated oid cn pid pn q tp (clock w)) 1 (clock w)
         :: OrderCommands.event_store (order_db w))
      (<[oid := OrderCommands.OrderRow cn pid pn q tp PENDING (clock w) (clock w)]>
         (OrderCommands.orders_read_model (order_db w)))
  /\ inventory_db w1 = inventory_db w
  /\ clock w1 = clock w.
Proof.
  intros [-> Hok]%post_completed. simpl.
  destruct (cmd_create_order_cases oid cn pid pn q tp w) as [E|[_ E]];
    rewrite E in Hok |- *; [done|]. simpl. done.
Qed.

(** Step 2 completed: the inventory service found the stock and reserved
    the quantity; the order database is as step 1 left it. *)
Lemma step2_completed o pid oid qty w :
  completed (post o (InventoryService.cmd_reserve pid oid qty) w).2 = true ->
  let w2 := (post o (InventoryService.cmd_reserve pid oid qty) w).1 in
  exists row,
    InventoryCommands.inventory_read_model (inventory_db w) !! pid = Some row
    /\ qty <= InventoryCommands.available row
    /\ InventoryCommands.inventory_read_model (inventory_db w2)
       = <[pid := InventoryCommands.add_reserved qty (clock w) row]>
           (InventoryCommands.inventory_read_model (inventory_db w))
    /\ order_db w2 = order_db w
    /\ clock w2 = clock w.
Proof.
  intros [-> Hok]%post_completed. simpl.
  destruct (cmd_reserve_cases pid oid qty w)
    as [[_ E]|[(row & reason & _ & _ & E)|(row & Hrow & Hle & E)]];
    simpl in E; rewrite E in Hok |- *; [done..|].
  exists row. simpl. done.
Qed.

(** Publishing a saga event touches the bus only. *)
Lemma publish_order_db w ty oid log :
  order_db (_publish_saga_event w ty oid log) = order_db w.
Proof. done. Qed.

Lemma publish_inventory_db w ty oid log :
  inventory_db (_publish_saga_event w ty oid log) = inventory_db w.
Proof. done. Qed.

(** A status command that reached the order service. *)
Lemma order_aggregate_after_status_command w w' oid e s :
  order_db w' = after_status_command (order_db w) (clock w) oid e s ->
  order_aggregate w' oid
  = OrderAggregate.set_version
      (last_version (load_events (OrderCommands.event_store (order_db w)) oid) + 1)
      (OrderAggregate.apply_event (order_aggregate w oid) e).
Proof.
  intros E. unfold order_aggregate. rewrite E, after_status_command_events.
  by rewrite from_events_snoc.
Qed.

Lemma read_model_after_status_command w w' oid e s :
  order_db w' = after_status_command (order_db w) (clock w) oid e s ->
  is_Some (OrderCommands.orders_read_model (order_db w) !! oid) ->
  read_model_status w' oid = Some s.
Proof.
  intros E [row Hrow]. unfold read_model_status. rewrite E. simpl.
  by rewrite lookup_alter_eq, Hrow.
Qed.

End SagaSteps.

(** ** P4: the successful saga *)

(** Scenario 1 of the specification, the happy path. *)
Example happy_path :
  let run := OrderSagaOrchestrator.execute all_delivered stock_10 1 "alice" 7 "widget" 3 (15 # 1) in
  OrderSagaOrchestrator.success run.2 = true
  /\ shape (OrderSagaOrchestrator.saga_log run.2)
     = [(1, "CreateOrder", COMPLETED); (2, "ReserveInventory", COMPLETED);
        (3, "ConfirmOrder", COMPLETED)]
  /\ read_model_status run.1 1 = Some CONFIRMED
  /\ reserved_of run.1 7 = Some 3
  /\ EventStore.version <$> EventStore.load_events (OrderCommands.event_store (order_db run.1)) 1
     = [1; 2].
Proof. vm_compute. repeat split. Qed.

(** C1, as stated, fails: the confirm request is refused, the saga still
    returns success and the order stays PENDING. *)
Lemma successful_saga_confirms_counterexample :
  ~ successful_saga_confirms third_call_refused stock_10 1 "alice" 7 "widget" 3 (15 # 1).
Proof.
  unfold successful_saga_confirms. intros H.
  assert (OrderAggregate.status
            (order_aggregate
               (OrderSagaOrchestrator.execute third_call_refused stock_10 1 "alice" 7
                  "widget" 3 (15 # 1)).1 1) = PENDING) as Hp by (vm_compute; reflexivity).
  destruct H as [Hc _]; [vm_compute; reflexivity|].
  rewrite Hp in Hc. discriminate.
Qed.

(** Scenario: the order service answers 500 to the confirm request. The
    call returns, nothing looks at the status: the log records step 3 as
    completed, the saga returns success and the order is still PENDING. *)
Example confirm_answered_500 :
  let run := OrderSagaOrchestrator.execute third_call_raises_in_service stock_10 1
               "alice" 7 "widget" 3 (15 # 1) in
  OrderSagaOrchestrator.success run.2 = true
  /\ shape (OrderSagaOrchestrator.saga_log run.2)
     = [(1, "CreateOrder", COMPLETED); (2, "ReserveInventory", COMPLETED);
        (3, "ConfirmOrder", COMPLETED)]
  /\ read_model_status run.1 1 = Some PENDING
  /\ OrderAggregate.status (order_aggregate run.1 1) = PENDING
  /\ reserved_of run.1 7 = Some 3.
Proof. vm_compute. repeat split. Qed.

(** C1, amended. For every saga execution that returns success=true, the
    inventory read-model row of the product ends with reserved incremented by
    exactly the order quantity relative to its value before execute began;
    and when the order service carried the confirm request of step 3 out
    (its handler ran to the commit, the answer arriving or arriving too
    late), the order aggregate ends in status CONFIRMED and so does its
    read-model row. *)
Theorem successful_saga_confirms_when_confirm_is_carried_out
    (net : OrderSagaOrchestrator.network) (w : world) (oid : UUID) (cn : string)
    (pid : UUID) (pn : string) (qty : Z) (tp : Q) :
  let run := OrderSagaOrchestrator.execute net w oid cn pid pn qty tp in
  OrderSagaOrchestrator.success run.2 = true ->
  (exists r, reserved_of w pid = Some r /\ reserved_of run.1 pid = Some (r + qty))
  /\ (carried_out (OrderSagaOrchestrator.step3 net) = true ->
      OrderAggregate.status (order_aggregate run.1 oid) = CONFIRMED
      /\ read_model_status run.1 oid = Some CONFIRMED).
Proof.
  intros run Hsucc. subst run.
  destruct (execute_paths net w oid cn pid pn qty tp)
    as [(_ & log & E & _)|[(_ & _ & reason & log & E & _)|(H1 & H2 & log & E & _)]];
    rewrite E in Hsucc |- *; simpl in Hsucc; [done..|]. simpl.
  clear E Hsucc.
  apply step1_completed in H1 as (Ho1 & Hi1 & Hc1).
  apply step2_completed in H2 as (row & Hrow & _ & Hrm2 & Ho2 & Hc2).
  set (w1 := (OrderSagaOrchestrator.post (OrderSagaOrchestrator.step1 net) _ w).1) in *.
  set (w2 := (OrderSagaOrchestrator.post (OrderSagaOrchestrator.step2 net) _ w1).1) in *.
  set (w3 := (OrderSagaOrchestrator.post (OrderSagaOrchestrator.step3 net) _ w2).1).
  assert (inventory_db w3 = inventory_db w2) as Hi3.
  { subst w3. rewrite post_world, cmd_confirm_order_eq.
    by destruct (carried_out (OrderSagaOrchestrator.step3 net)). }
  split.
  - exists (InventoryCommands.reserved row). unfold reserved_of.
    rewrite publish_inventory_db, Hi3, Hrm2, lookup_insert_eq, <- Hi1, Hrow. done.
  - intros Hcarried.
    assert (order_db w3 = after_status_command (order_db w2) (clock w2) oid
                            (OrderConfirmed oid (clock w2)) CONFIRMED) as Ho3.
    { subst w3. by rewrite post_world, Hcarried, cmd_confirm_order_eq. }
    split.
    + unfold order_aggregate. rewrite publish_order_db. fold (order_aggregate w3 oid).
      by rewrite (order_aggregate_after_status_command w2 w3 oid _ _ Ho3).
    + unfold read_model_status. rewrite publish_order_db.
      apply (read_model_after_status_command w2 w3 oid _ _ Ho3).
      rewrite Ho2, Ho1. simpl. rewrite lookup_insert_eq. by eexists.
Qed.

Lemma successful_saga_confirms_when_confirm_is_carried_out_witness :
  let run := OrderSagaOrchestrator.execute third_call_late stock_10 1 "alice" 7 "widget" 3 (15 # 1) in
  (exists r, reserved_of stock_10 7 = Some r /\ reserved_of run.1 7 = Some (r + 3))
  /\ OrderAggregate.status (order_aggregate run.1 1) = CONFIRMED
  /\ read_model_status run.1 1 = Some CONFIRMED.
Proof.
  destruct (successful_saga_confirms_when_confirm_is_carried_out
              third_call_late stock_10 1 "alice" 7 "widget" 3 (15 # 1))
    as (Hr & Hc); [vm_compute; reflexivity|].
  split; [exact Hr|]. by apply Hc.
Defined.

(** ** P5: the compensated saga *)

Section Compensation.
Import OrderSagaOrchestrator EventStore.

(** Step 2 failed without a late answer: the inventory service rejected
    the request, raised before its commit or never saw the request. The read
    model is untouched; the event store gained at most the record of the
    rejection. *)
Lemma step2_failed o pid oid qty w :
  completed (post o (InventoryService.cmd_reserve pid oid qty) w).2 = false ->
  o <> ReadTimeout ->
  let w2 := (post o (InventoryService.cmd_reserve pid oid qty) w).1 in
  let es := InventoryCommands.event_store (inventory_db w) in
  InventoryCommands.inventory_read_model (inventory_db w2)
  = InventoryCommands.inventory_read_model (inventory_db w)
  /\ (InventoryCommands.event_store (inventory_db w2) = es
      \/ exists available,
           InventoryCommands.event_store (inventory_db w2)
           = Row pid "Inventory"
                 (InventoryReservationFailed pid oid qty available (clock w))
                 (last_version (load_events es pid) + 1) (clock w) :: es)
  /\ order_db w2 = order_db w
  /\ clock w2 = clock w.
Proof.
  intros Hfail Ho. rewrite post_world. destruct o; [|by auto|done|by auto].
  unfold post in Hfail. cbn [carried_out].
  destruct (cmd_reserve_cases pid oid qty w)
    as [[_ E]|[(row & reason & _ & _ & E)|(row & _ & _ & E)]];
    simpl in E; rewrite E in Hfail |- *; simpl in *; [by auto| |done].
  repeat split; [|done..]. right. by eexists.
Qed.

Lemma compensate_inventory net w oid reason log :
  inventory_db (compensate net w oid reason log).1 = inventory_db w.
Proof.
  unfold compensate.
  pose proof (post_world (step3 net) (OrderService.cmd_cancel_order oid reason) w) as Hw.
  destruct (post (step3 net) _ w) as [w3 [resp|msg]]; simpl in *; subst w3;
    rewrite cmd_cancel_order_eq; by destruct (carried_out (step3 net)).
Qed.

Lemma compensation_path_iff net w oid cn pid pn qty tp :
  let r1 := post (step1 net) (OrderService.cmd_create_order oid cn pid pn qty tp) w in
  let r2 := post (step2 net) (InventoryService.cmd_reserve pid oid qty) r1.1 in
  compensation_path (execute net w oid cn pid pn qty tp).2 ->
  completed r1.2 = true /\ completed r2.2 = false.
Proof.
  intros r1 r2. unfold compensation_path.
  destruct (execute_paths net w oid cn pid pn qty tp)
    as [(_ & log & E & Hs)|[(H1 & H2 & reason & log & E & Hs)|(_ & _ & log & E & Hs)]];
    rewrite E; simpl; rewrite Hs; [|done|].
  - intros Hin. apply list_elem_of_singleton in Hin. discriminate.
  - rewrite !elem_of_cons, elem_of_nil. intros [?|[?|[?|[]]]]; discriminate.
Qed.

End Compensation.

(** Scenario 2 of the specification, insufficient stock. *)
Example insufficient_stock :
  let run := OrderSagaOrchestrator.execute all_delivered stock_10 1 "alice" 7 "widget" 30 (150 # 1) in
  OrderSagaOrchestrator.success run.2 = false
  /\ shape (OrderSagaOrchestrator.saga_log run.2)
     = [(1, "CreateOrder", COMPLETED); (2, "ReserveInventory", FAILED);
        (3, "CancelOrder (COMPENSATING)", COMPLETED)]
  /\ read_model_status run.1 1 = Some CANCELLED
  /\ reserved_of run.1 7 = Some 0
  /\ EventStore.event_data <$> InventoryCommands.event_store (inventory_db run.1)
     = [InventoryReservationFailed 7 1 30 10 1000].
Proof. vm_compute. repeat split. Qed.

(** Scenario of section 9: the reservation succeeds in the inventory
    service and its answer is lost. The saga compensates, the order is
    cancelled and the 3 units stay reserved. *)
Example reservation_answered_late :
  let run := OrderSagaOrchestrator.execute reserve_late stock_10 1 "alice" 7 "widget" 3 (15 # 1) in
  OrderSagaOrchestrator.success run.2 = false
  /\ shape (OrderSagaOrchestrator.saga_log run.2)
     = [(1, "CreateOrder", COMPLETED); (2, "ReserveInventory", FAILED);
        (3, "CancelOrder (COMPENSATING)", COMPLETED)]
  /\ read_model_status run.1 1 = Some CANCELLED
  /\ reserved_of run.1 7 = Some 3.
Proof. vm_compute. repeat split. Qed.

(** C2, as stated, fails: stock is insufficient, the cancel request is
    refused and the order stays PENDING. *)
Lemma compensated_saga_cancels_counterexample :
  ~ compensated_saga_cancels third_call_refused stock_10 1 "alice" 7 "widget" 30 (150 # 1).
Proof.
  unfold compensated_saga_cancels. intros H.
  assert (OrderAggregate.status
            (order_aggregate
               (OrderSagaOrchestrator.execute third_call_refused stock_10 1 "alice" 7
                  "widget" 30 (150 # 1)).1 1) = PENDING) as Hp by (vm_compute; reflexivity).
  destruct H as [Hc _].
  - unfold compensation_path.
    assert (shape (OrderSagaOrchestrator.saga_log
                     (OrderSagaOrchestrator.execute third_call_refused stock_10 1 "alice" 7
                        "widget" 30 (150 # 1)).2)
            = [(1, "CreateOrder", COMPLETED); (2, "ReserveInventory", FAILED);
               (3, "CancelOrder (COMPENSATING)", FAILED)]) as -> by (vm_compute; reflexivity).
    apply list_elem_of_further, list_elem_of_here.
  - rewrite Hp in Hc. discriminate.
Qed.

(** Scenario: stock is insufficient and the order service answers 500 to
    the cancel request. The log records the compensation as completed and
    the order is still PENDING. *)
Example cancel_answered_500 :
  let run := OrderSagaOrchestrator.execute third_call_raises_in_service stock_10 1
               "alice" 7 "widget" 30 (150 # 1) in
  OrderSagaOrchestrator.success run.2 = false
  /\ shape (OrderSagaOrchestrator.saga_log run.2)
     = [(1, "CreateOrder", COMPLETED); (2, "ReserveInventory", FAILED);
        (3, "CancelOrder (COMPENSATING)", COMPLETED)]
  /\ read_model_status run.1 1 = Some PENDING
  /\ OrderAggregate.status (order_aggregate run.1 1) = PENDING
  /\ reserved_of run.1 7 = Some 0.
Proof. vm_compute. repeat split. Qed.

(** C2, amended. For every saga execution that takes a compensation path
    (step 2 fails): when the order service carried the cancel request out
    (its handler ran to the commit, the answer arriving or arriving too
    late), the order ends in status CANCELLED, in the aggregate and in the
    read model; when the reserve request was rejected by the inventory
    service, failed in it before the commit or never reached it (it was not
    carried out with the answer lost), the inventory read model, reserved
    included, is as it was before execute began, and the inventory event
    store gained at most the InventoryReservationFailed record of step 2. On
    every path the compensation itself modifies no inventory state. *)
Theorem compensated_saga_cancels_when_cancel_is_carried_out
    (net : OrderSagaOrchestrator.network) (w : world) (oid : UUID) (cn : string)
    (pid : UUID) (pn : string) (qty : Z) (tp : Q) :
  let run := OrderSagaOrchestrator.execute net w oid cn pid pn qty tp in
  let es := InventoryCommands.event_store (inventory_db w) in
  compensation_path run.2 ->
  (carried_out (OrderSagaOrchestrator.step3 net) = true ->
   OrderAggregate.status (order_aggregate run.1 oid) = CANCELLED
   /\ read_model_status run.1 oid = Some CANCELLED)
  /\ (OrderSagaOrchestrator.step2 net <> OrderSagaOrchestrator.ReadTimeout ->
      reserved_of run.1 pid = reserved_of w pid
      /\ InventoryCommands.inventory_read_model (inventory_db run.1)
         = InventoryCommands.inventory_read_model (inventory_db w)
      /\ (InventoryCommands.event_store (inventory_db run.1) = es
          \/ exists available,
               InventoryCommands.event_store (inventory_db run.1)
               = EventStore.Row pid "Inventory"
                   (InventoryReservationFailed pid oid qty available (clock w))
                   (EventStore.last_version (EventStore.load_events es pid) + 1) (clock w)
                 :: es))
  /\ forall w2 reason log,
       inventory_db (OrderSagaOrchestrator.compensate net w2 oid reason log).1
       = inventory_db w2.
Proof.
  intros run es Hpath. subst run.
  pose proof (compensation_path_iff net w oid cn pid pn qty tp Hpath) as [H1 H2].
  destruct (execute_paths net w oid cn pid pn qty tp)
    as [(Hc & _)|[(_ & _ & reason & log & E & _)|(_ & Hc & _)]];
    [congruence| |congruence].
  rewrite E. simpl. clear E Hpath.
  apply step1_completed in H1 as (Ho1 & Hi1 & Hc1).
  set (w1 := (OrderSagaOrchestrator.post (OrderSagaOrchestrator.step1 net) _ w).1) in *.
  set (w2 := (OrderSagaOrchestrator.post (OrderSagaOrchestrator.step2 net) _ w1).1) in *.
  set (w3 := (OrderSagaOrchestrator.post (OrderSagaOrchestrator.step3 net) _ w2).1).
  assert (order_db w2 = order_db w1) as Ho2.
  { subst w2. rewrite post_world.
    destruct (carried_out (OrderSagaOrchestrator.step2 net)); [|done].
    destruct (cmd_reserve_cases pid oid qty w1)
      as [[_ E]|[(row & reason' & _ & _ & E)|(row & _ & _ & E)]];
      simpl in E; by rewrite E. }
  assert (clock w2 = clock w1) as Hc2.
  { subst w2. rewrite post_world.
    destruct (carried_out (OrderSagaOrchestrator.step2 net)); [|done].
    destruct (cmd_reserve_cases pid oid qty w1)
      as [[_ E]|[(row & reason' & _ & _ & E)|(row & _ & _ & E)]];
      simpl in E; by rewrite E. }
  assert (inventory_db w3 = inventory_db w2) as Hi3.
  { subst w3. rewrite post_world, cmd_cancel_order_eq.
    by destruct (carried_out (OrderSagaOrchestrator.step3 net)). }
  split; [|split].
  - intros Hcarried.
    assert (order_db w3 = after_status_command (order_db w2) (clock w2) oid
                            (OrderCancelled oid reason (clock w2)) CANCELLED) as Ho3.
    { subst w3. by rewrite post_world, Hcarried, cmd_cancel_order_eq. }
    split.
    + unfold order_aggregate. rewrite publish_order_db. fold (order_aggregate w3 oid).
      by rewrite (order_aggregate_after_status_command w2 w3 oid _ _ Ho3).
    + unfold read_model_status. rewrite publish_order_db.
      apply (read_model_after_status_command w2 w3 oid _ _ Ho3).
      rewrite Ho2, Ho1. simpl. rewrite lookup_insert_eq. by eexists.
  - intros Hnet2.
    apply step2_failed in H2 as (Hrm2 & Hes2 & _ & _); [|done]. fold w2 in Hrm2, Hes2.
    assert (InventoryCommands.inventory_read_model (inventory_db w3)
            = InventoryCommands.inventory_read_model (inventory_db w)) as Hrm3
      by (by rewrite Hi3, Hrm2, Hi1).
    split; [|split].
    + unfold reserved_of. by rewrite publish_inventory_db, Hrm3.
    + exact Hrm3.
    + rewrite Hi3. subst es. rewrite <- Hi1, <- Hc1. exact Hes2.
  - intros. apply compensate_inventory.
Qed.

Lemma compensated_saga_cancels_when_cancel_is_carried_out_witness :
  let run := OrderSagaOrchestrator.execute all_delivered stock_10 1 "alice" 7 "widget" 30 (150 # 1) in
  OrderAggregate.status (order_aggregate run.1 1) = CANCELLED
  /\ reserved_of run.1 7 = reserved_of stock_10 7.
Proof.
  destruct (compensated_saga_cancels_when_cancel_is_carried_out
              all_delivered stock_10 1 "alice" 7 "widget" 30 (150 # 1))
    as (H1 & H2 & _).
  - unfold compensation_path.
    assert (shape (OrderSagaOrchestrator.saga_log
                     (OrderSagaOrchestrator.execute all_delivered stock_10 1 "alice" 7
                        "widget" 30 (150 # 1)).2)
            = [(1, "CreateOrder", COMPLETED); (2, "ReserveInventory", FAILED);
               (3, "CancelOrder (COMPENSATING)", COMPLETED)]) as -> by (vm_compute; reflexivity).
    apply list_elem_of_further, list_elem_of_here.
  - split; [by apply H1|]. by apply H2.
Defined.

(** ** The saga channel *)

Section SagaChannel.
Import OrderSagaOrchestrator.

Lemma saga_events_app l1 l2 : saga_events (l1 ++ l2) = saga_events l1 ++ saga_events l2.
Proof. unfold saga_events. apply omap_app. Qed.

Lemma no_saga_event_refl w : no_saga_event_between w w.
Proof. exists []. split; [unfold published_between; by rewrite app_nil_r|done]. Qed.

Lemma no_saga_event_trans w1 w2 w3 :
  no_saga_event_between w1 w2 -> no_saga_event_between w2 w3 ->
  no_saga_event_between w1 w3.
Proof.
  intros (m1 & E1 & H1) (m2 & E2 & H2). exists (m1 ++ m2).
  unfold published_between in *. split; [by rewrite E2, E1, app_assoc|].
  by rewrite saga_events_app, H1, H2.
Qed.

Lemma no_saga_event_domain w w' ch e :
  redis w' = redis w ++ [(ch, DomainEvent e)] -> no_saga_event_between w w'.
Proof. intros E. by exists [(ch, DomainEvent e)]. Qed.

Lemma cmd_create_order_quiet oid cn pid pn q tp w :
  no_saga_event_between w (OrderService.cmd_create_order oid cn pid pn q tp w).1.
Proof.
  destruct (cmd_create_order_cases oid cn pid pn q tp w) as [E|[_ E]]; rewrite E.
  - apply no_saga_event_refl.
  - by eapply no_saga_event_domain.
Qed.

Lemma cmd_confirm_order_quiet oid w :
  no_saga_event_between w (OrderService.cmd_confirm_order oid w).1.
Proof. rewrite cmd_confirm_order_eq. by eapply no_saga_event_domain. Qed.

Lemma cmd_cancel_order_quiet oid reason w :
  no_saga_event_between w (OrderService.cmd_cancel_order oid reason w).1.
Proof. rewrite cmd_cancel_order_eq. by eapply no_saga_event_domain. Qed.

Lemma cmd_reserve_quiet pid oid qty w :
  no_saga_event_between w (InventoryService.cmd_reserve pid oid qty w).1.
Proof.
  destruct (cmd_reserve_cases pid oid qty w)
    as [[_ E]|[(row & reason & _ & _ & E)|(row & _ & _ & E)]];
    simpl in E; rewrite E.
  - apply no_saga_event_refl.
  - by eapply no_saga_event_domain.
  - by eapply no_saga_event_domain.
Qed.

Lemma post_quiet o (h : endpoint) w :
  (forall w, no_saga_event_between w (h w).1) ->
  no_saga_event_between w (post o h w).1.
Proof.
  intros Hh. rewrite post_world.
  destruct (carried_out o); [apply Hh|apply no_saga_event_refl].
Qed.

(** What the bus carries after [execute] published its saga event. *)
Lemma publish_after_quiet w w' ty oid log :
  no_saga_event_between w w' ->
  exists msgs,
    published_between w (_publish_saga_event w' ty oid log) msgs
    /\ saga_events msgs = [SagaEvent ty oid log].
Proof.
  intros (m & E & H). exists (m ++ [("saga_events", SagaEvent ty oid log)]).
  unfold published_between in *. simpl. split; [by rewrite E, app_assoc|].
  by rewrite saga_events_app, H.
Qed.

(** [execute] publishes one saga event, of the type of the path taken, with
    the log it returns. *)
Lemma execute_saga_event net w oid cn pid pn qty tp :
  let r1 := post (step1 net) (OrderService.cmd_create_order oid cn pid pn qty tp) w in
  let r2 := post (step2 net) (InventoryService.cmd_reserve pid oid qty) r1.1 in
  let run := execute net w oid cn pid pn qty tp in
  exists msgs,
    published_between w run.1 msgs
    /\ saga_events msgs
       = [SagaEvent (if completed r1.2
                     then if completed r2.2 then "SagaCompleted" else "SagaCompensated"
                     else "SagaFailed")
                    oid (saga_log run.2)].
Proof.
  intros r1 r2 run. subst run r2 r1.
  pose proof (post_quiet (step1 net)
                (OrderService.cmd_create_order oid cn pid pn qty tp) w
                (cmd_create_order_quiet oid cn pid pn qty tp)) as Q1.
  pose proof (post_quiet (step2 net)
                (InventoryService.cmd_reserve pid oid qty)
                (post (step1 net)
                   (OrderService.cmd_create_order oid cn pid pn qty tp) w).1
                (cmd_reserve_quiet pid oid qty)) as Q2.
  pose proof (no_saga_event_trans _ _ _ Q1 Q2) as Q12.
  destruct (execute_paths net w oid cn pid pn qty tp)
    as [(H1 & log & E & _)|[(H1 & H2 & reason & log & E & _)|(H1 & H2 & log & E & _)]];
    rewrite E, H1, ?H2; cbn [fst snd saga_log].
  - by apply publish_after_quiet.
  - apply publish_after_quiet. eapply no_saga_event_trans; [exact Q12|].
    apply post_quiet. intros. apply cmd_cancel_order_quiet.
  - apply publish_after_quiet. eapply no_saga_event_trans; [exact Q12|].
    apply post_quiet. intros. apply cmd_confirm_order_quiet.
Qed.

End SagaChannel.

Section SagaLog.
Import OrderSagaOrchestrator.

Variables (net : network) (w : world) (oid : UUID) (cn : string) (pid : UUID)
          (pn : string) (qty : Z) (tp : Q).

Let create := post (step1 net) (OrderService.cmd_create_order oid cn pid pn qty tp) w.
Let reserve := post (step2 net) (InventoryService.cmd_reserve pid oid qty) create.1.
Let cancel :=
  post (step3 net) (OrderService.cmd_cancel_order oid (cancel_reason reserve.2)) reserve.1.
Let confirm := post (step3 net) (OrderService.cmd_confirm_order oid) reserve.1.
Let run := execute net w oid cn pid pn qty tp.

(** The value [execute] returns, path by path, with the world its last call
    left and the status each call gave its log entry. *)
Lemma execute_from_its_calls :
  exists log,
    run = (if completed create.2 then
             if completed reserve.2 then
               (_publish_saga_event confirm.1 "SagaCompleted" oid log, Result true log)
             else
               (_publish_saga_event cancel.1 "SagaCompensated" oid log, Result false log)
           else (_publish_saga_event create.1 "SagaFailed" oid log, Result false log))
    /\ shape log
       = if completed create.2 then
           if completed reserve.2 then
             [(1, "CreateOrder", COMPLETED); (2, "ReserveInventory", COMPLETED);
              (3, "ConfirmOrder", status_of_call (returned confirm.2))]
           else
             [(1, "CreateOrder", COMPLETED); (2, "ReserveInventory", FAILED);
              (3, "CancelOrder (COMPENSATING)", status_of_call (returned cancel.2))]
         else [(1, "CreateOrder", FAILED)].
Proof.
  subst run confirm cancel reserve create. unfold execute.
  destruct (post (step1 net) _ w) as [w1 [resp1|msg1]]; simpl; [|by eexists].
  destruct (is_success resp1); simpl; [|by eexists].
  destruct (post (step2 net) _ w1) as [w2 [resp2|msg2]]; simpl.
  2: { unfold compensate.
       destruct (post (step3 net) _ w2) as [w3 [resp3|msg3]]; simpl; by eexists. }
  destruct (is_success resp2); simpl.
  2: { unfold compensate.
       destruct (post (step3 net) _ w2) as [w3 [resp3|msg3]]; simpl; by eexists. }
  destruct (post (step3 net) _ w2) as [w3 [resp3|msg3]]; simpl; by eexists.
Qed.

End SagaLog.

(** C7. Every saga execution publishes exactly one saga event, after its
    last call, and returns the log that the event carries, with one entry
    per call made, in the order of the calls, each settled by what its call
    gave. When CreateOrder raises or is answered with an error status: the
    event is SagaFailed, the result success=false and the log has step 1
    FAILED; no other call is made. When CreateOrder completes and
    ReserveInventory raises or is answered with an error status: CancelOrder
    is called, with the reason of the except clause that caught the failure;
    the event is SagaCompensated, the result success=false and the log has
    step 1 COMPLETED, step 2 FAILED and the cancel COMPLETED when its call
    returned, FAILED when it raised. When both complete: ConfirmOrder is
    called; the event is SagaCompleted, the result success=true and the log
    has steps 1 and 2 COMPLETED and step 3 COMPLETED when its call returned,
    FAILED when it raised. *)
Theorem one_terminal_event_and_full_log
    (net : OrderSagaOrchestrator.network) (w : world) (oid : UUID) (cn : string)
    (pid : UUID) (pn : string) (qty : Z) (tp : Q) :
  let create :=
    OrderSagaOrchestrator.post (OrderSagaOrchestrator.step1 net)
      (OrderService.cmd_create_order oid cn pid pn qty tp) w in
  let reserve :=
    OrderSagaOrchestrator.post (OrderSagaOrchestrator.step2 net)
      (InventoryService.cmd_reserve pid oid qty) create.1 in
  let cancel :=
    OrderSagaOrchestrator.post (OrderSagaOrchestrator.step3 net)
      (OrderService.cmd_cancel_order oid (cancel_reason reserve.2)) reserve.1 in
  let confirm :=
    OrderSagaOrchestrator.post (OrderSagaOrchestrator.step3 net)
      (OrderService.cmd_confirm_order oid) reserve.1 in
  let run := OrderSagaOrchestrator.execute net w oid cn pid pn qty tp in
  if completed create.2 then
    if completed reserve.2 then
      ends_with run w confirm.1 "SagaCompleted" oid true
        [(1, "CreateOrder", COMPLETED); (2, "ReserveInventory", COMPLETED);
         (3, "ConfirmOrder", status_of_call (returned confirm.2))]
    else
      ends_with run w cancel.1 "SagaCompensated" oid false
        [(1, "CreateOrder", COMPLETED); (2, "ReserveInventory", FAILED);
         (3, "CancelOrder (COMPENSATING)", status_of_call (returned cancel.2))]
  else
    ends_with run w create.1 "SagaFailed" oid false [(1, "CreateOrder", FAILED)].
Proof.
  intros create reserve cancel confirm run.
  destruct (execute_saga_event net w oid cn pid pn qty tp) as (msgs & Hp & Hm).
  destruct (execute_from_its_calls net w oid cn pid pn qty tp) as (log & E & Hs).
  fold create reserve in Hm. fold create reserve cancel confirm run in E, Hs.
  fold run in Hp, Hm. unfold ends_with.
  destruct (completed create.2); [destruct (completed reserve.2)|];
    rewrite E in Hp, Hm |- *;
    cbn [fst snd OrderSagaOrchestrator.saga_log OrderSagaOrchestrator.success] in *;
    (split; [done|]); (split; [by exists msgs|]); by split.
Qed.

(** ** The open question on step 3 *)

Section ConfirmFailure.
Import OrderSagaOrchestrator EventStore.

Lemma confirm_attempted_path net w oid cn pid pn qty tp :
  let r1 := post (step1 net) (OrderService.cmd_create_order oid cn pid pn qty tp) w in
  let r2 := post (step2 net) (InventoryService.cmd_reserve pid oid qty) r1.1 in
  confirm_attempted (execute net w oid cn pid pn qty tp).2 ->
  completed r1.2 = true /\ completed r2.2 = true.
Proof.
  intros r1 r2 [s Hin]. revert Hin.
  destruct (execute_paths net w oid cn pid pn qty tp)
    as [(_ & log & E & Hs)|[(_ & _ & reason & log & E & Hs)|(H1 & H2 & _)]];
    [| |done]; rewrite E; simpl; rewrite Hs.
  - intros Hin. apply list_elem_of_singleton in Hin. discriminate.
  - rewrite !elem_of_cons, elem_of_nil. intros [?|[?|[?|[]]]]; discriminate.
Qed.

(** The aggregate of a new order after step 1. *)
Lemma new_order_is_pending es oid e now rest :
  load_events es oid = [] ->
  e = OrderCreated oid rest.1.1.1.1 rest.1.1.1.2 rest.1.1.2 rest.1.2 rest.2 now ->
  OrderAggregate.status
    (OrderAggregate.from_events (load_events (Row oid "Order" e 1 now :: es) oid))
  = PENDING.
Proof.
  intros Hnew ->. rewrite load_events_cons_same; [|rewrite Hnew; unfold last_version; simpl; lia].
  by rewrite Hnew.
Qed.

End ConfirmFailure.

(** Scenario: the confirm request is answered too late. The log records
    step 3 as failed; the order service confirmed the order. *)
Example confirm_answered_late :
  let run := OrderSagaOrchestrator.execute third_call_late stock_10 1 "alice" 7 "widget" 3 (15 # 1) in
  OrderSagaOrchestrator.success run.2 = true
  /\ shape (OrderSagaOrchestrator.saga_log run.2)
     = [(1, "CreateOrder", COMPLETED); (2, "ReserveInventory", COMPLETED);
        (3, "ConfirmOrder", FAILED)]
  /\ read_model_status run.1 1 = Some CONFIRMED
  /\ OrderAggregate.status (order_aggregate run.1 1) = CONFIRMED
  /\ reserved_of run.1 7 = Some 3.
Proof. vm_compute. repeat split. Qed.

(** C6, as stated, fails: the confirm request is answered too late, step 3
    is recorded as failed and the order is CONFIRMED, not PENDING. *)
Lemma failed_confirm_leaves_pending_counterexample :
  ~ failed_confirm_leaves_pending third_call_late stock_10 1 "alice" 7 "widget" 3 (15 # 1).
Proof.
  unfold failed_confirm_leaves_pending. intros H.
  destruct H as (_ & _ & _ & Hp & _).
  - exists FAILED.
    assert (shape (OrderSagaOrchestrator.saga_log
                     (OrderSagaOrchestrator.execute third_call_late stock_10 1 "alice" 7
                        "widget" 3 (15 # 1)).2)
            = [(1, "CreateOrder", COMPLETED); (2, "ReserveInventory", COMPLETED);
               (3, "ConfirmOrder", FAILED)]) as -> by (vm_compute; reflexivity).
    apply list_elem_of_further, list_elem_of_further, list_elem_of_here.
  - discriminate.
  - assert (read_model_status
              (OrderSagaOrchestrator.execute third_call_late stock_10 1 "alice" 7
                 "widget" 3 (15 # 1)).1 1 = Some CONFIRMED) as Hc by (vm_compute; reflexivity).
    rewrite Hc in Hp. discriminate.
Qed.

(** C6, amended. For every saga execution in which the confirm call of step
    3 raises, the log's step-3 entry is marked FAILED, a SagaCompleted event
    is published, the result returned is success=true and the inventory stays
    reserved. When the request never reached the order service the order
    remains PENDING (its read-model row; its aggregate too when the order id
    was new); when the answer came too late the order is CONFIRMED. *)
Theorem failed_confirm_reported_as_success
    (net : OrderSagaOrchestrator.network) (w : world) (oid : UUID) (cn : string)
    (pid : UUID) (pn : string) (qty : Z) (tp : Q) :
  let run := OrderSagaOrchestrator.execute net w oid cn pid pn qty tp in
  let log := OrderSagaOrchestrator.saga_log run.2 in
  confirm_attempted run.2 ->
  raises (OrderSagaOrchestrator.step3 net) = true ->
  (3, "ConfirmOrder", FAILED) ∈ shape log
  /\ (exists msgs,
        published_between w run.1 msgs
        /\ saga_events msgs = [SagaEvent "SagaCompleted" oid log])
  /\ OrderSagaOrchestrator.success run.2 = true
  /\ (exists r, reserved_of w pid = Some r /\ reserved_of run.1 pid = Some (r + qty))
  /\ (OrderSagaOrchestrator.step3 net = OrderSagaOrchestrator.ConnectError ->
      read_model_status run.1 oid = Some PENDING
      /\ (EventStore.load_events (OrderCommands.event_store (order_db w)) oid = [] ->
          OrderAggregate.status (order_aggregate run.1 oid) = PENDING))
  /\ (OrderSagaOrchestrator.step3 net = OrderSagaOrchestrator.ReadTimeout ->
      read_model_status run.1 oid = Some CONFIRMED
      /\ OrderAggregate.status (order_aggregate run.1 oid) = CONFIRMED).
Proof.
  intros run log Hatt Hnet. subst log run.
  pose proof (confirm_attempted_path net w oid cn pid pn qty tp Hatt) as [H1 H2].
  pose proof (execute_saga_event net w oid cn pid pn qty tp) as Hbus.
  cbn zeta in Hbus. rewrite H1, H2 in Hbus.
  destruct (execute_paths net w oid cn pid pn qty tp)
    as [(Hc & _)|[(_ & Hc & _)|(_ & _ & log & E & Hs)]]; [congruence..|].
  rewrite E in Hbus |- *.
  cbn [fst snd OrderSagaOrchestrator.saga_log OrderSagaOrchestrator.success] in *.
  clear E Hatt.
  apply step1_completed in H1 as (Ho1 & Hi1 & Hc1).
  apply step2_completed in H2 as (row & Hrow & _ & Hrm2 & Ho2 & Hc2).
  set (w1 := (OrderSagaOrchestrator.post (OrderSagaOrchestrator.step1 net) _ w).1) in *.
  set (w2 := (OrderSagaOrchestrator.post (OrderSagaOrchestrator.step2 net) _ w1).1) in *.
  rewrite post_returned in Hs.
  set (w3 := (OrderSagaOrchestrator.post (OrderSagaOrchestrator.step3 net) _ w2).1) in *.
  assert (inventory_db w3 = inventory_db w2) as Hi3.
  { subst w3. rewrite post_world, cmd_confirm_order_eq.
    by destruct (carried_out (OrderSagaOrchestrator.step3 net)). }
  split; [|split; [|split; [done|split; [|split]]]].
  - rewrite Hs, Hnet.
    apply list_elem_of_further, list_elem_of_further, list_elem_of_here.
  - exact Hbus.
  - exists (InventoryCommands.reserved row). unfold reserved_of.
    rewrite publish_inventory_db, Hi3, Hrm2, lookup_insert_eq, <- Hi1, Hrow. done.
  - intros Hrefused.
    assert (w3 = w2) as -> by (subst w3; by rewrite post_world, Hrefused).
    split.
    + unfold read_model_status. rewrite publish_order_db, Ho2, Ho1. simpl.
      by rewrite lookup_insert_eq.
    + intros Hnew. unfold order_aggregate. rewrite publish_order_db, Ho2, Ho1. simpl.
      by apply (new_order_is_pending _ oid _ _ (cn, pid, pn, qty, tp)).
  - intros Hlate.
    assert (order_db w3 = after_status_command (order_db w2) (clock w2) oid
                            (OrderConfirmed oid (clock w2)) CONFIRMED) as Ho3.
    { subst w3. by rewrite post_world, Hlate, cmd_confirm_order_eq. }
    split.
    + unfold read_model_status. rewrite publish_order_db.
      apply (read_model_after_status_command w2 w3 oid _ _ Ho3).
      rewrite Ho2, Ho1. simpl. rewrite lookup_insert_eq. by eexists.
    + unfold order_aggregate. rewrite publish_order_db. fold (order_aggregate w3 oid).
      by rewrite (order_aggregate_after_status_command w2 w3 oid _ _ Ho3).
Qed.

Lemma failed_confirm_reported_as_success_witness :
  let run := OrderSagaOrchestrator.execute third_call_refused stock_10 1 "alice" 7 "widget" 3 (15 # 1) in
  (3, "ConfirmOrder", FAILED) ∈ shape (OrderSagaOrchestrator.saga_log run.2)
  /\ OrderSagaOrchestrator.success run.2 = true
  /\ read_model_status run.1 1 = Some PENDING.
Proof.
  destruct (failed_confirm_reported_as_success
              third_call_refused stock_10 1 "alice" 7 "widget" 3 (15 # 1))
    as (H1 & _ & H3 & _ & H5 & _).
  - exists FAILED.
    assert (shape (OrderSagaOrchestrator.saga_log
                     (OrderSagaOrchestrator.execute third_call_refused stock_10 1 "alice" 7
                        "widget" 3 (15 # 1)).2)
            = [(1, "CreateOrder", COMPLETED); (2, "ReserveInventory", COMPLETED);
               (3, "ConfirmOrder", FAILED)]) as -> by (vm_compute; reflexivity).
    apply list_elem_of_further, list_elem_of_further, list_elem_of_here.
  - reflexivity.
  - split; [exact H1|]. split; [exact H3|]. by apply H5.
Defined.

(** ** ReserveInventory *)

(** C3. On an existing product, with available = quantity - reserved read
    from the read model: when the quantity requested exceeds available,
    ReserveInventory appends InventoryReservationFailed to the stream of the
    product, publishes it, returns failure with a reason text and leaves the
    read model, reserved included, unchanged; otherwise, equality included,
    it appends InventoryReserved, adds the quantity to reserved and returns
    success. *)
Theorem reserve_inventory_decides_on_available
    (session : InventoryCommands.db) (now : datetime) (pid oid : UUID) (qty : Z)
    (row : InventoryCommands.inventory_row) :
  let rm := InventoryCommands.inventory_read_model session in
  let es := InventoryCommands.event_store session in
  let available := InventoryCommands.quantity row - InventoryCommands.reserved row in
  let record e :=
    EventStore.Row pid "Inventory" e
      (EventStore.last_version (EventStore.load_events es pid) + 1) now in
  rm !! pid = Some row ->
  (qty > available ->
   let e := InventoryReservationFailed pid oid qty available now in
   InventoryCommands.reserve_inventory session now pid oid qty
   = Some (InventoryCommands.Db (record e :: es) rm,
           [("inventory_events", DomainEvent e)],
           InventoryCommands.Result false
             (Some ("Insufficient stock: requested=" +:+ pretty qty
                    +:+ ", available=" +:+ pretty available)))
   /\ EventStore.load_events (record e :: es) pid
      = EventStore.load_events es pid ++ [record e])
  /\ (qty <= available ->
      let e := InventoryReserved pid oid qty now in
      InventoryCommands.reserve_inventory session now pid oid qty
      = Some (InventoryCommands.Db (record e :: es)
                (<[pid := InventoryCommands.InventoryRow
                            (InventoryCommands.product_name row)
                            (InventoryCommands.quantity row)
                            (InventoryCommands.reserved row + qty)
                            (InventoryCommands.price row) now]> rm),
              [("inventory_events", DomainEvent e)],
              InventoryCommands.Result true None)
      /\ EventStore.load_events (record e :: es) pid
         = EventStore.load_events es pid ++ [record e]).
Proof.
  intros rm es available record Hrow. subst record.
  unfold InventoryCommands.reserve_inventory. fold rm es. rewrite Hrow. fold available.
  split; intros Hq.
  - destruct (Z.ltb_spec available qty); [|lia].
    rewrite append_event_at_last. split; [done|].
    apply load_events_cons_same. lia.
  - destruct (Z.ltb_spec available qty); [lia|].
    rewrite append_event_at_last. split; [|apply load_events_cons_same; lia].
    simpl. do 3 f_equal.
    assert (alter (InventoryCommands.add_reserved qty now) pid rm
            = <[pid := InventoryCommands.add_reserved qty now row]> rm) as ->; [|done].
    apply map_eq. intros k. rewrite lookup_alter.
    destruct (decide (pid = k)) as [->|]; [by rewrite lookup_insert_eq, Hrow|].
    by rewrite lookup_insert_ne.
Qed.

Lemma reserve_inventory_decides_on_available_witness :
  InventoryCommands.reserve_inventory (inventory_db stock_10) 1000 7 1 10
  = Some (InventoryCommands.Db
            [EventStore.Row 7 "Inventory" (InventoryReserved 7 1 10 1000) 1 1000]
            {[ 7%N := InventoryCommands.InventoryRow "widget" 10 10 (5 # 1) 1000 ]},
          [("inventory_events", DomainEvent (InventoryReserved 7 1 10 1000))],
          InventoryCommands.Result true None).
Proof.
  destruct (reserve_inventory_decides_on_available (inventory_db stock_10) 1000 7 1 10
              (InventoryCommands.InventoryRow "widget" 10 0 (5 # 1) 0))
    as [_ H]; [reflexivity|].
  destruct H as [H _]; [simpl; lia|].
  rewrite H. reflexivity.
Defined.

(** ** Invariant I3 *)

Section ReservedWithinStock.
Import EventStore.

Lemma cmd_release_eq pid oid q w :
  InventoryService.cmd_release pid oid q w
  = (World (order_db w)
           (InventoryCommands.Db
              (Row pid "Inventory" (InventoryReleased pid oid q (clock w))
                   (last_version
                      (load_events (InventoryCommands.event_store (inventory_db w)) pid) + 1)
                   (clock w)
                 :: InventoryCommands.event_store (inventory_db w))
              (alter (InventoryCommands.sub_reserved q (clock w)) pid
                     (InventoryCommands.inventory_read_model (inventory_db w))))
           (redis w ++ [("inventory_events",
                         DomainEvent (InventoryReleased pid oid q (clock w)))])
           (clock w),
     Response 200 "OK").
Proof.
  unfold InventoryService.cmd_release, InventoryCommands.release_inventory.
  by rewrite append_event_at_last.
Qed.

Lemma order_endpoints_keep_inventory c w :
  match c with
  | CreateOrder _ _ _ _ _ _ | ConfirmOrder _ | CancelOrder _ _ => True
  | _ => False
  end ->
  inventory_db (endpoint_of c w).1 = inventory_db w.
Proof.
  destruct c as [oid cn pid pn q tp|oid|oid reason| |]; simpl; [|..|done|done]; intros _.
  - by destruct (cmd_create_order_cases oid cn pid pn q tp w) as [E|[_ E]]; rewrite E.
  - by rewrite cmd_confirm_order_eq.
  - by rewrite cmd_cancel_order_eq.
Qed.

End ReservedWithinStock.

(** Scenario: a release that no reservation matches. *)
Example unmatched_release :
  reserved_of (run_commands stock_10 [(2000, ReleaseInventory 7 1 1)]) 7 = Some (-1).
Proof. vm_compute. reflexivity. Qed.

(** C4, as stated, fails: ReleaseInventory validates nothing, and a release
    on a product with nothing reserved leaves reserved at -1. *)
Lemma I3_at_all_times_counterexample :
  ~ I3_at_all_times stock_10 [(2000, ReleaseInventory 7 1 1)].
Proof.
  unfold I3_at_all_times, I3. intros H.
  assert (map_Forall (fun _ row => within_stock row)
            (InventoryCommands.inventory_read_model (inventory_db stock_10))) as H0.
  { apply map_Forall_singleton. unfold within_stock. simpl. lia. }
  specialize (H H0 7%N (InventoryCommands.InventoryRow "widget" 10 (-1) (5 # 1) 2000)).
  unfold within_stock in H. simpl in H.
  assert (-1 >= 0) by (apply Z.le_ge, H; vm_compute; reflexivity). lia.
Qed.

(** ** The inventory service under interleaving *)

Section ServedAlone.
Import InventoryCommands InventoryRequests EventStore.

(** A request that the service handles alone, the clock standing still, is
    answered as the endpoint answers it and leaves the database the
    endpoint leaves. *)
Lemma reserve_served_alone pid oid qty w :
  let st := run (State (inventory_db w) [])
              [Arrive (clock w) (Reserve pid oid qty);
               Resume (clock w) 0; Resume (clock w) 0; Resume (clock w) 0] in
  database st = inventory_db (InventoryService.cmd_reserve pid oid qty w).1
  /\ coroutines st = [Answered (InventoryService.cmd_reserve pid oid qty w).2].
Proof.
  destruct (cmd_reserve_cases pid oid qty w)
    as [[Hrow E]|[(row & reason & Hrow & Hlt & E)|(row & Hrow & Hle & E)]];
    cbn zeta in E.
  - rewrite E. simpl. rewrite Hrow. simpl. done.
  - pose proof Hlt as Hlt'. unfold available in Hlt'.
    apply Z.ltb_lt in Hlt'.
    unfold InventoryService.cmd_reserve, reserve_inventory in E |- *.
    rewrite Hrow in E |- *. rewrite Hlt' in E |- *.
    rewrite append_event_at_last in E |- *. simpl in E |- *.
    rewrite Hrow. simpl. rewrite Hlt'. rewrite append_event_at_last. simpl. done.
  - pose proof Hle as Hle'. unfold available in Hle'.
    apply Z.ltb_ge in Hle'.
    unfold InventoryService.cmd_reserve, reserve_inventory in E |- *.
    rewrite Hrow in E |- *. rewrite Hle' in E |- *.
    rewrite append_event_at_last in E |- *. simpl in E |- *.
    rewrite Hrow. simpl. rewrite Hle'. rewrite append_event_at_last. simpl. done.
Qed.

Lemma release_served_alone pid oid qty w :
  let st := run (State (inventory_db w) [])
              [Arrive (clock w) (Release pid oid qty);
               Resume (clock w) 0; Resume (clock w) 0] in
  database st = inventory_db (InventoryService.cmd_release pid oid qty w).1
  /\ coroutines st = [Answered (InventoryService.cmd_release pid oid qty w).2].
Proof.
  rewrite cmd_release_eq. simpl. rewrite append_event_at_last. simpl. done.
Qed.

End ServedAlone.

Section OneAtATime.
Import InventoryCommands InventoryRequests.

Lemma on_arrival_prefix ok st schedule rest :
  on_arrival ok st (schedule ++ rest) -> on_arrival ok st schedule.
Proof.
  revert st. induction schedule as [|a schedule IH]; intros st Hs; [done|].
  destruct Hs as [Ha Hs]. split; [exact Ha|]. by apply IH.
Qed.

Lemma answered_true c : answered c = true -> exists r, c = Answered r.
Proof. destruct c; try done. by eexists. Qed.

Lemma idle_answered st i c :
  idle st = true -> coroutines st !! i = Some c -> answered c = true.
Proof.
  unfold idle. rewrite forallb_forall. intros Hall Hc.
  apply Hall, list_elem_of_In. by eapply list_elem_of_lookup_2.
Qed.

Variables (P : db -> Prop) (Q : db -> coroutine -> Prop) (ok : db -> request -> Prop).
Hypothesis Hstart :
  forall session now r, P session -> ok session r -> Q session (start now r).
Hypothesis Hresume :
  forall session time c,
    P session -> Q session c ->
    P (resume time session c).1
    /\ Q (resume time session c).1 (resume time session c).2.
Hypothesis Hanswered : forall session r, Q session (Answered r).

(** What holds of the database when requests do not overlap: an invariant
    [P] that the one request in progress keeps, given what it knows, [Q],
    of the database it read. *)
Lemma one_at_a_time_invariant st schedule :
  P (database st) ->
  (forall i c, coroutines st !! i = Some c -> Q (database st) c) ->
  (forall i j ci cj,
     coroutines st !! i = Some ci -> coroutines st !! j = Some cj ->
     answered ci = false -> answered cj = false -> i = j) ->
  one_at_a_time st schedule ->
  on_arrival (fun st r => ok (database st) r) st schedule ->
  P (database (run st schedule)).
Proof.
  revert st. induction schedule as [|a schedule IH]; intros st HP HQ Hone Hidle Hok;
    [done|].
  destruct Hidle as [Hidle Hrest]. destruct Hok as [Hok Hoks].
  change (run st (a :: schedule)) with (run (step st a) schedule).
  apply IH; [| | |exact Hrest|exact Hoks]; clear IH Hrest Hoks.
  - destruct a as [now r|time i]; simpl; [done|].
    destruct (coroutines st !! i) as [c|] eqn:Hc; [|done].
    pose proof (Hresume (database st) time c HP (HQ i c Hc)) as [HP' _].
    by destruct (resume time (database st) c).
  - destruct a as [now r|time i]; simpl.
    + intros j c Hj. apply lookup_app_Some in Hj as [Hj|[_ Hj]]; [by eapply HQ|].
      apply list_lookup_singleton_Some in Hj as [_ <-]. by apply Hstart.
    + destruct (coroutines st !! i) as [c|] eqn:Hc; [|exact HQ].
      pose proof (Hresume (database st) time c HP (HQ i c Hc)) as [_ HQ'].
      destruct (resume time (database st) c) as [session c'] eqn:E. simpl in *.
      intros j cj Hj.
      destruct (decide (j = i)) as [->|Hne].
      * rewrite list_lookup_insert_eq in Hj by (by eapply lookup_lt_Some).
        by injection Hj as <-.
      * rewrite list_lookup_insert_ne in Hj by done.
        destruct (answered c) eqn:Hac.
        -- apply answered_true in Hac as [r ->]. simpl in E. injection E as <- <-.
           by eapply HQ.
        -- destruct (answered cj) eqn:Hacj.
           ++ apply answered_true in Hacj as [r ->]. apply Hanswered.
           ++ by pose proof (Hone j i cj c Hj Hc Hacj Hac).
  - destruct a as [now r|time i]; simpl.
    + intros j k cj ck Hj Hk Haj Hak.
      apply lookup_app_Some in Hj as [Hj|[Hlj Hj]].
      { pose proof (idle_answered st j cj Hidle Hj). congruence. }
      apply lookup_app_Some in Hk as [Hk|[Hlk Hk]].
      { pose proof (idle_answered st k ck Hidle Hk). congruence. }
      apply list_lookup_singleton_Some in Hj as [Hj _].
      apply list_lookup_singleton_Some in Hk as [Hk _]. lia.
    + destruct (coroutines st !! i) as [c|] eqn:Hc; [|exact Hone].
      destruct (resume time (database st) c) as [session c'] eqn:E. simpl.
      assert (i < length (coroutines st))%nat as Hlt by (by eapply lookup_lt_Some).
      assert (forall j cj,
                <[i:=c']> (coroutines st) !! j = Some cj -> answered cj = false ->
                exists cj', coroutines st !! j = Some cj' /\ answered cj' = false)
        as Hback.
      { intros j cj Hj Haj. destruct (decide (j = i)) as [->|Hne].
        - rewrite list_lookup_insert_eq in Hj by done. injection Hj as <-.
          exists c. split; [done|]. destruct (answered c) eqn:Hac; [|done].
          apply answered_true in Hac as [r ->]. simpl in E. injection E as _ <-.
          done.
        - rewrite list_lookup_insert_ne in Hj by done. by exists cj. }
      intros j k cj ck Hj Hk Haj Hak.
      destruct (Hback j cj Hj Haj) as (cj' & Hj' & Haj').
      destruct (Hback k ck Hk Hak) as (ck' & Hk' & Hak').
      by eapply Hone.
Qed.

End OneAtATime.

Section HonestRequests.
Import InventoryCommands InventoryRequests EventStore.

(** What a request in progress knows of the database it read, when its
    caller is honest and no other request runs. *)
Lemma honest_request_keeps_I3 session time c :
  stock_within session ->
  match c with
  | ReserveSelect _ _ q _ => 0 <= q
  | ReserveLoad pid _ q _ av | ReserveAppend pid _ q _ av _ =>
      0 <= q
      /\ exists row, inventory_read_model session !! pid = Some row
                     /\ av = quantity row - reserved row
  | ReleaseLoad pid _ q _ | ReleaseAppend pid _ q _ _ =>
      0 <= q
      /\ forall row, inventory_read_model session !! pid = Some row -> q <= reserved row
  | Answered _ => True
  end ->
  stock_within (resume time session c).1
  /\ match (resume time session c).2 with
     | ReserveSelect _ _ q _ => 0 <= q
     | ReserveLoad pid _ q _ av | ReserveAppend pid _ q _ av _ =>
         0 <= q
         /\ exists row, inventory_read_model (resume time session c).1 !! pid = Some row
                        /\ av = quantity row - reserved row
     | ReleaseLoad pid _ q _ | ReleaseAppend pid _ q _ _ =>
         0 <= q
         /\ forall row,
              inventory_read_model (resume time session c).1 !! pid = Some row ->
              q <= reserved row
     | Answered _ => True
     end.
Proof.
  intros HI HQ.
  destruct c as [pid oid q now|pid oid q now av|pid oid q now av v|pid oid q now
                |pid oid q now v|r]; simpl.
  - destruct (inventory_read_model session !! pid) as [row|] eqn:Hrow; simpl; [|done].
    split; [done|]. split; [done|]. by exists row.
  - done.
  - destruct HQ as (Hq & row & Hrow & ->).
    destruct (Z.ltb_spec (quantity row - reserved row) q);
      destruct (append_event _ _ _ _ _ _) as [[es ?]|]; simpl; try done.
    split; [|done]. intros k row'. simpl. rewrite lookup_alter.
    destruct (decide (pid = k)) as [<-|]; [|apply HI].
    rewrite Hrow. simpl. intros [= <-]. pose proof (HI pid row Hrow) as Hw.
    unfold within_stock in *. simpl. lia.
  - done.
  - destruct HQ as (Hq & Hr).
    destruct (append_event _ _ _ _ _ _) as [[es ?]|]; simpl; [|done].
    split; [|done]. intros k row'. simpl. rewrite lookup_alter.
    destruct (decide (pid = k)) as [<-|]; [|apply HI].
    destruct (inventory_read_model session !! pid) as [row|] eqn:Hrow; simpl; [|done].
    intros [= <-]. pose proof (HI pid row Hrow) as Hw. specialize (Hr row eq_refl).
    unfold within_stock in *. simpl. lia.
  - done.
Qed.

End HonestRequests.

(** C4, amended. When the requests to the inventory service do not overlap,
    each arriving after every request before it has been answered: from a
    database in which every product satisfies 0 <= reserved <= quantity, at
    every state reached while ReserveInventory and ReleaseInventory requests
    are served, each reservation asking for a quantity that is not negative
    and each release giving back a quantity that is not negative and not
    above the reserved amount of the product when it arrives, every product
    satisfies 0 <= reserved <= quantity, that is, available >= 0. *)
Theorem I3_for_honest_callers_served_one_at_a_time
    (session : InventoryCommands.db) (schedule rest : list InventoryRequests.action) :
  let st := InventoryRequests.State session [] in
  stock_within session ->
  one_at_a_time st (schedule ++ rest) ->
  honest_arrivals st (schedule ++ rest) ->
  stock_within (InventoryRequests.database (InventoryRequests.run st schedule))
  /\ map_Forall (fun _ row => InventoryCommands.available row >= 0)
       (InventoryCommands.inventory_read_model
          (InventoryRequests.database (InventoryRequests.run st schedule))).
Proof.
  intros st HI Hone Hhonest. subst st.
  assert (stock_within
            (InventoryRequests.database
               (InventoryRequests.run (InventoryRequests.State session []) schedule)))
    as H.
  { apply (one_at_a_time_invariant stock_within
             (fun session c =>
                match c with
                | InventoryRequests.ReserveSelect _ _ q _ => 0 <= q
                | InventoryRequests.ReserveLoad pid _ q _ av
                | InventoryRequests.ReserveAppend pid _ q _ av _ =>
                    0 <= q
                    /\ exists row,
                         InventoryCommands.inventory_read_model session !! pid = Some row
                         /\ av = InventoryCommands.quantity row
                                 - InventoryCommands.reserved row
                | InventoryRequests.ReleaseLoad pid _ q _
                | InventoryRequests.ReleaseAppend pid _ q _ _ =>
                    0 <= q
                    /\ forall row,
                         InventoryCommands.inventory_read_model session !! pid = Some row ->
                         q <= InventoryCommands.reserved row
                | InventoryRequests.Answered _ => True
                end)
             honest_request).
    - intros s now [pid oid q|pid oid q] _ Hr; exact Hr.
    - intros s time c. apply honest_request_keeps_I3.
    - done.
    - exact HI.
    - intros i c Hc. simpl in Hc. by rewrite lookup_nil in Hc.
    - intros i j ci cj Hc. simpl in Hc. by rewrite lookup_nil in Hc.
    - by eapply on_arrival_prefix.
    - by eapply on_arrival_prefix. }
  split; [exact H|].
  intros k row Hrow. specialize (H k row Hrow).
  unfold within_stock, InventoryCommands.available in *. lia.
Qed.

Lemma I3_for_honest_callers_served_one_at_a_time_witness :
  stock_within
    (InventoryRequests.database
       (InventoryRequests.run (InventoryRequests.State (inventory_db stock_10) [])
          reserve_then_release)).
Proof.
  apply (I3_for_honest_callers_served_one_at_a_time (inventory_db stock_10)
           reserve_then_release []).
  - apply map_Forall_singleton. unfold within_stock. simpl. lia.
  - vm_compute. repeat split.
  - unfold honest_arrivals. vm_compute. repeat split; try discriminate.
    intros row [= <-]. discriminate.
Defined.

(** ** Invariant I2 *)

Section ContiguousVersions.
Import EventStore.

Lemma contiguous_last_version (l : list row) :
  version <$> l = seqZ 1 (Z.of_nat (length l)) ->
  last_version l = Z.of_nat (length l).
Proof.
  destruct l as [|x l _] using rev_ind; [done|].
  rewrite last_version_snoc, length_app, fmap_app. simpl.
  intros E.
  assert (((version <$> l) ++ [version x]) !! length l
          = seqZ 1 (Z.of_nat (length l + 1)) !! length l) as Hl by (by rewrite E).
  rewrite lookup_app_r, length_fmap, Nat.sub_diag in Hl by (by rewrite length_fmap).
  rewrite lookup_seqZ_lt in Hl by lia. simpl in Hl. injection Hl as ->. lia.
Qed.

(** Appending at the loaded version extends 1..N to 1..N+1. *)
Lemma contiguous_cons t a ty e now :
  contiguous t ->
  contiguous (Row a ty e (last_version (load_events t a) + 1) now :: t).
Proof.
  intros Ht b. destruct (decide (a = b)) as [<-|Hne].
  - rewrite load_events_cons_same by lia.
    rewrite fmap_app, length_app. simpl.
    rewrite (contiguous_last_version _ (Ht a)).
    replace (Z.of_nat (length (load_events t a) + 1))
      with (Z.of_nat (S (length (load_events t a)))) by lia.
    rewrite seqZ_S, <- (Ht a). do 2 f_equal. lia.
  - rewrite load_events_cons_other by done. apply Ht.
Qed.

(** In a contiguous store, version 1 is free only for an aggregate
    without events. *)
Lemma contiguous_first_free t a :
  contiguous t -> violates_unique t a 1 = false -> load_events t a = [].
Proof.
  intros Ht Hfree. destruct (load_events t a) as [|x l] eqn:El; [done|].
  pose proof (Ht a) as Hv. rewrite El in Hv.
  rewrite seqZ_cons in Hv by (simpl; lia). simpl in Hv. injection Hv as Hx _.
  assert (x ∈ load_events t a) as Hin by (rewrite El; apply list_elem_of_here).
  apply elem_of_load_events in Hin as [Hin Ha].
  by rewrite (violates_unique_true t a 1 x Hin Ha Hx) in Hfree.
Qed.

Lemma at_time_order_db now w : order_db (at_time now w) = order_db w.
Proof. done. Qed.

Lemma at_time_inventory_db now w : inventory_db (at_time now w) = inventory_db w.
Proof. done. Qed.

(** One command keeps I2, whatever it answers. *)
Lemma endpoint_keeps_I2 c w : I2 w -> I2 (endpoint_of c w).1.
Proof.
  intros [Ho Hi]. unfold I2.
  destruct c as [oid cn pid pn q tp|oid|oid reason|pid oid q|pid oid q]; simpl.
  - unfold OrderService.cmd_create_order, OrderCommands.create_order, append_event.
    destruct (violates_unique (OrderCommands.event_store (order_db w)) oid (0 + 1))
      eqn:Hfree; simpl; [done|].
    destruct (OrderCommands.orders_read_model (order_db w) !! oid); simpl; [done|].
    split; [|done].
    pose proof (contiguous_cons _ oid "Order"
                  (OrderCreated oid cn pid pn q tp (clock w)) (clock w) Ho) as Hc.
    by rewrite (contiguous_first_free _ _ Ho Hfree) in Hc.
  - rewrite cmd_confirm_order_eq. simpl. split; [by apply contiguous_cons|done].
  - rewrite cmd_cancel_order_eq. simpl. split; [by apply contiguous_cons|done].
  - destruct (cmd_reserve_cases pid oid q w)
      as [[_ E]|[(row & reason & _ & _ & E)|(row & _ & _ & E)]];
      simpl in E; rewrite E; simpl; [done|split; [done|by apply contiguous_cons]..].
  - rewrite cmd_release_eq. simpl. split; [done|by apply contiguous_cons].
Qed.

(** In a contiguous store every version up to the last is taken. *)
Lemma contiguous_taken t a k :
  contiguous t -> 1 <= k <= last_version (load_events t a) ->
  violates_unique t a k = true.
Proof.
  intros Ht Hk. pose proof (Ht a) as Hv.
  rewrite (contiguous_last_version _ Hv) in Hk.
  assert ((version <$> load_events t a) !! Z.to_nat (k - 1) = Some k) as Hl.
  { rewrite Hv, lookup_seqZ_lt by lia. f_equal. lia. }
  rewrite list_lookup_fmap in Hl.
  destruct (load_events t a !! Z.to_nat (k - 1)) as [x|] eqn:Hx; [|done].
  simpl in Hl. injection Hl as Hxk.
  apply list_elem_of_lookup_2, elem_of_load_events in Hx as [Hin Ha].
  by apply (violates_unique_true t a k x).
Qed.

Lemma last_version_nonneg t a : contiguous t -> 0 <= last_version (load_events t a).
Proof. intros Ht. rewrite (contiguous_last_version _ (Ht a)). lia. Qed.

(** A writer holding a stale version fails; one holding the current
    version extends the sequence by one. *)
Lemma stale_or_current t a v ty e now :
  contiguous t -> 0 <= v <= last_version (load_events t a) ->
  (v < last_version (load_events t a) /\ append_event t a ty e v now = None)
  \/ (v = last_version (load_events t a)
      /\ append_event t a ty e v now = Some (Row a ty e (v + 1) now :: t, v + 1)).
Proof.
  intros Ht Hv. destruct (decide (v = last_version (load_events t a))) as [->|Hne].
  - right. split; [done|]. apply append_event_at_last.
  - left. split; [lia|]. unfold append_event.
    by rewrite (contiguous_taken t a (v + 1) Ht) by lia.
Qed.

(** Writers that interleave loads and appends keep the store contiguous. *)
Lemma contiguous_under_interleaving s s' :
  rtc writers_step s s' ->
  contiguous s.1 ->
  Forall (fun w => 0 <= writer_loaded w
                   <= last_version (load_events s.1 (writer_aggregate w))) s.2 ->
  contiguous s'.1.
Proof.
  induction 1 as [s|s1 s2 s3 Hstep _ IH]; [done|]. intros Ht Hws.
  destruct Hstep as [t ws a|t ws a|t ws1 ws2 a v ty e now]; cbn [fst snd] in *.
  - apply IH; [done|]. constructor; [|done]. simpl.
    pose proof (last_version_nonneg t a Ht). lia.
  - apply IH; [done|]. constructor; [|done]. simpl.
    pose proof (last_version_nonneg t a Ht). lia.
  - apply Forall_app in Hws as [Hws1 Hws2]. apply Forall_cons in Hws2 as [Hv Hws2].
    simpl in Hv.
    destruct (stale_or_current t a v ty e now Ht Hv) as [[_ E]|[-> E]];
      apply IH; rewrite E; cbn [from_option fst].
    + done.
    + apply Forall_app. by split.
    + by apply contiguous_cons.
    + apply Forall_app. split.
      * eapply Forall_impl; [exact Hws1|]. intros [b u] Hb. simpl in *.
        destruct (decide (a = b)) as [<-|Hne].
        -- rewrite load_events_cons_same, last_version_snoc by lia. simpl. lia.
        -- by rewrite load_events_cons_other.
      * eapply Forall_impl; [exact Hws2|]. intros [b u] Hb. simpl in *.
        destruct (decide (a = b)) as [<-|Hne].
        -- rewrite load_events_cons_same, last_version_snoc by lia. simpl. lia.
        -- by rewrite load_events_cons_other.
Qed.

End ContiguousVersions.

(** C5. For every aggregate id, after any sequence of commands on a store
    whose versions are contiguous, each command appending at the version it
    loaded (CreateOrder at version 0) and a duplicate (aggregate_id, version)
    failing, the versions loaded form 1..N with no gap, in the order event
    store and in the inventory event store. *)
Theorem I2_after_any_commands (w : world) (cs : list (datetime * command)) :
  I2 w -> I2 (run_commands w cs).
Proof.
  revert w. induction cs as [|[now c] cs IH]; intros w Hw; [done|].
  simpl. apply IH. unfold run_command. simpl.
  apply endpoint_keeps_I2. exact Hw.
Qed.

Example busy_day_versions :
  let w := run_commands stock_10 busy_day in
  EventStore.version <$> EventStore.load_events (OrderCommands.event_store (order_db w)) 1
  = [1; 2; 3]
  /\ EventStore.version
       <$> EventStore.load_events (InventoryCommands.event_store (inventory_db w)) 7
     = [1; 2; 3].
Proof. vm_compute. split; reflexivity. Qed.

Lemma I2_after_any_commands_witness : I2 (run_commands stock_10 busy_day).
Proof.
  apply (I2_after_any_commands stock_10 busy_day).
  split; intros a; reflexivity.
Defined.

(** ** The marketing projector *)

Section Projector.
Import Projections Subscriber.

Lemma insert_do_nothing_lookup `{Countable K} {V} (k : K) (v : V) (m : gmap K V) :
  is_Some (insert_do_nothing k v m !! k).
Proof.
  unfold insert_do_nothing. destruct (m !! k) eqn:E; [by rewrite E|].
  rewrite lookup_insert_eq. by eexists.
Qed.

(** The second INSERT ... ON CONFLICT DO NOTHING of a key meets the row of
    the first and writes nothing. *)
Lemma insert_do_nothing_again `{Countable K} {V} (k : K) (v v' : V) (m : gmap K V) :
  insert_do_nothing k v' (insert_do_nothing k v m) = insert_do_nothing k v m.
Proof.
  unfold insert_do_nothing at 1.
  by destruct (insert_do_nothing_lookup k v m) as [x ->].
Qed.

Lemma handle_order_created session data :
  handle_event session "OrderCreated" data = _project_order_created session data.
Proof. done. Qed.

Lemma handle_order_confirmed session data :
  handle_event session "OrderConfirmed" data = _project_order_confirmed session data.
Proof. done. Qed.

Lemma handle_order_cancelled session data :
  handle_event session "OrderCancelled" data = _project_order_cancelled session data.
Proof. done. Qed.

(** What the OrderCreated handler leaves in the snapshot table. *)
Lemma project_order_created_snapshot session data session' :
  _project_order_created session data = Some session' ->
  exists ts oid cn pid pn qty price,
    timestamp data = Some ts /\ order_id data = Some oid
    /\ customer_name data = Some cn /\ product_id data = Some pid
    /\ product_name data = Some pn /\ quantity data = Some qty
    /\ total_price data = Some price
    /\ marketing_order_snapshot session'
       = insert_do_nothing oid (SnapshotRow cn pid pn qty price PENDING (date ts) ts ts)
           (marketing_order_snapshot session).
Proof.
  unfold _project_order_created.
  destruct (timestamp data) as [ts|]; [|done].
  destruct (order_id data) as [oid|]; [|done].
  destruct (customer_name data) as [cn|]; [|done].
  destruct (product_id data) as [pid|]; [|done].
  destruct (product_name data) as [pn|]; [|done].
  destruct (quantity data) as [qty|]; [|done].
  destruct (total_price data) as [price|]; [|done].
  simpl. intros [= <-]. by eexists _, _, _, _, _, _, _.
Qed.

Lemma project_order_created_again session data session' :
  _project_order_created session data = Some session' ->
  is_Some (_project_order_created session' data).
Proof.
  intros (ts & oid & cn & pid & pn & qty & price & Hts & Ho & Hc & Hp & Hn & Hq & Ht & _)
    %project_order_created_snapshot.
  unfold _project_order_created. rewrite Hts, Ho, Hc, Hp, Hn, Hq, Ht. simpl. by eexists.
Qed.

End Projector.

(** C8. Projecting the same OrderCreated event a second time leaves the
    row of the order in marketing_order_snapshot, and the whole table, as
    the first projection left it: the second insert is a no-op. *)
Theorem order_created_snapshot_idempotent
    (session once : Projections.db) (data : Projections.payload) (oid : UUID) :
  Projections.handle_event session "OrderCreated" data = Some once ->
  Projections.order_id data = Some oid ->
  exists twice,
    Projections.handle_event once "OrderCreated" data = Some twice
    /\ is_Some (Projections.marketing_order_snapshot once !! oid)
    /\ Projections.marketing_order_snapshot twice !! oid
       = Projections.marketing_order_snapshot once !! oid
    /\ Projections.marketing_order_snapshot twice
       = Projections.marketing_order_snapshot once.
Proof.
  rewrite !handle_order_created. intros Honce Hoid.
  destruct (project_order_created_again session data once Honce) as [twice Htwice].
  exists twice. split; [exact Htwice|].
  apply project_order_created_snapshot in Honce
    as (ts & oid1 & cn & pid & pn & qty & price & Hts & Ho & Hc & Hp & Hn & Hq & Ht & E1).
  apply project_order_created_snapshot in Htwice
    as (ts2 & oid2 & cn2 & pid2 & pn2 & qty2 & price2 & Hts2 & Ho2 & _ & _ & _ & _ & _ & E2).
  assert (oid1 = oid) as -> by congruence.
  assert (oid2 = oid) as -> by congruence.
  rewrite E1 in E2. rewrite insert_do_nothing_again in E2. rewrite <- E1 in E2.
  split; [rewrite E1; apply insert_do_nothing_lookup|].
  by rewrite E2.
Qed.

Lemma order_created_snapshot_idempotent_witness :
  exists twice,
    Projections.handle_event projected_once "OrderCreated" order_1_created = Some twice
    /\ is_Some (Projections.marketing_order_snapshot projected_once !! 1%N)
    /\ Projections.marketing_order_snapshot twice !! 1%N
       = Projections.marketing_order_snapshot projected_once !! 1%N
    /\ Projections.marketing_order_snapshot twice
       = Projections.marketing_order_snapshot projected_once.
Proof.
  apply (order_created_snapshot_idempotent empty_marketing projected_once
           order_1_created 1%N); reflexivity.
Defined.

(** The summaries are not idempotent: the second projection counts the
    order again. *)
Example order_created_counted_twice :
  Projections.c_total_orders
    <$> (Projections.customer_summary
           <$> Projections.handle_event projected_once "OrderCreated" order_1_created)
        ≫= (.!! "alice")
  = Some 2.
Proof. vm_compute. reflexivity. Qed.

(** C9. An OrderConfirmed or OrderCancelled event whose order id has no row
    in marketing_order_snapshot mutates no marketing table: the handler
    commits the database as it found it, or raises on an ill-formed time
    stamp and commits nothing. The subscriber goes on with the messages that
    follow, from the same database. *)
Theorem status_event_for_unknown_order
    (database : Projections.db) (ty : string) (data : Projections.payload) (oid : UUID)
    (polls : list Subscriber.polled) :
  ty = "OrderConfirmed" \/ ty = "OrderCancelled" ->
  Projections.order_id data = Some oid ->
  Projections.marketing_order_snapshot database !! oid = None ->
  Projections.handle_event database ty data
  = (if Projections.timestamp data is Some _ then Some database else None)
  /\ Subscriber.run_subscriber database
       (Subscriber.Message (Some (Subscriber.Envelope (Some ty) data)) :: polls)
     = Subscriber.run_subscriber database polls.
Proof.
  intros Hty Hoid Hrow.
  assert (Projections.handle_event database ty data
          = if Projections.timestamp data is Some _ then Some database else None) as E.
  { destruct Hty as [-> | ->].
    - rewrite handle_order_confirmed. unfold Projections._project_order_confirmed.
      destruct (Projections.timestamp data); [|done].
      rewrite Hoid. unfold mbind, option_bind. by rewrite Hrow.
    - rewrite handle_order_cancelled. unfold Projections._project_order_cancelled.
      destruct (Projections.timestamp data); [|done].
      rewrite Hoid. unfold mbind, option_bind. by rewrite Hrow. }
  split; [exact E|].
  simpl. rewrite E. by destruct (Projections.timestamp data).
Qed.

Lemma status_event_for_unknown_order_witness :
  Projections.handle_event empty_marketing "OrderConfirmed" order_1_confirmed
  = Some empty_marketing
  /\ Subscriber.run_subscriber empty_marketing
       [Subscriber.Message
          (Some (Subscriber.Envelope (Some "OrderConfirmed") order_1_confirmed));
        Subscriber.Message
          (Some (Subscriber.Envelope (Some "OrderCreated") order_1_created))]
     = projected_once.
Proof.
  destruct (status_event_for_unknown_order empty_marketing "OrderConfirmed"
              order_1_confirmed 1%N
              [Subscriber.Message
                 (Some (Subscriber.Envelope (Some "OrderCreated") order_1_created))])
    as [H1 H2]; [by left|reflexivity|reflexivity|].
  split; [exact H1|]. rewrite H2. reflexivity.
Defined.

(** The same at the subscriber: a redelivered OrderCreated message, well
    formed or not, leaves the snapshot table as the first delivery left it. *)
Lemma order_created_redelivered (database : Projections.db) (data : Projections.payload) :
  let m := Subscriber.Message (Some (Subscriber.Envelope (Some "OrderCreated") data)) in
  Projections.marketing_order_snapshot (Subscriber.run_subscriber database [m; m])
  = Projections.marketing_order_snapshot (Subscriber.run_subscriber database [m]).
Proof.
  cbn [Subscriber.run_subscriber Subscriber.process Subscriber.event_type Subscriber.data
       mbind option_bind].
  rewrite handle_order_created.
  destruct (Projections._project_order_created database data) as [once|] eqn:Honce.
  - destruct (project_order_created_again database data once Honce) as [twice Htwice].
    cbn [Subscriber.run_subscriber Subscriber.process Subscriber.event_type
         Subscriber.data mbind option_bind].
    rewrite ?handle_order_created, Htwice.
    apply project_order_created_snapshot in Honce
      as (ts & oid & cn & pid & pn & qty & price & Hts & Ho & Hc & Hp & Hn & Hq & Ht & E1).
    apply project_order_created_snapshot in Htwice
      as (ts2 & oid2 & cn2 & pid2 & pn2 & qty2 & price2 & _ & Ho2 & _ & _ & _ & _ & _ & E2).
    assert (oid2 = oid) as -> by congruence.
    by rewrite E2, E1, insert_do_nothing_again.
  - cbn [Subscriber.run_subscriber Subscriber.process Subscriber.event_type
         Subscriber.data mbind option_bind].
    by rewrite ?handle_order_created, ?Honce.
Qed.

(** * Further properties of the code *)

(** ** ORDER BY *)

Section OrderByFacts.
Context {A : Type} (before : A -> A -> bool).

Lemma insert_ordered_perm x l : insert_ordered before x l ≡ₚ x :: l.
Proof.
  induction l as [|y l IH]; simpl; [done|].
  destruct (before y x); [|done].
  rewrite IH. apply Permutation_swap.
Qed.

Lemma order_by_perm l : order_by before l ≡ₚ l.
Proof.
  induction l as [|x l IH]; simpl; [done|].
  by rewrite insert_ordered_perm, IH.
Qed.

Lemma Sorted_weaken (R S : A -> A -> Prop) l :
  (forall a b, R a b -> S a b) -> Sorted R l -> Sorted S l.
Proof.
  intros HRS. induction 1 as [|x l _ IH Hhd]; constructor; [exact IH|].
  destruct Hhd; constructor. by apply HRS.
Qed.

Hypothesis before_total : forall x y, before x y = false -> before y x = true.

Lemma insert_ordered_sorted x l :
  Sorted (fun a b => before a b = true) l ->
  Sorted (fun a b => before a b = true) (insert_ordered before x l).
Proof.
  induction 1 as [|y l Hs IH Hhd]; simpl; [by repeat constructor|].
  destruct (before y x) eqn:Hyx.
  - constructor; [exact IH|].
    destruct Hhd as [|z l' Hyz]; simpl; [by constructor|].
    destruct (before z x); by constructor.
  - constructor; [by constructor|]. constructor. by apply before_total.
Qed.

Lemma order_by_sorted l : Sorted (fun a b => before a b = true) (order_by before l).
Proof.
  induction l; simpl; [constructor|by apply insert_ordered_sorted].
Qed.

End OrderByFacts.

(** ** event_store.py *)

Section EventStoreMore.
Import EventStore.

Lemma order_by_version_order_by l :
  order_by_version l = order_by (fun y x => version y <=? version x) l.
Proof.
  induction l as [|x l IH]; simpl; [done|]. rewrite <- IH. clear IH.
  induction (order_by_version l) as [|y l' IH]; simpl; [done|]. by rewrite IH.
Qed.

Lemma where_aggregate_filter a (t : list row) :
  where_aggregate a t = filter (fun r => aggregate_id r = a) t.
Proof.
  induction t as [|r t IH]; [done|].
  rewrite filter_cons. cbn [where_aggregate].
  destruct (N.eqb_spec (aggregate_id r) a);
    destruct (decide (aggregate_id r = a)); try done; by rewrite IH.
Qed.

End EventStoreMore.

(** X1. [load_events] returns the rows of the aggregate and no other, each
    once, in ascending order of version; it is empty exactly when the table
    holds no row of the aggregate. *)
Theorem load_events_rows_in_order (t : list EventStore.row) (agg_id : UUID) :
  EventStore.load_events t agg_id
    ≡ₚ filter (fun r => EventStore.aggregate_id r = agg_id) t
  /\ StronglySorted by_version (EventStore.load_events t agg_id)
  /\ (EventStore.load_events t agg_id = []
      <-> forall r, r ∈ t -> EventStore.aggregate_id r <> agg_id).
Proof.
  assert (EventStore.load_events t agg_id
            ≡ₚ filter (fun r => EventStore.aggregate_id r = agg_id) t) as Hp.
  { unfold EventStore.load_events.
    by rewrite order_by_version_order_by, order_by_perm, where_aggregate_filter. }
  split; [exact Hp|]. split; [apply order_by_version_sorted|].
  split.
  - intros E r Hr Ha. rewrite E in Hp. symmetry in Hp. apply Permutation_nil_r in Hp.
    assert (r ∈ filter (fun r => EventStore.aggregate_id r = agg_id) t) as Hin
      by (by apply list_elem_of_filter).
    rewrite Hp in Hin. by apply elem_of_nil in Hin.
  - intros Hnone. destruct (EventStore.load_events t agg_id) as [|x l] eqn:E; [done|].
    assert (x ∈ EventStore.load_events t agg_id) as Hin by (rewrite E; apply list_elem_of_here).
    apply elem_of_load_events in Hin as [Hin Ha]. by destruct (Hnone x Hin).
Qed.

(** X2. Of two writers that append to an aggregate at the same expected
    version, the second fails: once [append_event] has inserted version
    [v + 1], every further append at [v] hits the UNIQUE constraint, and what
    can be appended to any other aggregate is as before. *)
Theorem append_event_second_writer_fails
    (t t' : EventStore.table) (agg_id : UUID) (ty : string) (e : event)
    (v v' : Z) (now : datetime) :
  EventStore.append_event t agg_id ty e v now = Some (t', v') ->
  v' = v + 1
  /\ (forall ty2 e2 now2, EventStore.append_event t' agg_id ty2 e2 v now2 = None)
  /\ (forall other ty2 e2 u now2,
        other <> agg_id ->
        is_Some (EventStore.append_event t' other ty2 e2 u now2)
        <-> is_Some (EventStore.append_event t other ty2 e2 u now2)).
Proof.
  unfold EventStore.append_event.
  destruct (EventStore.violates_unique t agg_id (v + 1)) eqn:Hfree; [done|].
  intros [= <- <-]. split; [done|]. split.
  - intros ty2 e2 now2.
    rewrite (violates_unique_true _ agg_id (v + 1)
               (EventStore.Row agg_id ty e (v + 1) now)); [done| |done..].
    apply list_elem_of_here.
  - intros other ty2 e2 u now2 Hne.
    assert (EventStore.violates_unique
              (EventStore.Row agg_id ty e (v + 1) now :: t) other (u + 1)
            = EventStore.violates_unique t other (u + 1)) as ->.
    { unfold EventStore.violates_unique. simpl.
      destruct (N.eqb_spec agg_id other); [congruence|done]. }
    destruct (EventStore.violates_unique t other (u + 1)); [done|].
    split; intros _; by eexists.
Qed.

Lemma append_event_second_writer_fails_witness :
  EventStore.append_event
    [EventStore.Row 1 "Order" (OrderCreated 1 "alice" 7 "widget" 3 (15 # 1) 10) 1 10]
    1 "Order" (OrderCreated 1 "bob" 8 "gadget" 5 (20 # 1) 11) 0 11 = None.
Proof.
  apply (append_event_second_writer_fails [] _ 1 "Order"
           (OrderCreated 1 "alice" 7 "widget" 3 (15 # 1) 10) 0 1 10).
  reflexivity.
Defined.

(** X3. [load_all_events] returns every row of the table once, ordered by
    creation time and, at equal times, by version. *)
Theorem load_all_events_rows_in_order (t : list EventStore.row) :
  load_all_events t ≡ₚ t /\ Sorted by_time_then_version (load_all_events t).
Proof.
  split; [apply order_by_perm|].
  assert (forall x y, earlier_event x y = false -> earlier_event y x = true) as Htotal.
  { intros x y. unfold earlier_event.
    destruct (Z.ltb_spec (EventStore.created_at x) (EventStore.created_at y)),
             (Z.ltb_spec (EventStore.created_at y) (EventStore.created_at x)),
             (Z.eqb_spec (EventStore.created_at x) (EventStore.created_at y)),
             (Z.eqb_spec (EventStore.created_at y) (EventStore.created_at x)),
             (Z.leb_spec (EventStore.version x) (EventStore.version y)),
             (Z.leb_spec (EventStore.version y) (EventStore.version x));
      simpl; try done; lia. }
  eapply Sorted_weaken; [|apply (order_by_sorted earlier_event Htotal)].
  intros a b. unfold earlier_event, by_time_then_version.
  destruct (Z.ltb_spec (EventStore.created_at a) (EventStore.created_at b)),
           (Z.eqb_spec (EventStore.created_at a) (EventStore.created_at b)),
           (Z.leb_spec (EventStore.version a) (EventStore.version b));
    simpl; try done; intros _; lia.
Qed.

(** ** commands.py of the order service *)

Section OrderCommandsMore.
Import EventStore.

Lemma create_order_Some session now oid cn pid pn q tp session' msg agg :
  OrderCommands.create_order session now oid cn pid pn q tp = Some (session', msg, agg) ->
  violates_unique (OrderCommands.event_store session) oid 1 = false
  /\ OrderCommands.orders_read_model session !! oid = None
  /\ session' = OrderCommands.Db
                  (Row oid "Order" (OrderCreated oid cn pid pn q tp now) 1 now
                     :: OrderCommands.event_store session)
                  (<[oid := OrderCommands.OrderRow cn pid pn q tp PENDING now now]>
                     (OrderCommands.orders_read_model session))
  /\ msg = ("order_events", DomainEvent (OrderCreated oid cn pid pn q tp now))
  /\ agg = OrderAggregate.Agg (Some oid) cn (Some pid) pn q tp PENDING 1.
Proof.
  unfold OrderCommands.create_order, append_event.
  destruct (violates_unique (OrderCommands.event_store session) oid (0 + 1)) eqn:Hfree;
    simpl; [done|].
  destruct (OrderCommands.orders_read_model session !! oid) eqn:Hrm; simpl; [done|].
  intros [= <- <- <-]. done.
Qed.

End OrderCommandsMore.

(** X4. An order id can be created once: after a CreateOrder that
    succeeded, which returns the aggregate PENDING at version 1, every further
    CreateOrder for the same id raises, whatever its data, and leaves the
    database alone. *)
Theorem create_order_only_once
    (session session' : OrderCommands.db) (now : datetime) (oid : UUID) (cn : string)
    (pid : UUID) (pn : string) (q : Z) (tp : Q) (msg : published)
    (agg : OrderAggregate.t) :
  OrderCommands.create_order session now oid cn pid pn q tp = Some (session', msg, agg) ->
  OrderAggregate.status agg = PENDING
  /\ OrderAggregate.version agg = 1
  /\ forall now' cn' pid' pn' q' tp',
       OrderCommands.create_order session' now' oid cn' pid' pn' q' tp' = None.
Proof.
  intros (_ & _ & -> & _ & ->)%create_order_Some. do 2 (split; [done|]).
  intros. unfold OrderCommands.create_order, EventStore.append_event. simpl.
  by rewrite N.eqb_refl.
Qed.

Lemma create_order_only_once_witness :
  OrderCommands.create_order
    (OrderCommands.Db
       [EventStore.Row 1 "Order" (OrderCreated 1 "alice" 7 "widget" 3 (15 # 1) 10) 1 10]
       {[ 1%N := OrderCommands.OrderRow "alice" 7 "widget" 3 (15 # 1) PENDING 10 10 ]})
    11 1 "bob" 8 "gadget" 5 (20 # 1) = None.
Proof.
  apply (create_order_only_once order_db_absent _ 10 1 "alice" 7 "widget" 3 (15 # 1)
           ("order_events", DomainEvent (OrderCreated 1 "alice" 7 "widget" 3 (15 # 1) 10))
           (OrderAggregate.Agg (Some 1%N) "alice" (Some 7%N) "widget" 3 (15 # 1) PENDING 1)).
  reflexivity.
Defined.

Section ReadModelInSync.
Import EventStore.

Lemma row_matches_status oid row agg e s now v :
  row_matches oid row agg ->
  (e = OrderConfirmed oid now /\ s = CONFIRMED) \/ (exists reason, e = OrderCancelled oid reason now /\ s = CANCELLED) ->
  row_matches oid (OrderCommands.update_status s now row)
    (OrderAggregate.set_version v (OrderAggregate.apply_event agg e)).
Proof.
  intros (H1 & H2 & H3 & H4 & H5 & H6 & _) [[-> ->]|(reason & -> & ->)];
    repeat split; done.
Qed.

(** A status command keeps the rows in step with the streams. *)
Lemma status_command_keeps_sync w w' oid e s :
  order_db w' = after_status_command (order_db w) (clock w) oid e s ->
  (e = OrderConfirmed oid (clock w) /\ s = CONFIRMED)
  \/ (exists reason, e = OrderCancelled oid reason (clock w) /\ s = CANCELLED) ->
  read_model_in_sync w -> read_model_in_sync w'.
Proof.
  intros E He Hsync k row. unfold order_aggregate. rewrite E. simpl.
  rewrite lookup_alter. destruct (decide (oid = k)) as [<-|Hne].
  - destruct (OrderCommands.orders_read_model (order_db w) !! oid) as [row0|] eqn:Hrow;
      simpl; [|done].
    intros [= <-]. rewrite load_events_cons_same by lia. rewrite from_events_snoc. simpl.
    apply row_matches_status; [by apply Hsync|done].
  - intros Hrow. rewrite load_events_cons_other by done. by apply Hsync.
Qed.

Lemma endpoint_keeps_sync c w :
  I2 w -> read_model_in_sync w -> read_model_in_sync (endpoint_of c w).1.
Proof.
  intros [Ho _] Hsync.
  destruct c as [oid cn pid pn q tp|oid|oid reason|pid oid q|pid oid q]; simpl.
  - unfold OrderService.cmd_create_order.
    destruct (OrderCommands.create_order (order_db w) (clock w) oid cn pid pn q tp)
      as [[[db' msg] agg]|] eqn:E; simpl; [|done].
    apply create_order_Some in E as (Hfree & Hrm & -> & _ & _).
    intros k row. unfold order_aggregate. simpl.
    destruct (decide (oid = k)) as [<-|Hne].
    + rewrite lookup_insert_eq. intros [= <-].
      rewrite load_events_cons_same
        by (rewrite (contiguous_first_free _ _ Ho Hfree); unfold last_version; simpl; lia).
      rewrite (contiguous_first_free _ _ Ho Hfree). simpl. repeat split.
    + rewrite lookup_insert_ne by done. rewrite load_events_cons_other by done.
      apply Hsync.
  - eapply status_command_keeps_sync; [|left; split; reflexivity|exact Hsync].
    by rewrite cmd_confirm_order_eq.
  - eapply status_command_keeps_sync; [|right; eexists; split; reflexivity|exact Hsync].
    by rewrite cmd_cancel_order_eq.
  - destruct (cmd_reserve_cases pid oid q w)
      as [[_ E]|[(row & reason & _ & _ & E)|(row & _ & _ & E)]];
      simpl in E; rewrite E; exact Hsync.
  - rewrite cmd_release_eq. exact Hsync.
Qed.

End ReadModelInSync.

(** X5. The order read model stays in step with the event store: in a
    database whose versions are contiguous and in which every read-model row
    shows what replaying the events of its order gives (id, customer,
    product, quantity, price and status), every history of commands leaves
    every row showing what the replay gives. *)
Theorem read_model_follows_events (w : world) (cs : list (datetime * command)) :
  I2 w -> read_model_in_sync w -> read_model_in_sync (run_commands w cs).
Proof.
  revert w. induction cs as [|[now c] cs IH]; intros w HI Hs; [done|].
  simpl. apply IH; unfold run_command; simpl.
  - by apply endpoint_keeps_I2.
  - by apply endpoint_keeps_sync.
Qed.

Lemma read_model_follows_events_witness :
  read_model_in_sync (run_commands stock_10 busy_day).
Proof.
  apply (read_model_follows_events stock_10 busy_day).
  - split; intros a; reflexivity.
  - intros oid row Hrow. simpl in Hrow. rewrite lookup_empty in Hrow. discriminate.
Defined.

(** ** queries.py of the order service *)

(** X6. What CreateOrder wrote, [get_order] reads back: after a CreateOrder
    that succeeded the query returns the fields submitted, status PENDING and
    both time stamps at the time of the command; before it, the query found
    nothing; the answer for every other order id is unchanged. *)
Theorem get_order_after_create_order
    (session session' : OrderCommands.db) (now : datetime) (oid : UUID) (cn : string)
    (pid : UUID) (pn : string) (q : Z) (tp : Q) (msg : published)
    (agg : OrderAggregate.t) :
  OrderCommands.create_order session now oid cn pid pn q tp = Some (session', msg, agg) ->
  OrderQueries.get_order session oid = None
  /\ OrderQueries.get_order session' oid
     = Some (OrderQueries.OrderView oid cn pid pn q tp PENDING now now)
  /\ forall other, other <> oid ->
       OrderQueries.get_order session' other = OrderQueries.get_order session other.
Proof.
  intros (_ & Hrm & -> & _ & _)%create_order_Some. unfold OrderQueries.get_order. simpl.
  rewrite Hrm, lookup_insert_eq. do 2 (split; [done|]).
  intros other Hne. by rewrite lookup_insert_ne.
Qed.

Lemma get_order_after_create_order_witness :
  OrderQueries.get_order
    (OrderCommands.Db
       [EventStore.Row 1 "Order" (OrderCreated 1 "alice" 7 "widget" 3 (15 # 1) 10) 1 10]
       {[ 1%N := OrderCommands.OrderRow "alice" 7 "widget" 3 (15 # 1) PENDING 10 10 ]}) 1
  = Some (OrderQueries.OrderView 1 "alice" 7 "widget" 3 (15 # 1) PENDING 10 10).
Proof.
  apply (get_order_after_create_order order_db_absent _ 10 1 "alice" 7 "widget" 3 (15 # 1)
           ("order_events", DomainEvent (OrderCreated 1 "alice" 7 "widget" 3 (15 # 1) 10))
           (OrderAggregate.Agg (Some 1%N) "alice" (Some 7%N) "widget" 3 (15 # 1) PENDING 1)).
  reflexivity.
Defined.

(** X7. ConfirmOrder is answered 200 whether or not the read model holds
    the order: the event is appended to the stream of the order at the next
    version and published; for an order the read model does not hold the
    query goes on answering 404, for an order it holds the query then shows
    status CONFIRMED and the time of the command, the other fields as
    before. *)
Theorem status_command_seen_by_query (w : world) (oid : UUID) :
  let answer := OrderService.cmd_confirm_order oid w in
  let stream w := EventStore.load_events (OrderCommands.event_store (order_db w)) oid in
  status_code answer.2 = 200
  /\ stream answer.1
     = stream w ++ [EventStore.Row oid "Order" (OrderConfirmed oid (clock w))
                      (EventStore.last_version (stream w) + 1) (clock w)]
  /\ redis answer.1
     = redis w ++ [("order_events", DomainEvent (OrderConfirmed oid (clock w)))]
  /\ match OrderQueries.query_get_order w oid with
     | (_, None) => OrderQueries.query_get_order answer.1 oid = (404, None)
     | (_, Some order) =>
         OrderQueries.query_get_order answer.1 oid
         = (200, Some (OrderQueries.OrderView oid
                         (OrderQueries.customer_name order)
                         (OrderQueries.product_id order)
                         (OrderQueries.product_name order)
                         (OrderQueries.quantity order)
                         (OrderQueries.total_price order)
                         CONFIRMED
                         (OrderQueries.created_at order) (clock w)))
     end.
Proof.
  intros answer stream. subst answer stream. rewrite cmd_confirm_order_eq.
  cbn [fst snd status_code order_db redis].
  split; [done|]. split; [apply after_status_command_events|]. split; [done|].
  unfold OrderQueries.query_get_order, OrderQueries.get_order. simpl.
  rewrite lookup_alter_eq.
  by destruct (OrderCommands.orders_read_model (order_db w) !! oid).
Qed.

Section ListQueries.

Lemma order_by_strongly_sorted {A} (before : A -> A -> bool) l :
  (forall x y, before x y = false -> before y x = true) ->
  (forall x y z, before x y = true -> before y z = true -> before x z = true) ->
  StronglySorted (fun a b => before a b = true) (order_by before l).
Proof.
  intros Htotal Htrans. apply Sorted_StronglySorted; [|by apply order_by_sorted].
  intros x y z. apply Htrans.
Qed.

Lemma StronglySorted_weaken {A} (R S : A -> A -> Prop) l :
  (forall a b, R a b -> S a b) -> StronglySorted R l -> StronglySorted S l.
Proof.
  intros HRS. induction 1 as [|x l _ IH Hall]; constructor; [exact IH|].
  eapply Forall_impl; [exact Hall|]. intros. by apply HRS.
Qed.

Lemma elem_of_order_by {A} (before : A -> A -> bool) x l :
  x ∈ order_by before l <-> x ∈ l.
Proof. by rewrite order_by_perm. Qed.

Lemma elem_of_views {K} `{Countable K} {V W} (f : K -> V -> W) (m : gmap K V) w :
  w ∈ (fun kv => f kv.1 kv.2) <$> map_to_list m
  <-> exists k v, m !! k = Some v /\ w = f k v.
Proof.
  rewrite list_elem_of_fmap. split.
  - intros ([k v] & -> & Hin). apply elem_of_map_to_list in Hin. by exists k, v.
  - intros (k & v & Hm & ->). exists (k, v). split; [done|]. by apply elem_of_map_to_list.
Qed.

End ListQueries.

(** X8. [list_orders] returns one entry per row of the read model, the
    entry [get_order] returns for that order, newest first. *)
Theorem list_orders_all_newest_first (session : OrderCommands.db) :
  (forall v, v ∈ OrderQueries.list_orders session
             <-> OrderQueries.get_order session (OrderQueries.id v) = Some v)
  /\ length (OrderQueries.list_orders session)
     = size (OrderCommands.orders_read_model session)
  /\ StronglySorted
       (fun a b => OrderQueries.created_at b <= OrderQueries.created_at a)
       (OrderQueries.list_orders session).
Proof.
  unfold OrderQueries.list_orders. split; [|split].
  - intros v. rewrite elem_of_order_by, elem_of_views. unfold OrderQueries.get_order.
    split.
    + intros (k & r & Hm & ->). simpl. by rewrite Hm.
    + destruct (OrderCommands.orders_read_model session !! OrderQueries.id v)
        as [r|] eqn:Hm; [|done].
      simpl. intros [= <-]. by exists (OrderQueries.id v), r.
  - by rewrite order_by_perm, length_fmap, length_map_to_list.
  - eapply StronglySorted_weaken; [|apply order_by_strongly_sorted].
    + intros a b Hab. by apply Z.leb_le.
    + intros x y. unfold OrderQueries.newer_order.
      destruct (Z.leb_spec (OrderQueries.created_at y) (OrderQueries.created_at x)),
               (Z.leb_spec (OrderQueries.created_at x) (OrderQueries.created_at y));
        try done; lia.
    + intros x y z. unfold OrderQueries.newer_order. rewrite !Z.leb_le. lia.
Qed.

(** ** queries.py of the marketing service *)

(** X9. [list_daily_sales] returns at most 30 entries, each the row of its
    day, latest day first, and they are the latest days: every day of the
    table that is left out is older than every day returned. *)
Theorem list_daily_sales_latest_thirty (session : Projections.db) :
  let days := Projections.daily_sales_summary session in
  let l := MarketingQueries.list_daily_sales session in
  length l = Nat.min 30 (size days)
  /\ (forall v, v ∈ l ->
        MarketingQueries.view (MarketingQueries.sale_date v)
          <$> days !! MarketingQueries.sale_date v = Some v)
  /\ StronglySorted
       (fun a b => MarketingQueries.sale_date b <= MarketingQueries.sale_date a) l
  /\ (forall day row v,
        days !! day = Some row -> MarketingQueries.view day row ∉ l -> v ∈ l ->
        day < MarketingQueries.sale_date v).
Proof.
  intros days l. subst l. unfold MarketingQueries.list_daily_sales. fold days.
  set (full := order_by MarketingQueries.later_day
                 ((fun kv => MarketingQueries.view kv.1 kv.2) <$> map_to_list days)).
  assert (forall v, v ∈ full ->
            MarketingQueries.view (MarketingQueries.sale_date v)
              <$> days !! MarketingQueries.sale_date v = Some v) as Hrow.
  { intros v. subst full. rewrite elem_of_order_by, elem_of_views.
    intros (k & r & Hm & ->). simpl. by rewrite Hm. }
  assert (StronglySorted
            (fun a b => MarketingQueries.sale_date b <= MarketingQueries.sale_date a) full)
    as Hsorted.
  { eapply StronglySorted_weaken; [|apply order_by_strongly_sorted].
    - intros a b Hab. by apply Z.leb_le.
    - intros x y. unfold MarketingQueries.later_day.
      destruct (Z.leb_spec (MarketingQueries.sale_date y) (MarketingQueries.sale_date x)),
               (Z.leb_spec (MarketingQueries.sale_date x) (MarketingQueries.sale_date y));
        try done; lia.
    - intros x y z. unfold MarketingQueries.later_day. rewrite !Z.leb_le. lia. }
  assert (forall v, v ∈ take 30 full -> v ∈ full) as Hsub.
  { intros v Hv. rewrite <- (take_drop 30 full). apply elem_of_app. by left. }
  split; [|split; [|split]].
  - rewrite length_take. subst full.
    by rewrite order_by_perm, length_fmap, length_map_to_list.
  - intros v Hv. by apply Hrow, Hsub.
  - rewrite <- (take_drop 30 full) in Hsorted. by apply StronglySorted_app_1_l in Hsorted.
  - intros day row v Hday Hout Hv.
    assert (MarketingQueries.view day row ∈ full) as Hin.
    { subst full. rewrite elem_of_order_by, elem_of_views. by exists day, row. }
    rewrite <- (take_drop 30 full) in Hin, Hsorted.
    apply elem_of_app in Hin as [Hin|Hin]; [done|].
    pose proof (StronglySorted_app_1_elem_of _ _ _ _ _ Hsorted Hv Hin) as Hle.
    simpl in Hle. destruct (decide (day = MarketingQueries.sale_date v)) as [->|]; [|lia].
    pose proof (Hrow v (Hsub v Hv)) as Hv'. rewrite Hday in Hv'. simpl in Hv'.
    injection Hv' as Hv'. by rewrite Hv' in Hout.
Qed.

(** ** commands.py of the inventory service *)

Section InventoryCommandsMore.
Import EventStore.

(** The successful branch of [reserve_inventory], with the stream it leaves. *)
Lemma reserve_inventory_ok session now pid oid qty row :
  InventoryCommands.inventory_read_model session !! pid = Some row ->
  qty <= InventoryCommands.available row ->
  let es := InventoryCommands.event_store session in
  let r := Row pid "Inventory" (InventoryReserved pid oid qty now)
             (last_version (load_events es pid) + 1) now in
  InventoryCommands.reserve_inventory session now pid oid qty
  = Some (InventoryCommands.Db (r :: es)
            (<[pid := InventoryCommands.add_reserved qty now row]>
               (InventoryCommands.inventory_read_model session)),
          [("inventory_events", DomainEvent (InventoryReserved pid oid qty now))],
          InventoryCommands.Result true None)
  /\ load_events (r :: es) pid = load_events es pid ++ [r].
Proof.
  intros Hrow Hq es r. unfold InventoryCommands.reserve_inventory. rewrite Hrow.
  unfold InventoryCommands.available in Hq.
  destruct (Z.ltb_spec (InventoryCommands.quantity row - InventoryCommands.reserved row) qty);
    [lia|].
  rewrite append_event_at_last. split; [|apply load_events_cons_same; lia].
  simpl.
  assert (alter (InventoryCommands.add_reserved qty now) pid
            (InventoryCommands.inventory_read_model session)
          = <[pid := InventoryCommands.add_reserved qty now row]>
              (InventoryCommands.inventory_read_model session)) as ->; [|done].
  apply map_eq. intros k. rewrite lookup_alter.
  destruct (decide (pid = k)) as [->|]; [by rewrite lookup_insert_eq, Hrow|].
  by rewrite lookup_insert_ne.
Qed.

Lemma EventStore_last_version_snoc l r : last_version (l ++ [r]) = version r.
Proof. apply last_version_snoc. Qed.

End InventoryCommandsMore.

(** X10. ReleaseInventory validates nothing, not even the product: for a
    product id the read model does not hold it still returns success,
    appends InventoryReleased at the next version of that id and publishes
    it, and the read model is left as it was. *)
Theorem release_inventory_unknown_product
    (session : InventoryCommands.db) (now : datetime) (pid oid : UUID) (qty : Z) :
  let rm := InventoryCommands.inventory_read_model session in
  let es := InventoryCommands.event_store session in
  let e := InventoryReleased pid oid qty now in
  rm !! pid = None ->
  InventoryCommands.release_inventory session now pid oid qty
  = Some (InventoryCommands.Db
            (EventStore.Row pid "Inventory" e
               (EventStore.last_version (EventStore.load_events es pid) + 1) now :: es)
            rm,
          [("inventory_events", DomainEvent e)],
          InventoryCommands.Result true None).
Proof.
  intros rm es e Hrow. unfold InventoryCommands.release_inventory.
  rewrite append_event_at_last. simpl. fold rm es e.
  assert (alter (InventoryCommands.sub_reserved qty now) pid rm = rm) as ->; [|done].
  apply map_eq. intros k. rewrite lookup_alter.
  destruct (decide (pid = k)) as [<-|]; [by rewrite Hrow|done].
Qed.

Lemma release_inventory_unknown_product_witness :
  InventoryCommands.release_inventory (inventory_db stock_10) 2000 8 1 5
  = Some (InventoryCommands.Db
            [EventStore.Row 8 "Inventory" (InventoryReleased 8 1 5 2000) 1 2000]
            (InventoryCommands.inventory_read_model (inventory_db stock_10)),
          [("inventory_events", DomainEvent (InventoryReleased 8 1 5 2000))],
          InventoryCommands.Result true None).
Proof.
  apply (release_inventory_unknown_product (inventory_db stock_10) 2000 8 1 5).
  reflexivity.
Defined.

(** X11. A release gives back what a reservation took: after a
    ReserveInventory that succeeded, a ReleaseInventory of the same quantity
    on the same product succeeds and leaves the product with the quantity
    and the reserved amount it had before the reservation; no other product
    is touched; the stream of the product gained InventoryReserved and
    InventoryReleased at the next two versions. *)
Theorem release_undoes_reserve
    (session : InventoryCommands.db) (now now' : datetime) (pid oid : UUID) (qty : Z)
    (row : InventoryCommands.inventory_row) :
  let rm := InventoryCommands.inventory_read_model session in
  let stream s := EventStore.load_events (InventoryCommands.event_store s) pid in
  let v := EventStore.last_version (stream session) in
  rm !! pid = Some row ->
  qty <= InventoryCommands.available row ->
  exists reserved released,
    InventoryCommands.reserve_inventory session now pid oid qty
    = Some (reserved, [("inventory_events", DomainEvent (InventoryReserved pid oid qty now))],
            InventoryCommands.Result true None)
    /\ InventoryCommands.release_inventory reserved now' pid oid qty
       = Some (released,
               [("inventory_events", DomainEvent (InventoryReleased pid oid qty now'))],
               InventoryCommands.Result true None)
    /\ InventoryCommands.inventory_read_model released
       = <[pid := InventoryCommands.InventoryRow
                    (InventoryCommands.product_name row) (InventoryCommands.quantity row)
                    (InventoryCommands.reserved row) (InventoryCommands.price row) now']> rm
    /\ stream released
       = stream session
           ++ [EventStore.Row pid "Inventory" (InventoryReserved pid oid qty now) (v + 1) now;
               EventStore.Row pid "Inventory" (InventoryReleased pid oid qty now') (v + 2) now'].
Proof.
  intros rm stream v Hrow Hq.
  destruct (reserve_inventory_ok session now pid oid qty row Hrow Hq) as [E1 Hs1].
  eexists _, _. split; [exact E1|].
  unfold InventoryCommands.release_inventory. rewrite append_event_at_last.
  cbn [InventoryCommands.event_store InventoryCommands.inventory_read_model].
  split; [reflexivity|].
  cbn [InventoryCommands.event_store InventoryCommands.inventory_read_model]. split.
  - apply map_eq. intros k. rewrite lookup_alter.
    destruct (decide (pid = k)) as [<-|Hne].
    + rewrite !lookup_insert_eq. simpl. unfold InventoryCommands.sub_reserved. simpl.
      do 2 f_equal. lia.
    + by rewrite !lookup_insert_ne.
  - subst stream v. cbn beta.
    cbn [InventoryCommands.event_store].
    rewrite load_events_cons_same by lia.
    rewrite Hs1, EventStore_last_version_snoc. cbn [EventStore.version].
    rewrite <- app_assoc. simpl. do 4 f_equal. lia.
Qed.

Lemma release_undoes_reserve_witness :
  exists reserved released,
    InventoryCommands.reserve_inventory (inventory_db stock_10) 2000 7 1 4
    = Some (reserved, [("inventory_events", DomainEvent (InventoryReserved 7 1 4 2000))],
            InventoryCommands.Result true None)
    /\ InventoryCommands.release_inventory reserved 3000 7 1 4
       = Some (released, [("inventory_events", DomainEvent (InventoryReleased 7 1 4 3000))],
               InventoryCommands.Result true None)
    /\ InventoryCommands.inventory_read_model released
       = {[ 7%N := InventoryCommands.InventoryRow "widget" 10 0 (5 # 1) 3000 ]}.
Proof.
  destruct (release_undoes_reserve (inventory_db stock_10) 2000 3000 7 1 4
              (InventoryCommands.InventoryRow "widget" 10 0 (5 # 1) 0))
    as (r1 & r2 & H1 & H2 & H3 & _);
    [reflexivity|unfold InventoryCommands.available; simpl; lia|].
  exists r1, r2. split; [exact H1|]. split; [exact H2|]. rewrite H3. reflexivity.
Defined.

(** ** aggregate.py of the inventory service *)

Section InventoryReplay.
Import EventStore.

Lemma inventory_from_events_snoc l r :
  InventoryAggregate.reserved (InventoryAggregate.from_events (l ++ [r]))
  = InventoryAggregate.reserved
      (InventoryAggregate.apply_event (InventoryAggregate.from_events l) (event_data r)).
Proof. unfold InventoryAggregate.from_events. by rewrite fold_left_app. Qed.

Lemma reserved_tracks_refl w w' pid :
  inventory_db w' = inventory_db w -> reserved_tracks_events w w' pid.
Proof.
  intros E. unfold reserved_tracks_events, replayed_reserved. rewrite E.
  destruct (InventoryCommands.inventory_read_model (inventory_db w) !! pid); [|done].
  repeat split; lia.
Qed.

Lemma reserved_tracks_trans w1 w2 w3 pid :
  reserved_tracks_events w1 w2 pid -> reserved_tracks_events w2 w3 pid ->
  reserved_tracks_events w1 w3 pid.
Proof.
  unfold reserved_tracks_events.
  destruct (InventoryCommands.inventory_read_model (inventory_db w1) !! pid),
           (InventoryCommands.inventory_read_model (inventory_db w2) !! pid),
           (InventoryCommands.inventory_read_model (inventory_db w3) !! pid);
    try done.
  intros (? & ? & ? & ?) (? & ? & ? & ?). repeat split; try congruence. lia.
Qed.

(** The replay after one more event of the product, or of another one. *)
Lemma replayed_reserved_cons w w' a ty e now k :
  InventoryCommands.event_store (inventory_db w')
  = Row a ty e
      (last_version (load_events (InventoryCommands.event_store (inventory_db w)) a) + 1)
      now
    :: InventoryCommands.event_store (inventory_db w) ->
  replayed_reserved w' k
  = if decide (a = k)
    then InventoryAggregate.reserved
           (InventoryAggregate.apply_event
              (InventoryAggregate.from_events
                 (load_events (InventoryCommands.event_store (inventory_db w)) k)) e)
    else replayed_reserved w k.
Proof.
  intros E. unfold replayed_reserved. rewrite E.
  destruct (decide (a = k)) as [<-|Hne].
  - rewrite load_events_cons_same by lia. by rewrite inventory_from_events_snoc.
  - by rewrite load_events_cons_other.
Qed.

Lemma endpoint_tracks c w k : reserved_tracks_events w (endpoint_of c w).1 k.
Proof.
  destruct c as [oid cn pid pn q tp|oid|oid reason|pid oid q|pid oid q].
  - apply reserved_tracks_refl.
    by apply (order_endpoints_keep_inventory (CreateOrder oid cn pid pn q tp)).
  - apply reserved_tracks_refl. by apply (order_endpoints_keep_inventory (ConfirmOrder oid)).
  - apply reserved_tracks_refl.
    by apply (order_endpoints_keep_inventory (CancelOrder oid reason)).
  - simpl.
    destruct (cmd_reserve_cases pid oid q w)
      as [[_ E]|[(row & reason & Hrow & _ & E)|(row & Hrow & _ & E)]];
      simpl in E; rewrite E; clear E; [by apply reserved_tracks_refl|..];
      unfold reserved_tracks_events;
      rewrite (replayed_reserved_cons w _ pid "Inventory" _ (clock w) k) by reflexivity;
      cbn [fst inventory_db InventoryCommands.inventory_read_model].
    + destruct (InventoryCommands.inventory_read_model (inventory_db w) !! k); [|done].
      repeat split. destruct (decide (pid = k)); simpl; unfold replayed_reserved; lia.
    + destruct (decide (pid = k)) as [<-|Hne].
      * rewrite lookup_insert_eq, Hrow. repeat split. simpl. unfold replayed_reserved. lia.
      * rewrite lookup_insert_ne by done.
        destruct (InventoryCommands.inventory_read_model (inventory_db w) !! k); [|done].
        repeat split. lia.
  - simpl. rewrite cmd_release_eq. unfold reserved_tracks_events.
    rewrite (replayed_reserved_cons w _ pid "Inventory" _ (clock w) k) by reflexivity.
    cbn [fst inventory_db InventoryCommands.inventory_read_model].
    rewrite lookup_alter. destruct (decide (pid = k)) as [<-|Hne].
    + destruct (InventoryCommands.inventory_read_model (inventory_db w) !! pid); [|done].
      simpl. repeat split. unfold replayed_reserved. lia.
    + destruct (InventoryCommands.inventory_read_model (inventory_db w) !! k); [|done].
      repeat split. lia.
Qed.

End InventoryReplay.

(** X12. The reserved amount of the read model moves with the event stream:
    over any history of commands, a product keeps its name, quantity and
    price, its reserved amount changes by exactly what the replay of its
    events by the inventory aggregate changes, and no product row appears or
    disappears. *)
Theorem reserved_follows_events (w : world) (cs : list (datetime * command)) (pid : UUID) :
  reserved_tracks_events w (run_commands w cs) pid.
Proof.
  revert w. induction cs as [|[now c] cs IH]; intros w; [by apply reserved_tracks_refl|].
  simpl. eapply reserved_tracks_trans; [|apply IH].
  unfold run_command. simpl.
  eapply reserved_tracks_trans; [|apply endpoint_tracks].
  by apply reserved_tracks_refl.
Qed.

Section NoOversell.
Import InventoryCommands InventoryRequests EventStore.

(** What a request in progress knows of the database it read, when no
    other request runs. *)
Lemma request_keeps_not_oversold session time c :
  not_oversold session ->
  match c with
  | ReserveLoad pid _ _ _ av | ReserveAppend pid _ _ _ av _ =>
      exists row, inventory_read_model session !! pid = Some row
                  /\ av = quantity row - reserved row
  | ReleaseLoad _ _ q _ | ReleaseAppend _ _ q _ _ => 0 <= q
  | ReserveSelect _ _ _ _ | Answered _ => True
  end ->
  not_oversold (resume time session c).1
  /\ match (resume time session c).2 with
     | ReserveLoad pid _ _ _ av | ReserveAppend pid _ _ _ av _ =>
         exists row, inventory_read_model (resume time session c).1 !! pid = Some row
                     /\ av = quantity row - reserved row
     | ReleaseLoad _ _ q _ | ReleaseAppend _ _ q _ _ => 0 <= q
     | ReserveSelect _ _ _ _ | Answered _ => True
     end.
Proof.
  intros HI HQ.
  destruct c as [pid oid q now|pid oid q now av|pid oid q now av v|pid oid q now
                |pid oid q now v|r]; simpl.
  - destruct (inventory_read_model session !! pid) as [row|] eqn:Hrow; simpl; [|done].
    split; [done|]. by exists row.
  - done.
  - destruct HQ as (row & Hrow & ->).
    destruct (Z.ltb_spec (quantity row - reserved row) q);
      destruct (append_event _ _ _ _ _ _) as [[es ?]|]; simpl; try done.
    split; [|done]. intros k row'. simpl. rewrite lookup_alter.
    destruct (decide (pid = k)) as [<-|]; [|apply HI].
    rewrite Hrow. simpl. intros [= <-]. simpl. lia.
  - done.
  - destruct (append_event _ _ _ _ _ _) as [[es ?]|]; simpl; [|done].
    split; [|done]. intros k row'. simpl. rewrite lookup_alter.
    destruct (decide (pid = k)) as [<-|]; [|apply HI].
    destruct (inventory_read_model session !! pid) as [row|] eqn:Hrow; simpl; [|done].
    intros [= <-]. pose proof (HI pid row Hrow) as Hw. simpl in *. lia.
  - done.
Qed.

(** Two reservations that have both read the stock, [available] each. *)
Lemma both_selected session t1 t2 pid oid1 oid2 q1 q2 row :
  inventory_read_model session !! pid = Some row ->
  run (State session [])
    [Arrive t1 (Reserve pid oid1 q1); Arrive t2 (Reserve pid oid2 q2);
     Resume t1 0; Resume t2 1]
  = State session [ReserveLoad pid oid1 q1 t1 (available row);
                   ReserveLoad pid oid2 q2 t2 (available row)].
Proof. intros Hrow. simpl. rewrite Hrow. simpl. by rewrite Hrow. Qed.

Lemma run_resume st time i schedule c session c' :
  coroutines st !! i = Some c ->
  resume time (database st) c = (session, c') ->
  run st (Resume time i :: schedule)
  = run (State session (<[i := c']> (coroutines st))) schedule.
Proof. intros Hc E. simpl. by rewrite Hc, E. Qed.

(** The last step of a reservation that found the stock, when no request
    has appended to the product since it loaded the version. *)
Lemma resume_append_reserved session time pid oid q now av :
  (av <? q) = false ->
  resume time session
    (ReserveAppend pid oid q now av (last_version (load_events (event_store session) pid)))
  = (Db (Row pid "Inventory" (InventoryReserved pid oid q now)
           (last_version (load_events (event_store session) pid) + 1) time
         :: event_store session)
        (alter (add_reserved q now) pid (inventory_read_model session)),
     Answered (Response 200 "OK")).
Proof. intros Hav. simpl. by rewrite Hav, append_event_at_last. Qed.

(** The last step of a reservation whose version was taken in between. *)
Lemma resume_append_conflict session time pid oid q now av v r :
  r ∈ event_store session -> aggregate_id r = pid -> version r = v + 1 ->
  resume time session (ReserveAppend pid oid q now av v)
  = (session, Answered (Response 500 "Internal Server Error")).
Proof.
  intros Hin Hagg Hv. simpl. unfold append_event.
  rewrite (violates_unique_true (event_store session) pid (v + 1) r Hin Hagg Hv).
  by destruct (av <? q).
Qed.

End NoOversell.

(** X13. When the requests to the inventory service do not overlap, stock
    is never oversold: from a database in which no product has more reserved
    than on hand, that stays so at every state reached while reservations
    and releases are served one after the other, each release giving back a
    quantity that is not negative, whatever the reservations ask for and
    whether or not a release matches a reservation. *)
Theorem never_oversold_one_at_a_time
    (session : InventoryCommands.db) (schedule rest : list InventoryRequests.action) :
  let st := InventoryRequests.State session [] in
  not_oversold session ->
  one_at_a_time st (schedule ++ rest) ->
  releases_not_negative st (schedule ++ rest) ->
  not_oversold (InventoryRequests.database (InventoryRequests.run st schedule)).
Proof.
  intros st HI Hone Hrel. subst st.
  apply (one_at_a_time_invariant not_oversold
           (fun session c =>
              match c with
              | InventoryRequests.ReserveLoad pid _ _ _ av
              | InventoryRequests.ReserveAppend pid _ _ _ av _ =>
                  exists row,
                    InventoryCommands.inventory_read_model session !! pid = Some row
                    /\ av = InventoryCommands.quantity row - InventoryCommands.reserved row
              | InventoryRequests.ReleaseLoad _ _ q _
              | InventoryRequests.ReleaseAppend _ _ q _ _ => 0 <= q
              | InventoryRequests.ReserveSelect _ _ _ _
              | InventoryRequests.Answered _ => True
              end)
           (fun _ r => match r with
                       | InventoryRequests.Release _ _ q => 0 <= q
                       | InventoryRequests.Reserve _ _ _ => True
                       end)).
  - intros s now [pid oid q|pid oid q] _ Hr; exact Hr.
  - intros s time c. apply request_keeps_not_oversold.
  - done.
  - exact HI.
  - intros i c Hc. simpl in Hc. by rewrite lookup_nil in Hc.
  - intros i j ci cj Hc. simpl in Hc. by rewrite lookup_nil in Hc.
  - by eapply on_arrival_prefix.
  - unfold releases_not_negative in Hrel. by eapply on_arrival_prefix.
Qed.

Lemma never_oversold_one_at_a_time_witness :
  not_oversold
    (InventoryRequests.database
       (InventoryRequests.run (InventoryRequests.State (inventory_db stock_10) [])
          careless_callers)).
Proof.
  apply (never_oversold_one_at_a_time (inventory_db stock_10) careless_callers []).
  - apply map_Forall_singleton. simpl. lia.
  - vm_compute. repeat split.
  - unfold releases_not_negative. vm_compute. repeat split; discriminate.
Defined.



(** X25. When two overlapping reservations of one product have both loaded
    the version before either appends, the version check catches the
    overlap: the first, asking for no more than is available, is answered
    200 and reserves its quantity; the INSERT of the second hits the UNIQUE
    constraint, whatever the second asks for, and the request is answered
    500 and writes nothing. *)
Theorem overlapping_reservations_conflict
    (session : InventoryCommands.db) (t1 t2 : datetime) (pid oid1 oid2 : UUID)
    (q1 q2 : Z) (row : InventoryCommands.inventory_row) :
  let es := InventoryCommands.event_store session in
  let v := EventStore.last_version (EventStore.load_events es pid) in
  let st := InventoryRequests.run (InventoryRequests.State session [])
              (second_loads_early t1 t2 pid oid1 oid2 q1 q2) in
  InventoryCommands.inventory_read_model session !! pid = Some row ->
  q1 <= InventoryCommands.available row ->
  InventoryRequests.coroutines st
  = [InventoryRequests.Answered (Response 200 "OK");
     InventoryRequests.Answered (Response 500 "Internal Server Error")]
  /\ InventoryRequests.database st
     = InventoryCommands.Db
         (EventStore.Row pid "Inventory" (InventoryReserved pid oid1 q1 t1) (v + 1) t1 :: es)
         (<[pid := InventoryCommands.InventoryRow
                     (InventoryCommands.product_name row) (InventoryCommands.quantity row)
                     (InventoryCommands.reserved row + q1)
                     (InventoryCommands.price row) t1]>
            (InventoryCommands.inventory_read_model session)).
Proof.
  intros es v st Hrow Hq1.
  set (rowA := EventStore.Row pid "Inventory" (InventoryReserved pid oid1 q1 t1) (v + 1) t1).
  set (rm := InventoryCommands.inventory_read_model session) in *.
  assert ((InventoryCommands.available row <? q1) = false) as Hb1 by (apply Z.ltb_ge; lia).
  assert (alter (InventoryCommands.add_reserved q1 t1) pid rm
          = <[pid := InventoryCommands.InventoryRow
                       (InventoryCommands.product_name row) (InventoryCommands.quantity row)
                       (InventoryCommands.reserved row + q1)
                       (InventoryCommands.price row) t1]> rm) as Hrm.
  { apply map_eq. intros k. rewrite lookup_alter.
    destruct (decide (pid = k)) as [<-|]; [by rewrite lookup_insert_eq, Hrow|].
    by rewrite lookup_insert_ne. }
  rewrite <- Hrm.
  assert (st = InventoryRequests.State
                 (InventoryCommands.Db (rowA :: es)
                    (alter (InventoryCommands.add_reserved q1 t1) pid rm))
                 [InventoryRequests.Answered (Response 200 "OK");
                  InventoryRequests.Answered (Response 500 "Internal Server Error")])
    as ->; [|done].
  subst st. unfold second_loads_early.
  change [InventoryRequests.Arrive t1 (InventoryRequests.Reserve pid oid1 q1);
          InventoryRequests.Arrive t2 (InventoryRequests.Reserve pid oid2 q2);
          InventoryRequests.Resume t1 0; InventoryRequests.Resume t2 1;
          InventoryRequests.Resume t1 0; InventoryRequests.Resume t2 1;
          InventoryRequests.Resume t1 0; InventoryRequests.Resume t2 1]
    with ([InventoryRequests.Arrive t1 (InventoryRequests.Reserve pid oid1 q1);
           InventoryRequests.Arrive t2 (InventoryRequests.Reserve pid oid2 q2);
           InventoryRequests.Resume t1 0; InventoryRequests.Resume t2 1]
          ++ [InventoryRequests.Resume t1 0; InventoryRequests.Resume t2 1;
              InventoryRequests.Resume t1 0; InventoryRequests.Resume t2 1]).
  unfold InventoryRequests.run at 1. rewrite fold_left_app.
  fold (InventoryRequests.run (InventoryRequests.State session [])
          [InventoryRequests.Arrive t1 (InventoryRequests.Reserve pid oid1 q1);
           InventoryRequests.Arrive t2 (InventoryRequests.Reserve pid oid2 q2);
           InventoryRequests.Resume t1 0; InventoryRequests.Resume t2 1]).
  rewrite (both_selected session t1 t2 pid oid1 oid2 q1 q2 row Hrow).
  match goal with |- fold_left _ ?s ?st = ?rhs =>
    change (InventoryRequests.run st s = rhs) end.
  erewrite run_resume; [|reflexivity|reflexivity].
  cbn [InventoryRequests.coroutines InventoryRequests.database insert list_insert].
  erewrite run_resume; [|reflexivity|reflexivity].
  cbn [InventoryRequests.coroutines InventoryRequests.database insert list_insert].
  erewrite run_resume;
    [|reflexivity|by apply (resume_append_reserved session t1 pid oid1 q1 t1)].
  cbn [InventoryRequests.coroutines InventoryRequests.database insert list_insert].
  fold es v rowA rm.
  erewrite run_resume;
    [|reflexivity
     |apply (resume_append_conflict _ t2 pid oid2 q2 t2 _ v rowA);
        [apply list_elem_of_here|reflexivity|reflexivity]].
  reflexivity.
Qed.

Lemma overlapping_reservations_conflict_witness :
  InventoryRequests.coroutines
    (InventoryRequests.run (InventoryRequests.State stock_5 [])
       (second_loads_early 2000 2001 7 1 2 3 3))
  = [InventoryRequests.Answered (Response 200 "OK");
     InventoryRequests.Answered (Response 500 "Internal Server Error")].
Proof.
  destruct (overlapping_reservations_conflict stock_5 2000 2001 7 1 2 3 3
              (InventoryCommands.InventoryRow "widget" 5 0 (5 # 1) 0))
    as (H & _); [reflexivity|unfold InventoryCommands.available; simpl; lia|].
  exact H.
Defined.

(** ** orchestrator.py, path by path *)

Section SagaScenarios.
Import OrderSagaOrchestrator EventStore.

Lemma cmd_create_order_new oid cn pid pn q tp w :
  new_order w oid ->
  OrderService.cmd_create_order oid cn pid pn q tp w
  = (World (OrderCommands.Db
              (Row oid "Order" (OrderCreated oid cn pid pn q tp (clock w)) 1 (clock w)
                 :: OrderCommands.event_store (order_db w))
              (<[oid := OrderCommands.OrderRow cn pid pn q tp PENDING (clock w) (clock w)]>
                 (OrderCommands.orders_read_model (order_db w))))
           (inventory_db w)
           (redis w ++ [("order_events",
                         DomainEvent (OrderCreated oid cn pid pn q tp (clock w)))])
           (clock w),
     Response 200 "OK").
Proof.
  intros [Hrm Hfree].
  unfold OrderService.cmd_create_order, OrderCommands.create_order, append_event.
  change (0 + 1) with 1. rewrite Hfree. simpl. by rewrite Hrm.
Qed.

Lemma cmd_create_order_used oid cn pid pn q tp w :
  ~ new_order w oid ->
  OrderService.cmd_create_order oid cn pid pn q tp w
  = (w, Response 500 "Internal Server Error").
Proof.
  intros Hused.
  unfold OrderService.cmd_create_order, OrderCommands.create_order, append_event.
  change (0 + 1) with 1.
  destruct (violates_unique (OrderCommands.event_store (order_db w)) oid 1) eqn:Hfree;
    simpl; [done|].
  destruct (OrderCommands.orders_read_model (order_db w) !! oid) eqn:Hrm; simpl; [done|].
  by destruct Hused.
Qed.

Lemma cmd_reserve_sufficient pid oid qty w row :
  InventoryCommands.inventory_read_model (inventory_db w) !! pid = Some row ->
  qty <= InventoryCommands.available row ->
  let es := InventoryCommands.event_store (inventory_db w) in
  let e := InventoryReserved pid oid qty (clock w) in
  InventoryService.cmd_reserve pid oid qty w
  = (World (order_db w)
           (InventoryCommands.Db
              (Row pid "Inventory" e (last_version (load_events es pid) + 1) (clock w) :: es)
              (<[pid := InventoryCommands.add_reserved qty (clock w) row]>
                 (InventoryCommands.inventory_read_model (inventory_db w))))
           (redis w ++ [("inventory_events", DomainEvent e)])
           (clock w),
     Response 200 "OK").
Proof.
  intros Hrow Hq es e. unfold InventoryService.cmd_reserve.
  destruct (reserve_inventory_ok (inventory_db w) (clock w) pid oid qty row Hrow Hq)
    as [-> _].
  done.
Qed.

Lemma cmd_reserve_insufficient pid oid qty w row :
  InventoryCommands.inventory_read_model (inventory_db w) !! pid = Some row ->
  InventoryCommands.available row < qty ->
  let es := InventoryCommands.event_store (inventory_db w) in
  let e := InventoryReservationFailed pid oid qty (InventoryCommands.available row)
             (clock w) in
  InventoryService.cmd_reserve pid oid qty w
  = (World (order_db w)
           (InventoryCommands.Db
              (Row pid "Inventory" e (last_version (load_events es pid) + 1) (clock w) :: es)
              (InventoryCommands.inventory_read_model (inventory_db w)))
           (redis w ++ [("inventory_events", DomainEvent e)])
           (clock w),
     Response 409
       ("Insufficient stock: requested=" +:+ pretty qty +:+ ", available="
        +:+ pretty (InventoryCommands.available row))).
Proof.
  intros Hrow Hq es e.
  unfold InventoryService.cmd_reserve, InventoryCommands.reserve_inventory.
  rewrite Hrow. unfold InventoryCommands.available in *.
  destruct (Z.ltb_spec (InventoryCommands.quantity row - InventoryCommands.reserved row) qty);
    [|lia].
  by rewrite append_event_at_last.
Qed.

Lemma cmd_reserve_unknown pid oid qty w :
  InventoryCommands.inventory_read_model (inventory_db w) !! pid = None ->
  InventoryService.cmd_reserve pid oid qty w = (w, Response 409 "Product not found").
Proof.
  intros Hrow.
  unfold InventoryService.cmd_reserve, InventoryCommands.reserve_inventory.
  rewrite Hrow. simpl. rewrite app_nil_r. by destruct w.
Qed.

End SagaScenarios.

(** X14. The success path: when the order id is unused, the
    product has at least the quantity available and the three calls are
    delivered, the saga returns success with its three steps COMPLETED, the
    order is CONFIRMED in the read model, reserved has grown by the quantity,
    and the bus carries, in this order, OrderCreated, InventoryReserved,
    OrderConfirmed and SagaCompleted. *)
Theorem saga_succeeds_when_stock_suffices
    (w : world) (oid : UUID) (cn : string) (pid : UUID) (pn : string) (qty : Z) (tp : Q)
    (row : InventoryCommands.inventory_row) :
  let run := OrderSagaOrchestrator.execute all_delivered w oid cn pid pn qty tp in
  let log := OrderSagaOrchestrator.saga_log run.2 in
  new_order w oid ->
  InventoryCommands.inventory_read_model (inventory_db w) !! pid = Some row ->
  qty <= InventoryCommands.available row ->
  OrderSagaOrchestrator.success run.2 = true
  /\ shape log = [(1, "CreateOrder", COMPLETED); (2, "ReserveInventory", COMPLETED);
                  (3, "ConfirmOrder", COMPLETED)]
  /\ read_model_status run.1 oid = Some CONFIRMED
  /\ reserved_of run.1 pid = Some (InventoryCommands.reserved row + qty)
  /\ redis run.1
     = redis w
         ++ [("order_events", DomainEvent (OrderCreated oid cn pid pn qty tp (clock w)));
             ("inventory_events", DomainEvent (InventoryReserved pid oid qty (clock w)));
             ("order_events", DomainEvent (OrderConfirmed oid (clock w)));
             ("saga_events", SagaEvent "SagaCompleted" oid log)].
Proof.
  intros run log Hnew Hrow Hq. subst log run.
  unfold OrderSagaOrchestrator.execute, all_delivered.
  cbn [OrderSagaOrchestrator.post OrderSagaOrchestrator.step1
       OrderSagaOrchestrator.step2 OrderSagaOrchestrator.step3].
  rewrite (cmd_create_order_new oid cn pid pn qty tp w Hnew).
  cbn [OrderSagaOrchestrator.is_success status_code negb andb Z.leb Z.compare
       Pos.compare Pos.compare_cont].
  match goal with
  | |- context [InventoryService.cmd_reserve pid oid qty ?w1] =>
      rewrite (cmd_reserve_sufficient pid oid qty w1 row Hrow Hq)
  end.
  cbn [OrderSagaOrchestrator.is_success status_code negb andb Z.leb Z.compare
       Pos.compare Pos.compare_cont].
  rewrite cmd_confirm_order_eq. unfold OrderSagaOrchestrator._publish_saga_event.
  cbn [fst snd OrderSagaOrchestrator.success OrderSagaOrchestrator.saga_log
       order_db inventory_db redis clock].
  split; [done|]. split; [done|]. split; [|split].
  - unfold read_model_status, after_status_command.
    cbn [order_db OrderCommands.orders_read_model].
    by rewrite lookup_alter_eq, lookup_insert_eq.
  - unfold reserved_of. cbn [inventory_db InventoryCommands.inventory_read_model].
    by rewrite lookup_insert_eq.
  - by rewrite <- !app_assoc.
Qed.

Lemma saga_succeeds_when_stock_suffices_witness :
  let run := OrderSagaOrchestrator.execute all_delivered stock_10 1 "alice" 7 "widget" 10 (50 # 1) in
  OrderSagaOrchestrator.success run.2 = true /\ reserved_of run.1 7 = Some (0 + 10).
Proof.
  destruct (saga_succeeds_when_stock_suffices stock_10 1 "alice" 7 "widget" 10 (50 # 1)
              (InventoryCommands.InventoryRow "widget" 10 0 (5 # 1) 0))
    as (H1 & _ & _ & H4 & _);
    [split; reflexivity|reflexivity|unfold InventoryCommands.available; simpl; lia|].
  split; [exact H1|exact H4].
Defined.

(** X15. The compensation path: when the order id is unused, the
    product has less than the quantity available and the three calls are
    delivered, the saga returns failure, step 2 FAILED with an error recorded
    and the compensation COMPLETED; the order is CANCELLED, the inventory
    read model is unchanged, the stream of the
    product gained one InventoryReservationFailed recording what was
    available, and the bus carries OrderCreated, InventoryReservationFailed,
    OrderCancelled and SagaCompensated in this order. *)
Theorem saga_compensates_when_stock_is_short
    (w : world) (oid : UUID) (cn : string) (pid : UUID) (pn : string) (qty : Z) (tp : Q)
    (row : InventoryCommands.inventory_row) :
  let run := OrderSagaOrchestrator.execute all_delivered w oid cn pid pn qty tp in
  let log := OrderSagaOrchestrator.saga_log run.2 in
  let es := InventoryCommands.event_store (inventory_db w) in
  let failed := InventoryReservationFailed pid oid qty (InventoryCommands.available row)
                  (clock w) in
  new_order w oid ->
  InventoryCommands.inventory_read_model (inventory_db w) !! pid = Some row ->
  InventoryCommands.available row < qty ->
  OrderSagaOrchestrator.success run.2 = false
  /\ shape log = [(1, "CreateOrder", COMPLETED); (2, "ReserveInventory", FAILED);
                  (3, "CancelOrder (COMPENSATING)", COMPLETED)]
  /\ is_Some (error_of_step 1 log)
  /\ read_model_status run.1 oid = Some CANCELLED
  /\ InventoryCommands.inventory_read_model (inventory_db run.1)
     = InventoryCommands.inventory_read_model (inventory_db w)
  /\ InventoryCommands.event_store (inventory_db run.1)
     = EventStore.Row pid "Inventory" failed
         (EventStore.last_version (EventStore.load_events es pid) + 1) (clock w) :: es
  /\ redis run.1
     = redis w
         ++ [("order_events", DomainEvent (OrderCreated oid cn pid pn qty tp (clock w)));
             ("inventory_events", DomainEvent failed);
             ("order_events",
              DomainEvent (OrderCancelled oid "Inventory reservation failed" (clock w)));
             ("saga_events", SagaEvent "SagaCompensated" oid log)].
Proof.
  intros run log es failed Hnew Hrow Hq. subst log run es failed.
  unfold OrderSagaOrchestrator.execute, all_delivered.
  cbn [OrderSagaOrchestrator.post OrderSagaOrchestrator.step1
       OrderSagaOrchestrator.step2 OrderSagaOrchestrator.step3].
  rewrite (cmd_create_order_new oid cn pid pn qty tp w Hnew).
  cbn [OrderSagaOrchestrator.is_success status_code negb andb Z.leb Z.compare
       Pos.compare Pos.compare_cont].
  match goal with
  | |- context [InventoryService.cmd_reserve pid oid qty ?w1] =>
      rewrite (cmd_reserve_insufficient pid oid qty w1 row Hrow Hq)
  end.
  cbn [OrderSagaOrchestrator.is_success status_code negb andb Z.leb Z.compare
       Pos.compare Pos.compare_cont].
  unfold OrderSagaOrchestrator.compensate.
  cbn [OrderSagaOrchestrator.post OrderSagaOrchestrator.step3].
  rewrite cmd_cancel_order_eq. unfold OrderSagaOrchestrator._publish_saga_event.
  cbn [fst snd OrderSagaOrchestrator.success OrderSagaOrchestrator.saga_log
       order_db inventory_db redis clock text].
  split; [done|]. split; [done|]. split; [by eexists|].
  split; [|split; [done|split; [done|]]].
  - unfold read_model_status, after_status_command.
    cbn [order_db OrderCommands.orders_read_model].
    by rewrite lookup_alter_eq, lookup_insert_eq.
  - by rewrite <- !app_assoc.
Qed.

Lemma saga_compensates_when_stock_is_short_witness :
  let run := OrderSagaOrchestrator.execute all_delivered stock_10 1 "alice" 7 "widget" 11 (55 # 1) in
  OrderSagaOrchestrator.success run.2 = false
  /\ read_model_status run.1 1 = Some CANCELLED.
Proof.
  destruct (saga_compensates_when_stock_is_short stock_10 1 "alice" 7 "widget" 11 (55 # 1)
              (InventoryCommands.InventoryRow "widget" 10 0 (5 # 1) 0))
    as (H1 & _ & _ & H4 & _);
    [split; reflexivity|reflexivity|unfold InventoryCommands.available; simpl; lia|].
  split; [exact H1|exact H4].
Defined.

(** X16. A saga for a product that the inventory does not know: when the
    order id is unused and the three calls are delivered, the reservation is
    rejected, the saga cancels the order and returns failure, and the
    inventory database is left as it was, event store included: unlike a
    shortage, an unknown product leaves no InventoryReservationFailed
    behind. *)
Theorem saga_compensates_unknown_product
    (w : world) (oid : UUID) (cn : string) (pid : UUID) (pn : string) (qty : Z) (tp : Q) :
  let run := OrderSagaOrchestrator.execute all_delivered w oid cn pid pn qty tp in
  let log := OrderSagaOrchestrator.saga_log run.2 in
  new_order w oid ->
  InventoryCommands.inventory_read_model (inventory_db w) !! pid = None ->
  OrderSagaOrchestrator.success run.2 = false
  /\ shape log = [(1, "CreateOrder", COMPLETED); (2, "ReserveInventory", FAILED);
                  (3, "CancelOrder (COMPENSATING)", COMPLETED)]
  /\ read_model_status run.1 oid = Some CANCELLED
  /\ inventory_db run.1 = inventory_db w
  /\ redis run.1
     = redis w
         ++ [("order_events", DomainEvent (OrderCreated oid cn pid pn qty tp (clock w)));
             ("order_events",
              DomainEvent (OrderCancelled oid "Inventory reservation failed" (clock w)));
             ("saga_events", SagaEvent "SagaCompensated" oid log)].
Proof.
  intros run log Hnew Hrow. subst log run.
  unfold OrderSagaOrchestrator.execute, all_delivered.
  cbn [OrderSagaOrchestrator.post OrderSagaOrchestrator.step1
       OrderSagaOrchestrator.step2 OrderSagaOrchestrator.step3].
  rewrite (cmd_create_order_new oid cn pid pn qty tp w Hnew).
  cbn [OrderSagaOrchestrator.is_success status_code negb andb Z.leb Z.compare
       Pos.compare Pos.compare_cont].
  match goal with
  | |- context [InventoryService.cmd_reserve pid oid qty ?w1] =>
      rewrite (cmd_reserve_unknown pid oid qty w1 Hrow)
  end.
  cbn [OrderSagaOrchestrator.is_success status_code negb andb Z.leb Z.compare
       Pos.compare Pos.compare_cont].
  unfold OrderSagaOrchestrator.compensate.
  cbn [OrderSagaOrchestrator.post OrderSagaOrchestrator.step3].
  rewrite cmd_cancel_order_eq. unfold OrderSagaOrchestrator._publish_saga_event.
  cbn [fst snd OrderSagaOrchestrator.success OrderSagaOrchestrator.saga_log
       order_db inventory_db redis clock text].
  split; [done|]. split; [done|]. split; [|split; [done|]].
  - unfold read_model_status, after_status_command.
    cbn [order_db OrderCommands.orders_read_model].
    by rewrite lookup_alter_eq, lookup_insert_eq.
  - by rewrite <- !app_assoc.
Qed.

Lemma saga_compensates_unknown_product_witness :
  let run := OrderSagaOrchestrator.execute all_delivered stock_10 1 "alice" 8 "gadget" 1 (5 # 1) in
  OrderSagaOrchestrator.success run.2 = false
  /\ inventory_db run.1 = inventory_db stock_10.
Proof.
  destruct (saga_compensates_unknown_product stock_10 1 "alice" 8 "gadget" 1 (5 # 1))
    as (H1 & _ & _ & H5 & _); [split; reflexivity|reflexivity|].
  split; [exact H1|exact H5].
Defined.

(** X17. A saga for an order id already in use fails at step 1 and touches
    nothing: when the create request is delivered and the order service
    rejects it (the id has a read-model row or a first event), the saga
    returns failure with the single log entry CreateOrder FAILED and its
    error, publishes SagaFailed and nothing else, calls neither the
    inventory service nor
    CancelOrder, and leaves both databases as they were; the order that owns
    the id keeps its status. *)
Theorem saga_fails_on_used_order_id
    (net : OrderSagaOrchestrator.network) (w : world) (oid : UUID) (cn : string)
    (pid : UUID) (pn : string) (qty : Z) (tp : Q) :
  let run := OrderSagaOrchestrator.execute net w oid cn pid pn qty tp in
  let log := OrderSagaOrchestrator.saga_log run.2 in
  ~ new_order w oid ->
  OrderSagaOrchestrator.step1 net = OrderSagaOrchestrator.Delivered ->
  OrderSagaOrchestrator.success run.2 = false
  /\ shape log = [(1, "CreateOrder", FAILED)]
  /\ is_Some (error_of_step 0 log)
  /\ order_db run.1 = order_db w
  /\ inventory_db run.1 = inventory_db w
  /\ redis run.1 = redis w ++ [("saga_events", SagaEvent "SagaFailed" oid log)].
Proof.
  intros run log Hused Hnet. subst log run.
  unfold OrderSagaOrchestrator.execute. rewrite Hnet.
  cbn [OrderSagaOrchestrator.post].
  rewrite (cmd_create_order_used oid cn pid pn qty tp w Hused).
  cbn [OrderSagaOrchestrator.is_success status_code negb andb Z.leb Z.compare
       Pos.compare Pos.compare_cont].
  unfold OrderSagaOrchestrator._publish_saga_event.
  cbn [fst snd OrderSagaOrchestrator.success OrderSagaOrchestrator.saga_log
       order_db inventory_db redis clock].
  repeat split. by eexists.
Qed.

Lemma saga_fails_on_used_order_id_witness :
  let w := run_commands stock_10 [(2000, CreateOrder 1 "alice" 7 "widget" 3 (15 # 1))] in
  let run := OrderSagaOrchestrator.execute all_delivered w 1 "bob" 7 "widget" 2 (10 # 1) in
  OrderSagaOrchestrator.success run.2 = false
  /\ order_db run.1 = order_db w
  /\ inventory_db run.1 = inventory_db w.
Proof.
  destruct (saga_fails_on_used_order_id all_delivered
              (run_commands stock_10 [(2000, CreateOrder 1 "alice" 7 "widget" 3 (15 # 1))])
              1 "bob" 7 "widget" 2 (10 # 1))
    as (H1 & _ & _ & H3 & H4 & _); [|reflexivity|by repeat split].
  intros [Hrm _]. vm_compute in Hrm. discriminate.
Defined.

Section SagaInventoryFrame.
Import OrderSagaOrchestrator EventStore.

Lemma post_create_inventory o oid cn pid pn q tp w :
  let w1 := (post o (OrderService.cmd_create_order oid cn pid pn q tp) w).1 in
  inventory_db w1 = inventory_db w /\ clock w1 = clock w.
Proof.
  simpl. rewrite post_world.
  destruct (cmd_create_order_cases oid cn pid pn q tp w) as [E|[_ E]]; rewrite E;
    by destruct (carried_out o).
Qed.

Lemma post_status_inventory o (h : endpoint) w :
  (forall w, inventory_db (h w).1 = inventory_db w) ->
  inventory_db (post o h w).1 = inventory_db w.
Proof. intros Hh. rewrite post_world. destruct (carried_out o); [apply Hh|done]. Qed.

Lemma post_reserve_inventory o pid oid qty w :
  at_most_one_reservation (inventory_db w)
    (inventory_db (post o (InventoryService.cmd_reserve pid oid qty) w).1)
    (clock w) pid oid qty.
Proof.
  rewrite post_world.
  assert (at_most_one_reservation (inventory_db w)
            (inventory_db (InventoryService.cmd_reserve pid oid qty w).1)
            (clock w) pid oid qty) as H.
  { destruct (cmd_reserve_cases pid oid qty w)
      as [[_ E]|[(row & reason & Hrow & Hlt & E)|(row & Hrow & Hle & E)]];
      simpl in E; rewrite E; [by left|right..].
    - exists row, (InventoryReservationFailed pid oid qty
                     (InventoryCommands.available row) (clock w)).
      split; [done|]. split; [done|]. right. done.
    - exists row, (InventoryReserved pid oid qty (clock w)).
      split; [done|]. split; [done|]. left. done. }
  destruct (carried_out o); [exact H|by left].
Qed.

End SagaInventoryFrame.

(** X18. All a saga ever does to the inventory database is at most one
    reservation: on every path and whatever the network does, the inventory
    database after execute is the one before, or differs by one record at
    the next version of the product, either InventoryReserved with reserved
    raised by the quantity or InventoryReservationFailed with the read model
    unchanged. No path releases stock, changes a quantity on hand or touches
    another product. *)
Theorem saga_reserves_at_most_once
    (net : OrderSagaOrchestrator.network) (w : world) (oid : UUID) (cn : string)
    (pid : UUID) (pn : string) (qty : Z) (tp : Q) :
  at_most_one_reservation (inventory_db w)
    (inventory_db (OrderSagaOrchestrator.execute net w oid cn pid pn qty tp).1)
    (clock w) pid oid qty.
Proof.
  pose proof (post_create_inventory (OrderSagaOrchestrator.step1 net) oid cn pid pn qty tp w)
    as [Hi1 Hc1].
  set (w1 := (OrderSagaOrchestrator.post (OrderSagaOrchestrator.step1 net) _ w).1) in *.
  pose proof (post_reserve_inventory (OrderSagaOrchestrator.step2 net) pid oid qty w1) as H2.
  rewrite Hi1, Hc1 in H2.
  set (w2 := (OrderSagaOrchestrator.post (OrderSagaOrchestrator.step2 net) _ w1).1) in *.
  destruct (execute_paths net w oid cn pid pn qty tp)
    as [(_ & log & E & _)|[(_ & _ & reason & log & E & _)|(_ & _ & log & E & _)]];
    rewrite E; cbn [fst]; rewrite publish_inventory_db.
  - fold w1. rewrite Hi1. by left.
  - rewrite post_status_inventory; [exact H2|].
    intros w'. by rewrite cmd_cancel_order_eq.
  - rewrite post_status_inventory; [exact H2|].
    intros w'. by rewrite cmd_confirm_order_eq.
Qed.

(** ** projections.py and subscriber.py *)

Section ProjectorInvariants.
Import Projections Subscriber.

Lemma upsert_lookup `{Countable K} {V} (k : K) (v : V) (f : V -> V) (m : gmap K V) :
  upsert k v f m !! k = Some (from_option f v (m !! k)).
Proof.
  unfold upsert. destruct (m !! k) eqn:E; simpl; by rewrite lookup_insert_eq.
Qed.

Lemma upsert_lookup_ne `{Countable K} {V} (k k' : K) (v : V) (f : V -> V) (m : gmap K V) :
  k <> k' -> upsert k v f m !! k' = m !! k'.
Proof.
  intros Hne. unfold upsert. destruct (m !! k); by rewrite lookup_insert_ne.
Qed.

Lemma insert_do_nothing_lookup_ne `{Countable K} {V} (k k' : K) (v : V) (m : gmap K V) :
  k <> k' -> insert_do_nothing k v m !! k' = m !! k'.
Proof.
  intros Hne. unfold insert_do_nothing. destruct (m !! k); [done|].
  by rewrite lookup_insert_ne.
Qed.

Lemma insert_do_nothing_present `{Countable K} {V} (k : K) (v x : V) (m : gmap K V) :
  m !! k = Some x -> insert_do_nothing k v m = m.
Proof. intros E. unfold insert_do_nothing. by rewrite E. Qed.

(** A pair of another product does not change the count of a product. *)
Lemma count_customers_other (pid pid' : UUID) (cn : string) (s : gset (UUID * string)) :
  pid <> pid' ->
  count_customers pid' ({[ (pid, cn) ]} ∪ s) = count_customers pid' s.
Proof.
  intros Hne. destruct (decide ((pid, cn) ∈ s)) as [Hin|Hout].
  - assert ({[ (pid, cn) ]} ∪ s = s) as ->; [|done].
    by apply subseteq_union_1_L, singleton_subseteq_l.
  - unfold count_customers. rewrite (elements_union_singleton s (pid, cn) Hout).
    rewrite filter_cons. simpl. by destruct (decide (pid = pid')).
Qed.

(** The fields of the handlers' results, when they return. *)
Lemma project_order_created_Some session data session' :
  _project_order_created session data = Some session' ->
  exists ts oid cn pid pn qty price,
    timestamp data = Some ts /\ order_id data = Some oid
    /\ customer_name data = Some cn /\ product_id data = Some pid
    /\ product_name data = Some pn /\ quantity data = Some qty
    /\ total_price data = Some price
    /\ marketing_order_snapshot session'
       = insert_do_nothing oid (SnapshotRow cn pid pn qty price PENDING (date ts) ts ts)
           (marketing_order_snapshot session)
    /\ product_customer_map session' = {[ (pid, cn) ]} ∪ product_customer_map session
    /\ (forall k, k <> pid ->
          product_popularity session' !! k = product_popularity session !! k)
    /\ (exists row, product_popularity session' !! pid = Some row
          /\ p_unique_customers row
             = count_customers pid ({[ (pid, cn) ]} ∪ product_customer_map session)).
Proof.
  unfold _project_order_created.
  destruct (timestamp data) as [ts|]; [|done].
  destruct (order_id data) as [oid|]; [|done].
  destruct (customer_name data) as [cn|]; [|done].
  destruct (product_id data) as [pid|]; [|done].
  destruct (product_name data) as [pn|]; [|done].
  destruct (quantity data) as [qty|]; [|done].
  destruct (total_price data) as [price|]; [|done].
  cbn [mbind option_bind]. intros [= <-]. exists ts, oid, cn, pid, pn, qty, price.
  do 7 (split; [done|]).
  cbn [marketing_order_snapshot product_customer_map product_popularity].
  split; [done|]. split; [done|]. split.
  - intros k Hk. by rewrite lookup_alter_ne, upsert_lookup_ne.
  - rewrite lookup_alter_eq, upsert_lookup. simpl. eexists. split; [done|]. done.
Qed.

Lemma project_status_Some session data s session' :
  (s = CONFIRMED /\ _project_order_confirmed session data = Some session')
  \/ (s = CANCELLED /\ _project_order_cancelled session data = Some session') ->
  exists ts oid,
    timestamp data = Some ts /\ order_id data = Some oid
    /\ product_customer_map session' = product_customer_map session
    /\ match marketing_order_snapshot session !! oid with
       | None => session' = session
       | Some order =>
           marketing_order_snapshot session'
           = alter (set_snapshot_status s ts) oid (marketing_order_snapshot session)
           /\ forall k row',
                product_popularity session' !! k = Some row' ->
                exists row, product_popularity session !! k = Some row
                  /\ p_unique_customers row' = p_unique_customers row
       end.
Proof.
  intros [[-> E]|[-> E]]; revert E;
    unfold _project_order_confirmed, _project_order_cancelled;
    (destruct (timestamp data) as [ts|]; [|done]);
    (destruct (order_id data) as [oid|]; [|done]);
    cbn [mbind option_bind];
    (destruct (marketing_order_snapshot session !! oid) as [order|] eqn:Ho);
    intros [= <-]; exists ts, oid; rewrite Ho; repeat split; try done.
  - intros k row'. cbn [product_popularity]. rewrite lookup_alter.
    destruct (decide (s_product_id order = k)) as [<-|]; [|by eauto].
    destruct (product_popularity session !! s_product_id order) as [row|]; [|done].
    simpl. intros [= <-]. by exists row.
  - intros k row'. cbn [product_popularity]. by eauto.
Qed.

Lemma handle_event_cases session ty data session' :
  handle_event session ty data = Some session' ->
  (ty = "OrderCreated" /\ _project_order_created session data = Some session')
  \/ (ty = "OrderConfirmed" /\ _project_order_confirmed session data = Some session')
  \/ (ty = "OrderCancelled" /\ _project_order_cancelled session data = Some session')
  \/ session' = session.
Proof.
  unfold handle_event.
  destruct (String.eqb_spec ty "OrderCreated") as [->|]; [by left|].
  destruct (String.eqb_spec ty "OrderConfirmed") as [->|]; [by right; left|].
  destruct (String.eqb_spec ty "OrderCancelled") as [->|]; [by right; right; left|].
  intros [= <-]. by right; right; right.
Qed.

(** An invariant of [handle_event] is one of the subscriber loop. *)
Lemma run_subscriber_invariant (P : db -> Prop) :
  (forall session ty data session',
     P session -> handle_event session ty data = Some session' -> P session') ->
  forall polls database, P database -> P (run_subscriber database polls).
Proof.
  intros Hstep. induction polls as [|[|doc] polls IH]; intros database HP; simpl; [done|by apply IH|].
  destruct (process database doc) as [database'|] eqn:E; [|by apply IH].
  apply IH. unfold process in E. destruct doc as [e|]; [|done]. simpl in E.
  destruct (event_type e) as [ty|]; [|by injection E as <-].
  by eapply Hstep.
Qed.

Lemma handle_event_keeps_counted session ty data session' :
  unique_customers_counted session ->
  handle_event session ty data = Some session' ->
  unique_customers_counted session'.
Proof.
  intros Hc E.
  apply handle_event_cases in E as [[_ E]|[[_ E]|[[_ E]| ->]]]; [| | |done].
  - apply project_order_created_Some in E
      as (ts & oid & cn & pid & pn & qty & price & _ & _ & _ & _ & _ & _ & _ & _
          & Hmap & Hother & row & Hrow & Hcount).
    intros k row' Hk. rewrite Hmap. destruct (decide (k = pid)) as [->|Hne].
    + rewrite Hrow in Hk. by injection Hk as <-.
    + rewrite Hother in Hk by done. rewrite count_customers_other by done. by apply Hc.
  - assert (exists ts oid, timestamp data = Some ts /\ order_id data = Some oid
              /\ product_customer_map session' = product_customer_map session
              /\ match marketing_order_snapshot session !! oid with
                 | None => session' = session
                 | Some order =>
                     marketing_order_snapshot session'
                     = alter (set_snapshot_status CONFIRMED ts) oid
                         (marketing_order_snapshot session)
                     /\ forall k row',
                          product_popularity session' !! k = Some row' ->
                          exists row, product_popularity session !! k = Some row
                            /\ p_unique_customers row' = p_unique_customers row
                 end) as (ts & oid & _ & _ & Hmap & Hrest)
      by (apply project_status_Some; by left).
    destruct (marketing_order_snapshot session !! oid); [|by subst].
    destruct Hrest as [_ Hrows]. intros k row' Hk. rewrite Hmap.
    destruct (Hrows k row' Hk) as (row & Hrow & ->). by apply Hc.
  - assert (exists ts oid, timestamp data = Some ts /\ order_id data = Some oid
              /\ product_customer_map session' = product_customer_map session
              /\ match marketing_order_snapshot session !! oid with
                 | None => session' = session
                 | Some order =>
                     marketing_order_snapshot session'
                     = alter (set_snapshot_status CANCELLED ts) oid
                         (marketing_order_snapshot session)
                     /\ forall k row',
                          product_popularity session' !! k = Some row' ->
                          exists row, product_popularity session !! k = Some row
                            /\ p_unique_customers row' = p_unique_customers row
                 end) as (ts & oid & _ & _ & Hmap & Hrest)
      by (apply project_status_Some; by right).
    destruct (marketing_order_snapshot session !! oid); [|by subst].
    destruct Hrest as [_ Hrows]. intros k row' Hk. rewrite Hmap.
    destruct (Hrows k row' Hk) as (row & Hrow & ->). by apply Hc.
Qed.

End ProjectorInvariants.

(** X19. unique_customers is the number of customers recorded for the
    product: when every row of product_popularity carries the count of the
    pairs that product_customer_map holds for its product, that stays so
    after any sequence of polls of the subscriber, whatever the messages
    are. *)
Theorem unique_customers_stay_counted
    (database : Projections.db) (polls : list Subscriber.polled) :
  unique_customers_counted database ->
  unique_customers_counted (Subscriber.run_subscriber database polls).
Proof.
  apply (run_subscriber_invariant unique_customers_counted).
  intros session ty data session'. apply handle_event_keeps_counted.
Qed.

Lemma unique_customers_stay_counted_witness :
  unique_customers_counted
    (Subscriber.run_subscriber empty_marketing
       [Subscriber.Message
          (Some (Subscriber.Envelope (Some "OrderCreated") order_1_created));
        Subscriber.NoMessage;
        Subscriber.Message
          (Some (Subscriber.Envelope (Some "OrderConfirmed") order_1_confirmed))]).
Proof.
  apply unique_customers_stay_counted.
  intros pid row Hrow. simpl in Hrow. rewrite lookup_empty in Hrow. discriminate.
Defined.

Section ProjectorMore.
Import Projections Subscriber.

Lemma run_subscriber_app database polls1 polls2 :
  run_subscriber database (polls1 ++ polls2)
  = run_subscriber (run_subscriber database polls1) polls2.
Proof.
  revert database. induction polls1 as [|[|doc] polls1 IH]; intros database; simpl;
    [done|apply IH|].
  destruct (process database doc); apply IH.
Qed.

Lemma passed_over_skip database p polls :
  passed_over p -> run_subscriber database (p :: polls) = run_subscriber database polls.
Proof.
  destruct p as [|[e|]]; simpl; [done| |done].
  destruct (event_type e) as [ty|]; [|done].
  intros [(H1 & H2 & H3)|Hts].
  - unfold handle_event.
    destruct (String.eqb_spec ty "OrderCreated"); [done|].
    destruct (String.eqb_spec ty "OrderConfirmed"); [done|].
    by destruct (String.eqb_spec ty "OrderCancelled").
  - unfold handle_event, _project_order_created, _project_order_confirmed,
      _project_order_cancelled. rewrite Hts. simpl.
    destruct (String.eqb ty "OrderCreated"); [done|].
    destruct (String.eqb ty "OrderConfirmed"); [done|].
    by destruct (String.eqb ty "OrderCancelled").
Qed.

Lemma same_order_refl o : same_order o o.
Proof. by repeat split. Qed.

Lemma handle_event_keeps_order session ty data session' oid o :
  (exists o', marketing_order_snapshot session !! oid = Some o' /\ same_order o' o) ->
  handle_event session ty data = Some session' ->
  exists o', marketing_order_snapshot session' !! oid = Some o' /\ same_order o' o.
Proof.
  intros (o1 & Ho1 & Hsame) E.
  apply handle_event_cases in E as [[_ E]|[[-> E]|[[-> E]| ->]]]; [| | |by eauto].
  - apply project_order_created_Some in E
      as (ts & oid1 & cn & pid & pn & qty & price & _ & _ & _ & _ & _ & _ & _ & Hsnap & _).
    exists o1. split; [|done]. rewrite Hsnap.
    destruct (decide (oid1 = oid)) as [->|Hne].
    + by rewrite (insert_do_nothing_present _ _ o1).
    + by rewrite insert_do_nothing_lookup_ne.
  - destruct (project_status_Some session data CONFIRMED session')
      as (ts & oid2 & _ & _ & _ & Hrest); [by left|].
    destruct (marketing_order_snapshot session !! oid2) as [o2|] eqn:Ho2;
      [|subst; by eauto].
    destruct Hrest as [-> _]. rewrite lookup_alter.
    destruct (decide (oid2 = oid)) as [->|]; [|by eauto].
    rewrite Ho1. simpl. eexists. split; [done|].
    destruct Hsame as (?&?&?&?&?&?&?). by repeat split.
  - destruct (project_status_Some session data CANCELLED session')
      as (ts & oid2 & _ & _ & _ & Hrest); [by right|].
    destruct (marketing_order_snapshot session !! oid2) as [o2|] eqn:Ho2;
      [|subst; by eauto].
    destruct Hrest as [-> _]. rewrite lookup_alter.
    destruct (decide (oid2 = oid)) as [->|]; [|by eauto].
    rewrite Ho1. simpl. eexists. split; [done|].
    destruct Hsame as (?&?&?&?&?&?&?). by repeat split.
Qed.

(** One delivery of OrderConfirmed for an order the snapshot holds. *)
Lemma project_order_confirmed_known session data oid ts o :
  order_id data = Some oid -> timestamp data = Some ts ->
  marketing_order_snapshot session !! oid = Some o ->
  handle_event session "OrderConfirmed" data
  = Some (Db (alter (set_snapshot_status CONFIRMED ts) oid (marketing_order_snapshot session))
             (alter (fun r => CustomerRow (c_total_orders r) (c_confirmed_orders r + 1)
                                (c_cancelled_orders r) (c_total_revenue r)
                                (c_avg_order_value r) (c_first_order_at r)
                                (c_last_order_at r) ts)
                    (s_customer_name o) (customer_summary session))
             (alter (fun r => ProductRow (p_product_name r) (p_total_units_ordered r)
                                (p_confirmed_units r + s_quantity o)
                                (p_total_order_count r) (p_confirmed_order_count r + 1)
                                (p_total_revenue r) (p_unique_customers r) ts)
                    (s_product_id o) (product_popularity session))
             (product_customer_map session)
             (alter (fun r => DailyRow (d_total_orders r) (d_confirmed_orders r + 1)
                                (d_cancelled_orders r) (d_total_revenue r)
                                (d_avg_order_value r) ts)
                    (s_order_date o) (daily_sales_summary session))).
Proof.
  intros Ho Hts Hsnap. rewrite handle_order_confirmed.
  unfold _project_order_confirmed. rewrite Hts, Ho. cbn [mbind option_bind].
  by rewrite Hsnap.
Qed.

End ProjectorMore.

(** X20. OrderConfirmed is counted at every delivery: for an order the
    snapshot holds, whatever its status, the handler reads customer, product,
    quantity and date from the snapshot row and adds to the confirmed
    counters without looking at the status, so that the same event delivered
    twice leaves the snapshot CONFIRMED and the counters of the customer and
    of the day raised by 2, the confirmed units of the product by twice the
    quantity. *)
Theorem order_confirmed_counted_per_delivery
    (session : Projections.db) (data : Projections.payload) (oid : UUID)
    (ts : datetime) (o : Projections.snapshot_row) :
  Projections.order_id data = Some oid ->
  Projections.timestamp data = Some ts ->
  Projections.marketing_order_snapshot session !! oid = Some o ->
  exists once twice,
    Projections.handle_event session "OrderConfirmed" data = Some once
    /\ Projections.handle_event once "OrderConfirmed" data = Some twice
    /\ Projections.marketing_order_snapshot twice !! oid
       = Some (Projections.set_snapshot_status CONFIRMED ts o)
    /\ Projections.c_confirmed_orders
         <$> Projections.customer_summary twice !! Projections.s_customer_name o
       = (fun r => Projections.c_confirmed_orders r + 2)
           <$> Projections.customer_summary session !! Projections.s_customer_name o
    /\ Projections.p_confirmed_units
         <$> Projections.product_popularity twice !! Projections.s_product_id o
       = (fun r => Projections.p_confirmed_units r + 2 * Projections.s_quantity o)
           <$> Projections.product_popularity session !! Projections.s_product_id o
    /\ Projections.d_confirmed_orders
         <$> Projections.daily_sales_summary twice !! Projections.s_order_date o
       = (fun r => Projections.d_confirmed_orders r + 2)
           <$> Projections.daily_sales_summary session !! Projections.s_order_date o.
Proof.
  intros Ho Hts Hsnap.
  eexists _, _. split; [by apply (project_order_confirmed_known session data oid ts o)|].
  split.
  { apply (project_order_confirmed_known _ data oid ts
             (Projections.set_snapshot_status CONFIRMED ts o)); [done..|].
    cbn [Projections.marketing_order_snapshot]. by rewrite lookup_alter_eq, Hsnap. }
  cbn [Projections.marketing_order_snapshot Projections.customer_summary
       Projections.product_popularity Projections.daily_sales_summary
       Projections.set_snapshot_status Projections.s_customer_name
       Projections.s_product_id Projections.s_quantity Projections.s_order_date].
  rewrite !lookup_alter_eq, Hsnap. split; [done|].
  destruct (Projections.customer_summary session !! Projections.s_customer_name o);
    destruct (Projections.product_popularity session !! Projections.s_product_id o);
    destruct (Projections.daily_sales_summary session !! Projections.s_order_date o);
    simpl; repeat split; f_equal; lia.
Qed.

Lemma order_confirmed_counted_per_delivery_witness :
  exists once twice,
    Projections.handle_event projected_once "OrderConfirmed" order_1_confirmed = Some once
    /\ Projections.handle_event once "OrderConfirmed" order_1_confirmed = Some twice
    /\ Projections.c_confirmed_orders <$> Projections.customer_summary twice !! "alice"
       = Some 2.
Proof.
  destruct (order_confirmed_counted_per_delivery projected_once order_1_confirmed 1 2000
              (Projections.SnapshotRow "alice" 7 "widget" 3 (15 # 1) PENDING
                 (Projections.date 1000) 1000 1000))
    as (once & twice & H1 & H2 & _ & Hc & _); [reflexivity..|].
  exists once, twice. split; [exact H1|]. split; [exact H2|]. exact Hc.
Defined.

(** X21. A snapshot row is never removed and its order never rewritten: a
    row that marketing_order_snapshot holds is still there after any sequence
    of polls, with the customer, product, quantity, price, order date and
    creation time it had; a later OrderCreated with the same order id and
    other data does not replace it, and status events change status and
    update time only. *)
Theorem snapshot_order_is_kept
    (database : Projections.db) (polls : list Subscriber.polled) (oid : UUID)
    (o : Projections.snapshot_row) :
  Projections.marketing_order_snapshot database !! oid = Some o ->
  exists o',
    Projections.marketing_order_snapshot (Subscriber.run_subscriber database polls) !! oid
    = Some o'
    /\ same_order o' o.
Proof.
  intros Ho.
  apply (run_subscriber_invariant
           (fun db => exists o', Projections.marketing_order_snapshot db !! oid = Some o'
                                 /\ same_order o' o)).
  - intros session ty data session' HP E. by eapply handle_event_keeps_order.
  - exists o. split; [done|apply same_order_refl].
Qed.

Lemma snapshot_order_is_kept_witness :
  exists o',
    Projections.marketing_order_snapshot
      (Subscriber.run_subscriber projected_once
         [Subscriber.Message
            (Some (Subscriber.Envelope (Some "OrderCreated")
                     (Projections.Payload (Some 1%N) (Some "bob") (Some 8%N)
                        (Some "gadget") (Some 5) (Some (20 # 1)) (Some 3000))));
          Subscriber.Message
            (Some (Subscriber.Envelope (Some "OrderCancelled") order_1_confirmed))]) !! 1%N
    = Some o'
    /\ same_order o'
         (Projections.SnapshotRow "alice" 7 "widget" 3 (15 # 1) PENDING
            (Projections.date 1000) 1000 1000).
Proof.
  apply snapshot_order_is_kept. reflexivity.
Defined.

(** X22. What the subscriber passes over: a poll that timed out, a message
    that is not JSON, a document without event type or with a type that has
    no handler, and an event whose time stamp is missing or unreadable (the
    handler raises, the exception is caught) change nothing, and the loop
    goes on with the polls that follow from the database it had. *)
Theorem subscriber_passes_over
    (database : Projections.db) (skipped polls : list Subscriber.polled) :
  Forall passed_over skipped ->
  Subscriber.run_subscriber database (skipped ++ polls)
  = Subscriber.run_subscriber database polls.
Proof.
  induction 1 as [|p skipped Hp _ IH]; [done|].
  rewrite <- app_comm_cons. by rewrite passed_over_skip.
Qed.

Lemma subscriber_passes_over_witness :
  Subscriber.run_subscriber projected_once
    ([Subscriber.NoMessage;
      Subscriber.Message None;
      Subscriber.Message (Some (Subscriber.Envelope None order_1_confirmed));
      Subscriber.Message
        (Some (Subscriber.Envelope (Some "SagaCompleted") order_1_confirmed));
      Subscriber.Message
        (Some (Subscriber.Envelope (Some "OrderCreated")
                 (Projections.Payload (Some 2%N) (Some "bob") (Some 8%N) (Some "gadget")
                    (Some 5) (Some (20 # 1)) None)))]
     ++ [Subscriber.Message
           (Some (Subscriber.Envelope (Some "OrderConfirmed") order_1_confirmed))])
  = Subscriber.run_subscriber projected_once
      [Subscriber.Message
         (Some (Subscriber.Envelope (Some "OrderConfirmed") order_1_confirmed))].
Proof.
  apply subscriber_passes_over.
  apply Forall_cons; split; [exact I|].
  apply Forall_cons; split; [exact I|].
  apply Forall_cons; split; [exact I|].
  apply Forall_cons; split; [left; repeat split; discriminate|].
  apply Forall_cons; split; [right; reflexivity|].
  apply Forall_nil_2.
Defined.

Section Totals.
Import Projections Subscriber.
Context `{Countable K} {V : Type} (f : V -> Z).

Lemma total_insert_None (k : K) (v : V) (m : gmap K V) :
  m !! k = None -> total f (<[k := v]> m) = f v + total f m.
Proof.
  intros Hk. unfold total. rewrite map_fold_insert_L; [done| |done].
  intros. lia.
Qed.

Lemma total_insert_Some (k : K) (v old : V) (m : gmap K V) :
  m !! k = Some old -> total f (<[k := v]> m) = f v - f old + total f m.
Proof.
  intros Hk. rewrite <- (insert_delete_eq m k v).
  rewrite total_insert_None by apply lookup_delete_eq.
  rewrite <- (insert_delete_id m k old Hk) at 2.
  rewrite total_insert_None by apply lookup_delete_eq. lia.
Qed.

Lemma total_alter (g : V -> V) (k : K) (m : gmap K V) :
  (forall v, f (g v) = f v) -> total f (alter g k m) = total f m.
Proof.
  intros Hg. destruct (m !! k) as [old|] eqn:Hk.
  - assert (alter g k m = <[k := g old]> m) as ->.
    { apply map_eq. intros j. rewrite lookup_alter.
      destruct (decide (k = j)) as [<-|]; [by rewrite lookup_insert_eq, Hk|].
      by rewrite lookup_insert_ne. }
    rewrite (total_insert_Some k (g old) old m Hk), Hg. lia.
  - assert (alter g k m = m) as ->; [|done].
    apply map_eq. intros j. rewrite lookup_alter.
    destruct (decide (k = j)) as [<-|]; [by rewrite Hk|done].
Qed.

(** An upsert that counts one more order raises the total by one. *)
Lemma total_upsert (k : K) (v : V) (g : V -> V) (m : gmap K V) :
  f v = 1 -> (forall old, f (g old) = f old + 1) ->
  total f (upsert k v g m) = total f m + 1.
Proof.
  intros Hv Hg. unfold upsert. destruct (m !! k) as [old|] eqn:Hk.
  - rewrite (total_insert_Some k (g old) old m Hk), Hg. lia.
  - rewrite (total_insert_None k v m Hk), Hv. lia.
Qed.

End Totals.

Section TotalsInvariant.
Import Projections Subscriber.

(** One event projected: OrderCreated adds one order to each summary, the
    other events add none. *)
Lemma handle_event_totals session ty data session' :
  handle_event session ty data = Some session' ->
  let n := if String.eqb ty "OrderCreated" then 1 else 0 in
  total c_total_orders (customer_summary session')
  = total c_total_orders (customer_summary session) + n
  /\ total d_total_orders (daily_sales_summary session')
     = total d_total_orders (daily_sales_summary session) + n
  /\ total p_total_order_count (product_popularity session')
     = total p_total_order_count (product_popularity session) + n.
Proof.
  unfold handle_event.
  destruct (String.eqb ty "OrderCreated"); [|destruct (String.eqb ty "OrderConfirmed");
    [|destruct (String.eqb ty "OrderCancelled")]]; cbn zeta.
  - unfold _project_order_created.
    destruct (timestamp data) as [ts|]; [|done].
    destruct (order_id data) as [oid|]; [|done].
    destruct (customer_name data) as [cn|]; [|done].
    destruct (product_id data) as [pid|]; [|done].
    destruct (product_name data) as [pn|]; [|done].
    destruct (quantity data) as [qty|]; [|done].
    destruct (total_price data) as [price|]; [|done].
    cbn [mbind option_bind]. intros [= <-].
    cbn [customer_summary daily_sales_summary product_popularity].
    rewrite (total_alter p_total_order_count) by done.
    by rewrite !total_upsert by done.
  - unfold _project_order_confirmed.
    destruct (timestamp data) as [ts|]; [|done].
    destruct (order_id data) as [oid|]; [|done].
    cbn [mbind option_bind].
    destruct (marketing_order_snapshot session !! oid) as [o|]; intros [= <-];
      [|by rewrite !Z.add_0_r].
    cbn [customer_summary daily_sales_summary product_popularity].
    rewrite (total_alter c_total_orders), (total_alter d_total_orders),
      (total_alter p_total_order_count) by done.
    by rewrite !Z.add_0_r.
  - unfold _project_order_cancelled.
    destruct (timestamp data) as [ts|]; [|done].
    destruct (order_id data) as [oid|]; [|done].
    cbn [mbind option_bind].
    destruct (marketing_order_snapshot session !! oid) as [o|]; intros [= <-];
      [|by rewrite !Z.add_0_r].
    cbn [customer_summary daily_sales_summary product_popularity].
    rewrite (total_alter c_total_orders), (total_alter d_total_orders) by done.
    by rewrite !Z.add_0_r.
  - intros [= <-]. by rewrite !Z.add_0_r.
Qed.

End TotalsInvariant.

(** X23. The three summaries count the orders projected: after any sequence
    of polls, the total of total_orders over customer_summary, the total of
    total_orders over daily_sales_summary and the total of total_order_count
    over product_popularity have each grown by the number of OrderCreated
    events whose projection committed, a redelivered one counting again;
    OrderConfirmed and OrderCancelled events, events of other types and the
    messages passed over add nothing. Totals that are equal, as in an empty
    database, are therefore equal after any sequence of polls. *)
Theorem summaries_count_projected_orders
    (database : Projections.db) (polls : list Subscriber.polled) :
  let after := Subscriber.run_subscriber database polls in
  let n := orders_projected database polls in
  total Projections.c_total_orders (Projections.customer_summary after)
  = total Projections.c_total_orders (Projections.customer_summary database) + n
  /\ total Projections.d_total_orders (Projections.daily_sales_summary after)
     = total Projections.d_total_orders (Projections.daily_sales_summary database) + n
  /\ total Projections.p_total_order_count (Projections.product_popularity after)
     = total Projections.p_total_order_count (Projections.product_popularity database) + n
  /\ (orders_counted_alike database -> orders_counted_alike after).
Proof.
  cbn zeta.
  assert (total Projections.c_total_orders
            (Projections.customer_summary (Subscriber.run_subscriber database polls))
          = total Projections.c_total_orders (Projections.customer_summary database)
            + orders_projected database polls
          /\ total Projections.d_total_orders
               (Projections.daily_sales_summary (Subscriber.run_subscriber database polls))
             = total Projections.d_total_orders (Projections.daily_sales_summary database)
               + orders_projected database polls
          /\ total Projections.p_total_order_count
               (Projections.product_popularity (Subscriber.run_subscriber database polls))
             = total Projections.p_total_order_count
                 (Projections.product_popularity database)
               + orders_projected database polls) as (Hc & Hd & Hp).
  { revert database. induction polls as [|[|doc] polls IH]; intros database; simpl.
    - by rewrite !Z.add_0_r.
    - apply IH.
    - destruct (Subscriber.process database doc) as [database'|] eqn:E; [|apply IH].
      destruct (IH database') as (Hc & Hd & Hp). rewrite Hc, Hd, Hp.
      unfold Subscriber.process in E. destruct doc as [e|]; [|done]. simpl in E |- *.
      destruct (Subscriber.event_type e) as [ty|].
      + apply handle_event_totals in E as (Ec & Ed & Ep). cbn zeta in *.
        rewrite Ec, Ed, Ep. lia.
      + injection E as <-. lia. }
  split; [exact Hc|]. split; [exact Hd|]. split; [exact Hp|].
  unfold orders_counted_alike. rewrite Hc, Hd, Hp. lia.
Qed.

